(** * Board state materialisation: snapshot instance, compiler and viewer

    A shallow embedding of
      - src/store/state/viewer.go              (Indexer, Container, Viewer)
      - src/store/state/states/v1/pack_instance.go  (PackInstance)
      - src/store/state/compiler.go            (Compiler shutdown protocol)
    Go maps are finite maps ([gmap]), Go pointers into a map are the keys
    of that map, in-place mutation is explicit state passing, and a Go
    [error] result is an optional error next to the state. *)

From Stdlib Require Import ZArith Ascii String.
From stdpp Require Import base option gmap strings list fin_maps.

Local Open Scope string_scope.

(** ** Errors (package boo) *)

Module boo.

Inductive Kind := NotFound | InvalidRead | Internal | OutOfRange.

Record error := New { kind : Kind; msg : string }.

(** [boo.WrapTypef(e, kind, ...)]: the wrapping error carries the new kind. *)
Definition WrapType (e : error) (k : Kind) (m : string) : error :=
  New k (m +:+ ": " +:+ msg e).

#[global] Instance Kind_eq_dec : EqDecision Kind.
Proof. solve_decision. Defined.

End boo.

(** A Go result [(T, error)] where the value is dropped on error. *)
Inductive result (A : Type) :=
| Ok (a : A)
| Err (e : boo.error).
Arguments Ok {A} a.
Arguments Err {A} e.

(** A call that may also hit a nil dereference. *)
Inductive outcome (A : Type) :=
| Return (a : A)
| Fail (e : boo.error)
| Panic.
Arguments Return {A} a.
Arguments Fail {A} e.
Arguments Panic {A}.

(** ** Keys (cipher.PubKey, cipher.SHA256 and their hex form)

    A key value is represented by its canonical (lower-case) hex string.
    Decoding is the one of [cxo.GetPubKey] (src/cxo/repreq.go): the string
    must be valid hex of the exact byte length. *)

Module keys.

Definition is_hex_digit (a : ascii) : bool :=
  let n := nat_of_ascii a in
  (((48 <=? n) && (n <=? 57)) || ((97 <=? n) && (n <=? 102))
   || ((65 <=? n) && (n <=? 70)))%nat.

Definition lower_digit (a : ascii) : ascii :=
  let n := nat_of_ascii a in
  if ((65 <=? n) && (n <=? 70))%nat then ascii_of_nat (n + 32) else a.

Fixpoint all_hex (s : string) : bool :=
  match s with
  | EmptyString => true
  | String a s' => is_hex_digit a && all_hex s'
  end.

Fixpoint lower (s : string) : string :=
  match s with
  | EmptyString => EmptyString
  | String a s' => String (lower_digit a) (lower s')
  end.

Fixpoint zeros (n : nat) : string :=
  match n with
  | O => EmptyString
  | S n' => String "0"%char (zeros n')
  end.

(** [hex.DecodeString(s)] followed by the length check, for [n] bytes. *)
Definition decode (n : nat) (s : string) : option string :=
  if all_hex s && (String.length s =? 2 * n)%nat then Some (lower s) else None.

Definition PubKey := string.
Definition SHA256 := string.

Definition pubKeyLen : nat := 33.
Definition hashLen : nat := 32.

(** [cipher.SHA256{}] and [cipher.PubKey{}]. *)
Definition zeroHash : SHA256 := zeros (2 * hashLen).
Definition zeroPubKey : PubKey := zeros (2 * pubKeyLen).

Definition invalidKey : boo.error := boo.New boo.InvalidRead "invalid key".

(** Go returns the zero value next to the error. *)
Definition GetPubKey (s : string) : PubKey * option boo.error :=
  match decode pubKeyLen s with
  | Some k => (k, None)
  | None => (zeroPubKey, Some invalidKey)
  end.

Definition GetHash (s : string) : SHA256 * option boo.error :=
  match decode hashLen s with
  | Some k => (k, None)
  | None => (zeroHash, Some invalidKey)
  end.

Definition Hex (k : string) : string := k.

End keys.

(** ** Pagination indices (package typ/paginatedtypes) *)

Module paginated.

Record PaginatedInput := { StartIndex : nat; PageSize : nat }.
Record PaginatedOutput := { Data : list string }.

(** Modelled from the spec: the two pagination variants of §4.1, which are
    not among the source files.  [Simple] is the plain append-only list,
    [Mapped] deduplicates on [Append] (its auxiliary set is the set of the
    list's elements). *)
Inductive Paginated :=
| Simple (keys : list string)
| Mapped (keys : list string).

Definition NewSimple : Paginated := Simple [].
Definition NewMapped : Paginated := Mapped [].

Definition keysOf (p : Paginated) : list string :=
  match p with Simple l | Mapped l => l end.

Definition Has (p : Paginated) (k : string) : bool :=
  bool_decide (k ∈ keysOf p).

Definition Append (p : Paginated) (k : string) : Paginated :=
  match p with
  | Simple l => Simple (l ++ [k])
  | Mapped l => if bool_decide (k ∈ l) then Mapped l else Mapped (l ++ [k])
  end.

Definition outOfRange : boo.error :=
  boo.New boo.OutOfRange "start index out of range".

(** [Get] returns [keys[s : min(s+p, N)]], and fails only when [s > N]. *)
Definition Get (p : Paginated) (i : PaginatedInput) : result PaginatedOutput :=
  if (length (keysOf p) <? StartIndex i)%nat then Err outOfRange
  else Ok {| Data := take (PageSize i) (drop (StartIndex i) (keysOf p)) |}.

End paginated.

(** ** Content objects (package object)

    The package is not among the source files; viewer.go fixes the names
    and the types of what it uses. *)

Module object.

(** Modelled from the spec: §3, content is a tagged union over the variants
    Board, Thread, Post, ThreadVote, PostVote and UserVote; a tag outside
    of these takes the [default] branch of a switch. *)
Inductive ContentType :=
| V5BoardType | V5ThreadType | V5PostType
| V5ThreadVoteType | V5PostVoteType | V5UserVoteType
| V5UnknownType.

#[global] Instance ContentType_eq_dec : EqDecision ContentType.
Proof. solve_decision. Defined.

(** Modelled from the spec: §4.5 names the three tags trust, spam and
    block; the constants are not among the source files. *)
Definition TrustTag : string := "trust".
Definition SpamTag : string := "spam".
Definition BlockTag : string := "block".

(** Modelled from the spec: §3, a header carries the content hash, a body
    the variant tag, the creator, the board, thread and parent-post
    references, and the vote fields (target user, value, tag set). *)
Record ContentHeaderData := { Hash : string }.

Record Body := {
  Type_ : ContentType;
  Name : string;
  Creator : string;
  OfBoard : string;
  OfThread : string;
  OfPost : string;
  OfUser : string;
  Value : Z;
  Tags : list string;
}.

Record Content := { Header : ContentHeaderData; Body_ : Body }.

Definition GetHeader (c : Content) : ContentHeaderData := Header c.
Definition GetBody (c : Content) : Body := Body_ c.

(** Modelled from the spec: the getters decode the hex strings of the
    header and the body with the key decoders above.  [h.GetHash()] has a
    single result: a hash that cannot be decoded is the zero hash. *)
Definition GetHash (h : ContentHeaderData) : keys.SHA256 :=
  fst (keys.GetHash (Hash h)).

Definition GetOfBoard (b : Body) : keys.PubKey * option boo.error :=
  keys.GetPubKey (OfBoard b).
Definition GetOfThread (b : Body) : keys.SHA256 * option boo.error :=
  keys.GetHash (OfThread b).
Definition GetOfPost (b : Body) : keys.SHA256 * option boo.error :=
  keys.GetHash (OfPost b).

(** Modelled from the spec: §3, the tags of a body form a set. *)
Definition HasTag (b : Body) (tag : string) : bool :=
  bool_decide (tag ∈ Tags b).

(** Modelled from the spec: §4.5, the view of the votes on one content is
    made of aggregate counts and the vote of the perspective; viewer.go
    names the field [Ref]. *)
Record VoteRepView := {
  Ref : string;
  UpCount : nat;
  DownCount : nat;
  Voted : Z;
}.

(** Modelled from the spec: §2 and §4.5, the compiled output
    representation of a content; viewer.go writes its fields [PubKey] and
    [Votes], [ToRep] fills the rest from the content. *)
Record ContentRep := {
  PubKey : string;
  RepHeader : ContentHeaderData;
  RepBody : Body;
  Votes : option VoteRepView;
}.

Definition ToRep (c : Content) : ContentRep :=
  {| PubKey := ""; RepHeader := GetHeader c; RepBody := GetBody c;
     Votes := None |}.

Definition setPubKey (r : ContentRep) (k : string) : ContentRep :=
  {| PubKey := k; RepHeader := RepHeader r; RepBody := RepBody r;
     Votes := Votes r |}.

Definition setVotes (r : ContentRep) (w : VoteRepView) : ContentRep :=
  {| PubKey := PubKey r; RepHeader := RepHeader r; RepBody := RepBody r;
     Votes := Some w |}.

End object.

(** ** Viewer state (package state, viewer.go) *)

Module state.
Import object.

(** *** Profile *)

Record Profile := {
  Trusted : gset string;
  TrustedBy : gset string;
  MarkedAsSpam : gset string;
  MarkedAsSpamBy : gset string;
  Blocked : gset string;
  BlockedBy : gset string;
}.

Definition NewProfile : Profile :=
  {| Trusted := ∅; TrustedBy := ∅; MarkedAsSpam := ∅; MarkedAsSpamBy := ∅;
     Blocked := ∅; BlockedBy := ∅ |}.

(** Modelled from the spec: [Profile.ClearVotesFor] and
    [Profile.ClearVotesBy] are not among the source files; §3 and §4.5 say
    they clear all prior directional effects the creator had on the
    target: the three outgoing sets lose the target, the three incoming
    sets lose the creator. *)
Definition ClearVotesFor (upk : string) (p : Profile) : Profile :=
  {| Trusted := Trusted p ∖ {[upk]}; TrustedBy := TrustedBy p;
     MarkedAsSpam := MarkedAsSpam p ∖ {[upk]};
     MarkedAsSpamBy := MarkedAsSpamBy p;
     Blocked := Blocked p ∖ {[upk]}; BlockedBy := BlockedBy p |}.

Definition ClearVotesBy (upk : string) (p : Profile) : Profile :=
  {| Trusted := Trusted p; TrustedBy := TrustedBy p ∖ {[upk]};
     MarkedAsSpam := MarkedAsSpam p;
     MarkedAsSpamBy := MarkedAsSpamBy p ∖ {[upk]};
     Blocked := Blocked p; BlockedBy := BlockedBy p ∖ {[upk]} |}.

(** The six assignments [profile.Set[k] = struct{}{}]. *)
Definition addTrusted (k : string) (p : Profile) : Profile :=
  {| Trusted := {[k]} ∪ Trusted p; TrustedBy := TrustedBy p;
     MarkedAsSpam := MarkedAsSpam p; MarkedAsSpamBy := MarkedAsSpamBy p;
     Blocked := Blocked p; BlockedBy := BlockedBy p |}.
Definition addTrustedBy (k : string) (p : Profile) : Profile :=
  {| Trusted := Trusted p; TrustedBy := {[k]} ∪ TrustedBy p;
     MarkedAsSpam := MarkedAsSpam p; MarkedAsSpamBy := MarkedAsSpamBy p;
     Blocked := Blocked p; BlockedBy := BlockedBy p |}.
Definition addMarkedAsSpam (k : string) (p : Profile) : Profile :=
  {| Trusted := Trusted p; TrustedBy := TrustedBy p;
     MarkedAsSpam := {[k]} ∪ MarkedAsSpam p;
     MarkedAsSpamBy := MarkedAsSpamBy p;
     Blocked := Blocked p; BlockedBy := BlockedBy p |}.
Definition addMarkedAsSpamBy (k : string) (p : Profile) : Profile :=
  {| Trusted := Trusted p; TrustedBy := TrustedBy p;
     MarkedAsSpam := MarkedAsSpam p;
     MarkedAsSpamBy := {[k]} ∪ MarkedAsSpamBy p;
     Blocked := Blocked p; BlockedBy := BlockedBy p |}.
Definition addBlocked (k : string) (p : Profile) : Profile :=
  {| Trusted := Trusted p; TrustedBy := TrustedBy p;
     MarkedAsSpam := MarkedAsSpam p; MarkedAsSpamBy := MarkedAsSpamBy p;
     Blocked := {[k]} ∪ Blocked p; BlockedBy := BlockedBy p |}.
Definition addBlockedBy (k : string) (p : Profile) : Profile :=
  {| Trusted := Trusted p; TrustedBy := TrustedBy p;
     MarkedAsSpam := MarkedAsSpam p; MarkedAsSpamBy := MarkedAsSpamBy p;
     Blocked := Blocked p; BlockedBy := {[k]} ∪ BlockedBy p |}.

(** *** Vote aggregates *)

(** Modelled from the spec: [VotesRep] ([Fill], [Add], [View]) is not among
    the source files; §4.5 describes a vote-aggregate record keyed by the
    target hash to which each vote is appended, and a view made of the
    perspective's own vote and the aggregate counts. *)
Record VotesRep := {
  vType : ContentType;
  vRef : string;
  vVotes : list (string * Z);
}.

Definition Fill (cType : ContentType) (cHash : string) : VotesRep :=
  {| vType := cType; vRef := cHash; vVotes := [] |}.

Definition Add (c : Content) (r : VotesRep) : VotesRep :=
  {| vType := vType r; vRef := vRef r;
     vVotes := vVotes r ++ [(Creator (GetBody c), Value (GetBody c))] |}.

Definition View (r : VotesRep) (perspective : string) : VoteRepView :=
  {| Ref := vRef r;
     UpCount := length (filter (λ x, snd x = 1%Z) (vVotes r));
     DownCount := length (filter (λ x, snd x = (-1)%Z) (vVotes r));
     Voted := default 0%Z
                (snd <$> last (filter (λ x, fst x = perspective) (vVotes r)))
  |}.

(** *** Indexer and Container *)

Record Indexer := {
  Board : string;
  Threads : paginated.Paginated;
  PostsOfThread : gmap string paginated.Paginated;
  Users : paginated.Paginated;
}.

Definition NewIndexer : Indexer :=
  {| Board := ""; Threads := paginated.NewSimple; PostsOfThread := ∅;
     Users := paginated.NewMapped |}.

Definition EnsureUsersOfUserVoteBody (i : Indexer) (body : Body) : Indexer :=
  let users1 := paginated.Append (Users i) (Creator body) in
  let users2 := paginated.Append users1 (OfUser body) in
  {| Board := Board i; Threads := Threads i;
     PostsOfThread := PostsOfThread i; Users := users2 |}.

Record Container := {
  content : gmap string ContentRep;
  votes : gmap string VotesRep;
  profiles : gmap string Profile;
}.

Definition NewContainer : Container :=
  {| content := ∅; votes := ∅; profiles := ∅ |}.

Definition withProfiles (c : Container) (ps : gmap string Profile) : Container :=
  {| content := content c; votes := votes c; profiles := ps |}.
Definition withContent (c : Container) (m : gmap string ContentRep) : Container :=
  {| content := m; votes := votes c; profiles := profiles c |}.
Definition withVotes (c : Container) (m : gmap string VotesRep) : Container :=
  {| content := content c; votes := m; profiles := profiles c |}.

(** [GetProfile] returns the profile pointer stored under [upk], creating
    the record first when it is missing.  The pointer is represented by
    its key: later writes through it are [onProfile upk]. *)
Definition GetProfile (c : Container) (upk : string) : Container :=
  match profiles c !! upk with
  | Some _ => c
  | None => withProfiles c (<[upk := NewProfile]> (profiles c))
  end.

Definition onProfile (upk : string) (f : Profile → Profile) (c : Container)
  : Container :=
  withProfiles c (alter f upk (profiles c)).

(** *** Viewer *)

Record Viewer := {
  pk : keys.PubKey;
  i : Indexer;
  c : Container;
}.

Definition withI (v : Viewer) (x : Indexer) : Viewer :=
  {| pk := pk v; i := x; c := c v |}.
Definition withC (v : Viewer) (x : Container) : Viewer :=
  {| pk := pk v; i := i v; c := x |}.

Definition withBoard (x : Indexer) (b : string) : Indexer :=
  {| Board := b; Threads := Threads x; PostsOfThread := PostsOfThread x;
     Users := Users x |}.
Definition withThreads (x : Indexer) (t : paginated.Paginated) : Indexer :=
  {| Board := Board x; Threads := t; PostsOfThread := PostsOfThread x;
     Users := Users x |}.
Definition withPostsOfThread (x : Indexer)
    (m : gmap string paginated.Paginated) : Indexer :=
  {| Board := Board x; Threads := Threads x; PostsOfThread := m;
     Users := Users x |}.
Definition withUsers (x : Indexer) (u : paginated.Paginated) : Indexer :=
  {| Board := Board x; Threads := Threads x;
     PostsOfThread := PostsOfThread x; Users := u |}.

(** Modelled from the spec: §4.5, the pages of a snapshot as the viewer
    walks them: the board content, the thread pages with their posts, and
    the users with their submissions.  Reading the board or a thread can
    fail. *)
Record ThreadPage := { GetThread : result Content; Posts : list Content }.
Record BoardPage := {
  GetBoardContent : result Content;
  ThreadPages : list ThreadPage;
}.
Record UserProfile := { Submissions : list Content }.
Record UsersPage := { UserProfiles : list UserProfile }.

Record Pack := {
  Pub : keys.PubKey;
  packBoardPage : result BoardPage;
  packUsersPage : result UsersPage;
}.

Record GetPagesIn := {
  inRootPage : bool; inBoardPage : bool; inDiffPage : bool;
  inUsersPage : bool;
}.

Record Pages := { pBoardPage : BoardPage; pUsersPage : UsersPage }.

(** Modelled from the spec: [object.GetPages] is not among the source
    files; it reads the requested root slots and fails when one of them
    cannot be read.  A page that was not requested is left empty. *)
Definition GetPages (pack : Pack) (q : GetPagesIn) : result Pages :=
  let bp := if inBoardPage q then packBoardPage pack
            else Ok {| GetBoardContent := Err (boo.New boo.Internal "no page");
                       ThreadPages := [] |} in
  let up := if inUsersPage q then packUsersPage pack
            else Ok {| UserProfiles := [] |} in
  match bp, up with
  | Ok b, Ok u => Ok {| pBoardPage := b; pUsersPage := u |}
  | Err e, _ => Err e
  | _, Err e => Err e
  end.

(** Modelled from the spec: §3, the change set
    [{new, deletedThreads, deletedPosts}] that [Headers] hands out. *)
Record Changes := {
  New : list Content;
  DeletedThreads : list keys.SHA256;
  DeletedPosts : list (keys.SHA256 * keys.SHA256);
}.
Record Headers := { GetChanges : Changes }.

(** *** Helper functions *)

Definition checkBoardRef (expected : keys.PubKey) (body : Body)
    (what : string) : option boo.error :=
  match GetOfBoard body with
  | (_, Some e) => Some (boo.WrapType e boo.InvalidRead ("corrupt " +:+ what))
  | (got, None) =>
      if decide (got ≠ expected)
      then Some (boo.New boo.InvalidRead
                   ("misplaced " +:+ what +:+ ", unmatched board public key"))
      else None
  end.

Definition checkThreadRef (expected : keys.SHA256) (body : Body)
    (what : string) : option boo.error :=
  match GetOfThread body with
  | (_, Some e) => Some (boo.WrapType e boo.InvalidRead ("corrupt " +:+ what))
  | (got, None) =>
      if decide (got ≠ expected)
      then Some (boo.New boo.InvalidRead
                   ("misplaced " +:+ what +:+ ", unmatched board public key"))
      else None
  end.

(** *** Mutators *)

Definition setBoard (v : Viewer) (bc : Content) : Viewer :=
  let content1 := delete (Board (i v)) (content (c v)) in
  let board := Hash (GetHeader bc) in
  let rep := setPubKey (ToRep bc) (keys.Hex (pk v)) in
  {| pk := pk v;
     i := withBoard (i v) board;
     c := withContent (c v) (<[board := rep]> content1) |}.

Definition addThread (v : Viewer) (tc : Content) (b : Body)
    (h : ContentHeaderData) : Viewer * (keys.SHA256 * option boo.error) :=
  match checkBoardRef (pk v) b "thread" with
  | Some e => (v, (keys.zeroHash, Some e))
  | None =>
      let tHash := GetHash h in
      let i1 := withThreads (i v)
                  (paginated.Append (Threads (i v)) (keys.Hex tHash)) in
      let c1 := withContent (c v)
                  (<[keys.Hex tHash := ToRep tc]> (content (c v))) in
      let i2 := withPostsOfThread i1
                  (<[keys.Hex tHash := paginated.NewMapped]>
                     (PostsOfThread i1)) in
      ({| pk := pk v; i := i2; c := c1 |}, (tHash, None))
  end.

(** The reply link of [addPost]: a post that names a parent post is also
    appended to the parent's own post list, created on demand. *)
Definition linkReply (v : Viewer) (b : Body) (pHash : string) : Viewer :=
  let ofPost := fst (GetOfPost b) in
  if decide (ofPost ≠ keys.zeroHash) then
    let pList := default paginated.NewMapped
                   (PostsOfThread (i v) !! keys.Hex ofPost) in
    withI v (withPostsOfThread (i v)
               (<[keys.Hex ofPost := paginated.Append pList pHash]>
                  (PostsOfThread (i v))))
  else v.

Definition addPost (v : Viewer) (tHash : keys.SHA256) (pc : Content)
    (b : Body) (h : ContentHeaderData) : Viewer * option boo.error :=
  match checkBoardRef (pk v) b "post" with
  | Some e => (v, Some e)
  | None =>
  match checkThreadRef tHash b "post" with
  | Some e => (v, Some e)
  | None =>
      let pHash := Hash h in
      match PostsOfThread (i v) !! keys.Hex tHash with
      | None =>
          (v, Some (boo.New boo.Internal
                      ("thread of hash " +:+ keys.Hex tHash +:+ " not found")))
      | Some posts =>
          let i1 := withPostsOfThread (i v)
                      (<[keys.Hex tHash := paginated.Append posts pHash]>
                         (PostsOfThread (i v))) in
          let c1 := withContent (c v)
                      (<[pHash := ToRep pc]> (content (c v))) in
          (linkReply {| pk := pk v; i := i1; c := c1 |} b pHash, None)
      end
  end
  end.

Definition ensureUser (v : Viewer) (upk : string) : Viewer :=
  let i1 := withUsers (i v) (paginated.Append (Users (i v)) upk) in
  let c1 := match profiles (c v) !! upk with
            | Some _ => c v
            | None => withProfiles (c v) (<[upk := NewProfile]> (profiles (c v)))
            end in
  {| pk := pk v; i := i1; c := c1 |}.

Definition processUserVote (v : Viewer) (ct : Content) (b : Body)
    (h : ContentHeaderData) : Viewer * option boo.error :=
  (* creatorProfile, ofUserProfile: pointers, i.e. the two keys *)
  let c1 := GetProfile (c v) (Creator b) in
  let c2 := GetProfile c1 (OfUser b) in
  let c3 := onProfile (Creator b) (ClearVotesFor (OfUser b)) c2 in
  let c4 := onProfile (OfUser b) (ClearVotesBy (Creator b)) c3 in
  let v4 := withC v c4 in
  let v5 :=
    if decide (Value b = 1%Z) then
      if HasTag b TrustTag then
        let i1 := EnsureUsersOfUserVoteBody (i v4) b in
        let c5 := onProfile (Creator b) (addTrusted (OfUser b)) (c v4) in
        let c6 := onProfile (OfUser b) (addTrustedBy (Creator b)) c5 in
        {| pk := pk v4; i := i1; c := c6 |}
      else v4
    else if decide (Value b = (-1)%Z) then
      let va :=
        if HasTag b SpamTag then
          let i1 := EnsureUsersOfUserVoteBody (i v4) b in
          let c5 := onProfile (Creator b) (addMarkedAsSpam (OfUser b)) (c v4) in
          let c6 := onProfile (OfUser b) (addMarkedAsSpamBy (Creator b)) c5 in
          {| pk := pk v4; i := i1; c := c6 |}
        else v4 in
      if HasTag b BlockTag then
        let i1 := EnsureUsersOfUserVoteBody (i va) b in
        let c5 := onProfile (Creator b) (addBlocked (OfUser b)) (c va) in
        let c6 := onProfile (OfUser b) (addBlockedBy (Creator b)) c5 in
        {| pk := pk va; i := i1; c := c6 |}
      else va
    else if decide (Value b = 0%Z) then
      withI v4 (EnsureUsersOfUserVoteBody (i v4) b)
    else v4 in
  (v5, None).

(** The tail of [processVote] once the target hash and type are known. *)
Definition addVote (v : Viewer) (ct : Content) (cType : ContentType)
    (cHash : string) : Viewer * option boo.error :=
  match content (c v) !! cHash with
  | None => (v, None)
  | Some _ =>
      let voteRep := default (Fill cType cHash) (votes (c v) !! cHash) in
      (withC v (withVotes (c v) (<[cHash := Add ct voteRep]> (votes (c v)))),
       None)
  end.

Definition processVote (v : Viewer) (ct : Content) (b : Body)
    (h : ContentHeaderData) : Viewer * option boo.error :=
  match Type_ b with
  | V5ThreadVoteType => addVote v ct V5ThreadVoteType (OfThread b)
  | V5PostVoteType => addVote v ct V5PostVoteType (OfPost b)
  | V5UserVoteType => processUserVote v ct b h
  | _ => (v, None)
  end.

(** *** Bootstrap and incremental update *)

Definition ErrViewerNotInitialized : boo.error :=
  boo.New boo.NotFound "viewer is not initialized".

(** [tp.RangePosts]: the callback of [NewViewer] on each post, stopping at
    the first error. *)
Fixpoint rangePosts (v : Viewer) (tHash : keys.SHA256) (posts : list Content)
    : Viewer * option boo.error :=
  match posts with
  | [] => (v, None)
  | post :: rest =>
      let pBody := GetBody post in
      let pHeader := GetHeader post in
      let v1 := ensureUser v (Creator pBody) in
      match addPost v1 tHash post pBody pHeader with
      | (v2, Some e) => (v2, Some e)
      | (v2, None) => rangePosts v2 tHash rest
      end
  end.

(** [BoardPage.RangeThreadPages] with the callback of [NewViewer]. *)
Fixpoint rangeThreadPages (v : Viewer) (tps : list ThreadPage)
    : Viewer * option boo.error :=
  match tps with
  | [] => (v, None)
  | tp :: rest =>
      match GetThread tp with
      | Err e => (v, Some e)
      | Ok thread =>
          let tBody := GetBody thread in
          let tHeader := GetHeader thread in
          let v1 := ensureUser v (Creator tBody) in
          match addThread v1 thread tBody tHeader with
          | (v2, (_, Some e)) => (v2, Some e)
          | (v2, (tHash, None)) =>
              match rangePosts v2 tHash (Posts tp) with
              | (v3, Some e) => (v3, Some e)
              | (v3, None) => rangeThreadPages v3 rest
              end
          end
      end
  end.

(** [UserProfile.RangeSubmissions] with the callback of [NewViewer]. *)
Fixpoint rangeSubmissions (v : Viewer) (subs : list Content)
    : Viewer * option boo.error :=
  match subs with
  | [] => (v, None)
  | ct :: rest =>
      let vBody := GetBody ct in
      let vHeader := GetHeader ct in
      let v1 := ensureUser v (Creator vBody) in
      match processVote v1 ct vBody vHeader with
      | (v2, Some e) => (v2, Some e)
      | (v2, None) => rangeSubmissions v2 rest
      end
  end.

Fixpoint rangeUserProfiles (v : Viewer) (ups : list UserProfile)
    : Viewer * option boo.error :=
  match ups with
  | [] => (v, None)
  | uap :: rest =>
      match rangeSubmissions v (Submissions uap) with
      | (v1, Some e) => (v1, Some e)
      | (v1, None) => rangeUserProfiles v1 rest
      end
  end.

Definition NewViewer (pack : Pack) : result Viewer :=
  let v := {| pk := Pub pack; i := NewIndexer; c := NewContainer |} in
  match GetPages pack {| inRootPage := false; inBoardPage := true;
                         inDiffPage := false; inUsersPage := true |} with
  | Err e => Err e
  | Ok pages =>
  match GetBoardContent (pBoardPage pages) with
  | Err e => Err e
  | Ok board =>
  let v1 := setBoard v board in
  match rangeThreadPages v1 (ThreadPages (pBoardPage pages)) with
  | (_, Some e) => Err e
  | (v2, None) =>
  match rangeUserProfiles v2 (UserProfiles (pUsersPage pages)) with
  | (_, Some e) => Err e
  | (v3, None) => Ok v3
  end end end end.

(** One iteration of the loop of [Update] over [GetChanges().New]. *)
Definition updateItem (v : Viewer) (ct : Content) : Viewer * option boo.error :=
  let header := GetHeader ct in
  let body := GetBody ct in
  let v1 := ensureUser v (Creator body) in
  match Type_ body with
  | V5ThreadType =>
      match addThread v1 ct body header with
      | (v2, (_, e)) => (v2, e)
      end
  | V5PostType =>
      let tHash := fst (GetOfThread body) in
      addPost v1 tHash ct body header
  | V5ThreadVoteType | V5PostVoteType | V5UserVoteType =>
      (fst (processVote v1 ct body header), None)
  | _ => (v1, None)
  end.

Fixpoint updateNew (v : Viewer) (new : list Content)
    : Viewer * option boo.error :=
  match new with
  | [] => (v, None)
  | ct :: rest =>
      match updateItem v ct with
      | (v1, Some e) => (v1, Some e)
      | (v1, None) => updateNew v1 rest
      end
  end.

(** [Update] works in place: the viewer keeps what was written before an
    error is returned. *)
Definition Update (ov : option Viewer) (pack : Pack) (headers : Headers)
    : option Viewer * option boo.error :=
  match ov with
  | None => (None, Some ErrViewerNotInitialized)
  | Some v =>
  match GetPages pack {| inRootPage := false; inBoardPage := true;
                         inDiffPage := false; inUsersPage := false |} with
  | Err e => (Some v, Some e)
  | Ok pages =>
  match GetBoardContent (pBoardPage pages) with
  | Err e => (Some v, Some e)
  | Ok board =>
      let v1 := setBoard v board in
      match updateNew v1 (New (GetChanges headers)) with
      | (v2, e) => (Some v2, e)
      end
  end end end.

(** *** Checks and queries *)

Definition HasUser (ov : option Viewer) (upk : string) : bool :=
  match ov with
  | None => false
  | Some v => paginated.Has (Users (i v)) upk
  end.

Definition HasThread (ov : option Viewer) (tHash : string) : bool :=
  match ov with
  | None => false
  | Some v => paginated.Has (Threads (i v)) tHash
  end.

Definition HasContent (ov : option Viewer) (hash : string) : bool :=
  match ov with
  | None => false
  | Some v => bool_decide (is_Some (content (c v) !! hash))
  end.

(** [GetBoard] returns the pointer stored under the board key (nil when
    there is none) and never fails on an initialised viewer. *)
Definition GetBoard (ov : option Viewer) : result (option ContentRep) :=
  match ov with
  | None => Err ErrViewerNotInitialized
  | Some v => Ok (content (c v) !! Board (i v))
  end.

Record ThreadPageIn := {
  tpPerspective : string;
  ThreadHash : string;
  tpPaginatedInput : paginated.PaginatedInput;
}.

(** The three fields are pointers into the container: they are read when
    the call returns, after the vote views were written through them. *)
Record ThreadPageOut := {
  outBoard : option ContentRep;
  outThread : option ContentRep;
  outPosts : list (option ContentRep);
}.

(** [if votes, ok := v.c.votes[h]; ok { rep.Votes = votes.View(p) }] where
    [rep] is the pointer [v.c.content[h]]. *)
Definition annotate (v : Viewer) (perspective h : string) : option Viewer :=
  match votes (c v) !! h with
  | None => Some v
  | Some vr =>
      match content (c v) !! h with
      | None => None (* nil pointer dereference *)
      | Some rep =>
          Some (withC v (withContent (c v)
                  (<[h := setVotes rep (View vr perspective)]>
                     (content (c v)))))
      end
  end.

Fixpoint annotateAll (v : Viewer) (perspective : string) (hs : list string)
    : option Viewer :=
  match hs with
  | [] => Some v
  | h :: rest =>
      match annotate v perspective h with
      | None => None
      | Some v1 => annotateAll v1 perspective rest
      end
  end.

Definition GetThreadPage (ov : option Viewer) (q : ThreadPageIn)
    : option Viewer * outcome ThreadPageOut :=
  match ov with
  | None => (None, Fail ErrViewerNotInitialized)
  | Some v =>
  match content (c v) !! ThreadHash q with
  | None =>
      (Some v,
       Fail (boo.New boo.NotFound
               ("thread of hash '" +:+ ThreadHash q
                +:+ "' is not found in board '" +:+ keys.Hex (pk v) +:+ "'")))
  | Some _ =>
  match annotate v (tpPerspective q) (ThreadHash q) with
  | None => (Some v, Panic)
  | Some v1 =>
  match PostsOfThread (i v1) !! ThreadHash q with
  | None => (Some v1, Panic) (* method call on a nil interface *)
  | Some plist =>
  match paginated.Get plist (tpPaginatedInput q) with
  | Err e => (Some v1, Fail e)
  | Ok pHashes =>
  match annotateAll v1 (tpPerspective q) (paginated.Data pHashes) with
  | None => (Some v1, Panic)
  | Some v2 =>
      (Some v2,
       Return {| outBoard := content (c v2) !! Board (i v2);
                 outThread := content (c v2) !! ThreadHash q;
                 outPosts := (λ h, content (c v2) !! h)
                               <$> paginated.Data pHashes |})
  end end end end end end.

Record ContentVotesIn := { cvPerspective : string; ContentHash : string }.
Record ContentVotesOut := { outVotes : VoteRepView }.

(** [&VoteRepView{Ref: h}]: every other field has its zero value. *)
Definition emptyVoteView (h : string) : VoteRepView :=
  {| Ref := h; UpCount := 0; DownCount := 0; Voted := 0 |}.

Definition GetVotes (ov : option Viewer) (q : ContentVotesIn)
    : result ContentVotesOut :=
  match ov with
  | None => Err ErrViewerNotInitialized
  | Some v =>
      match votes (c v) !! ContentHash q with
      | Some vr => Ok {| outVotes := View vr (cvPerspective q) |}
      | None =>
          match content (c v) !! ContentHash q with
          | Some _ => Ok {| outVotes := emptyVoteView (ContentHash q) |}
          | None =>
              Err (boo.New boo.NotFound
                     ("content of hash '" +:+ ContentHash q
                      +:+ "' is not found"))
          end
      end
  end.

Record UserProfileIn := { UserPubKey : string }.
Record UserProfileOut := { outUserPubKey : string; outProfile : Profile }.

Definition GetUserProfile (ov : option Viewer) (q : UserProfileIn)
    : result UserProfileOut :=
  match ov with
  | None => Err ErrViewerNotInitialized
  | Some v =>
      if negb (paginated.Has (Users (i v)) (UserPubKey q)) then
        Err (boo.New boo.NotFound
               ("user of public key " +:+ UserPubKey q +:+ " is not found"))
      else
        match profiles (c v) !! UserPubKey q with
        | None =>
            Err (boo.New boo.Internal
                   ("user of public key " +:+ UserPubKey q
                    +:+ " is indexed but has no profile"))
        | Some profile =>
            Ok {| outUserPubKey := UserPubKey q; outProfile := profile |}
        end
  end.

Record BoardPageIn := {
  bpPerspective : string;
  bpPaginatedInput : paginated.PaginatedInput;
}.

(** Pointers into the container, read when the call returns. *)
Record BoardPageOut := {
  outPageBoard : option ContentRep;
  outThreads : list (option ContentRep);
}.

Definition GetBoardPage (ov : option Viewer) (q : BoardPageIn)
    : option Viewer * outcome BoardPageOut :=
  match ov with
  | None => (None, Fail ErrViewerNotInitialized)
  | Some v =>
  match paginated.Get (Threads (i v)) (bpPaginatedInput q) with
  | Err e => (Some v, Fail e)
  | Ok tHashes =>
  match annotateAll v (bpPerspective q) (paginated.Data tHashes) with
  | None => (Some v, Panic)
  | Some v1 =>
      (Some v1,
       Return {| outPageBoard := content (c v1) !! Board (i v1);
                 outThreads := (λ h, content (c v1) !! h)
                                 <$> paginated.Data tHashes |})
  end end end.

End state.

(** ** Snapshot instance (package v1, pack_instance.go) *)

Module v1.
Import keys.

Definition nameThread : string := "thread".
Definition namePost : string := "post".

(** Modelled from the spec: the root schema constants are declared in a
    file that is not among the sources; §3 fixes five slots in the order
    ContentIndex, Deleted, ThreadVotePages, PostVotePages, UserVotePages. *)
Definition indexContent : nat := 0.
Definition indexDeleted : nat := 1.
Definition indexThreadVotes : nat := 2.
Definition indexPostVotes : nat := 3.
Definition indexUserVotes : nat := 4.
Definition countRootRefs : nat := 5.

(** *** Snapshot objects *)

(** Modelled from the spec: §3, the objects behind the five root slots;
    pack_instance.go fixes the field names it uses ([Ref], [Threads],
    [Posts], [Users], [Creator], [OfUser], [Tag]). *)
Record Vote := {
  vCreator : PubKey;
  vOfUser : PubKey;
  vMode : Z;
  vTag : string;
}.

#[global] Instance Vote_eq_dec : EqDecision Vote.
Proof. solve_decision. Defined.

Record ContentVotesPage := { Ref : SHA256; pageVotes : list Vote }.
Record UserVotesPage := { uRef : PubKey; uPageVotes : list Vote }.
Record ThreadPage := { Thread : SHA256; tpPosts : list SHA256 }.

Record ThreadPages := { tpThreadPages : list ThreadPage }.
Record Deleted := { dThreads : list SHA256; dPosts : list SHA256 }.
Record ThreadVotesPages := { Threads : list ContentVotesPage }.
Record PostVotesPages := { Posts : list ContentVotesPage }.
Record UserVotesPages := { Users : list UserVotesPage }.

(** The dynamic type of a root child ([interface{}]), which the type
    assertions of [extract] test. *)
Inductive RootChild :=
| IsThreadPages (x : ThreadPages)
| IsDeleted (x : Deleted)
| IsThreadVotesPages (x : ThreadVotesPages)
| IsPostVotesPages (x : PostVotesPages)
| IsUserVotesPages (x : UserVotesPages)
| IsOther.

(** [skyobject.Pack]: the root's public key and its references, each with
    the hash of the object and the object itself. *)
Record Pack := {
  Pub : PubKey;
  Refs : list (SHA256 * RootChild);
  unreadable : option boo.error;
}.

Definition RootRefs (pack : Pack) : result (list RootChild) :=
  match unreadable pack with
  | Some e => Err e
  | None => Ok (snd <$> Refs pack)
  end.

Definition RefByIndex (pack : Pack) (n : nat) : result RootChild :=
  match unreadable pack with
  | Some e => Err e
  | None =>
      match Refs pack !! n with
      | Some x => Ok (snd x)
      | None => Err (boo.New boo.NotFound "no such root reference")
      end
  end.

(** *** Change set (package io) *)

(** Modelled from the spec: §3 and §4.2, the change set of the snapshot
    instance with its recording switch. *)
Record Changes := {
  NeedRecord : bool;
  DeletedThreads : list SHA256;
  DeletedPosts : list (SHA256 * SHA256);
}.

Definition NewChanges (bpk : PubKey) (needRecord : bool) : Changes :=
  {| NeedRecord := needRecord; DeletedThreads := []; DeletedPosts := [] |}.

(** Modelled from the spec: §4.2, the two recorders are no-ops when change
    recording is disabled. *)
Definition RecordDeleteThread (ch : Changes) (h : SHA256) : Changes :=
  if NeedRecord ch
  then {| NeedRecord := true; DeletedThreads := DeletedThreads ch ++ [h];
          DeletedPosts := DeletedPosts ch |}
  else ch.

Definition RecordDeletePost (ch : Changes) (tRef h : SHA256) : Changes :=
  if NeedRecord ch
  then {| NeedRecord := true; DeletedThreads := DeletedThreads ch;
          DeletedPosts := DeletedPosts ch ++ [(tRef, h)] |}
  else ch.

(** *** Stores *)

(** Modelled from the spec: §3, the vote summary of one content:
    [{pageIndex, pageHash, votes}]; pack_instance.go fixes the field names. *)
Record VotesSummary := {
  Index : nat;
  OfContent : SHA256;
  Hash : SHA256;
  Votes : gmap PubKey Vote;
}.

Record ContentVotesStore := {
  csName : string;
  csHash : SHA256;
  csStore : gmap SHA256 VotesSummary;
}.

(** Modelled from the spec: §4.2, [Get(contentHash) → VoteSummary, found]
    and [Set(contentHash, summary)]. *)
Definition Get (s : ContentVotesStore) (h : SHA256) : option VotesSummary :=
  csStore s !! h.

Definition Set_ (s : ContentVotesStore) (h : SHA256) (x : VotesSummary)
  : ContentVotesStore :=
  {| csName := csName s; csHash := csHash s;
     csStore := <[h := x]> (csStore s) |}.

Definition GotStore := gmap SHA256 SHA256.

(** Modelled from the spec: §4.2, the origin thread of a post, the zero
    hash when unknown. *)
Definition GetPostOrigin (g : GotStore) (h : SHA256) : SHA256 :=
  default zeroHash (g !! h).

Record Tag := { Mode : string; Text : string }.
Record FollowPage := { Yes : gmap string Tag; No : gmap string Tag }.
Definition FollowPageStore := gmap PubKey FollowPage.

Definition NewFollowPageStore : FollowPageStore := ∅.

(** [followStore.Modify(k).Yes[u] = t]: the page is created on demand. *)
Definition setYes (k : PubKey) (u : string) (t : Tag) (f : FollowPageStore)
  : FollowPageStore :=
  let page := default {| Yes := ∅; No := ∅ |} (f !! k) in
  <[k := {| Yes := <[u := t]> (Yes page); No := No page |}]> f.

Definition setNo (k : PubKey) (u : string) (t : Tag) (f : FollowPageStore)
  : FollowPageStore :=
  let page := default {| Yes := ∅; No := ∅ |} (f !! k) in
  <[k := {| Yes := Yes page; No := <[u := t]> (No page) |}]> f.

Definition UserVotesStore := gmap PubKey (list Vote).

Section Builders.
(** [cipher.SumSHA256(encoder.Serialize(_))] on a vote page and on a
    root child. *)
Variable hashPage : ContentVotesPage → SHA256.
Variable hashChild : RootChild → SHA256.

Definition SetRefByIndex (pack : Pack) (n : nat) (x : RootChild)
  : Pack * option boo.error :=
  match unreadable pack with
  | Some e => (pack, Some e)
  | None =>
      if decide (n < length (Refs pack))
      then ({| Pub := Pub pack; Refs := <[n := (hashChild x, x)]> (Refs pack);
               unreadable := None |}, None)
      else (pack, Some (boo.New boo.NotFound "no such root reference"))
  end.

(** Modelled from the spec: the three store constructors are not among
    the source files.  §4.2 and §4.3: each store is built from its page
    list and carries forward the entries of its predecessor. *)
Definition NewGotStore (old : option GotStore) (h : SHA256)
    (tPages : ThreadPages) (ch : Changes) : result GotStore :=
  Ok (foldl (λ g tp, foldl (λ g' p, <[p := Thread tp]> g') g (tpPosts tp))
        (default ∅ old) (tpThreadPages tPages)).

Definition summaryOf (n : nat) (page : ContentVotesPage) : VotesSummary :=
  {| Index := n; OfContent := Ref page; Hash := hashPage page;
     Votes := list_to_map ((λ w, (vCreator w, w)) <$> pageVotes page) |}.

Definition NewContentVotesStore (old : option ContentVotesStore)
    (name : string) (h : SHA256) (pages : list ContentVotesPage)
    (ch : Changes) : result ContentVotesStore :=
  Ok {| csName := name; csHash := h;
        csStore :=
          foldl (λ m x, <[Ref (snd x) := summaryOf (fst x) (snd x)]> m)
            (default ∅ (csStore <$> old)) (imap pair pages) |}.

(** The callbacks run once per user-vote that the predecessor had not
    seen; they act on the follow store of the instance. *)
Definition NewUserVotesStore (old : option UserVotesStore) (h : SHA256)
    (pages : list UserVotesPage)
    (onUpvote onDownvote : Vote → FollowPageStore → FollowPageStore)
    (ch : Changes) (f : FollowPageStore)
  : result UserVotesStore * FollowPageStore :=
  let seen := default ∅ old in
  let fresh page :=
    filter (λ w, w ∉ default [] (seen !! uRef page)) (uPageVotes page) in
  let f' :=
    foldl (λ f0 page,
             foldl (λ f1 w,
                      if decide (vMode w = 1%Z) then onUpvote w f1
                      else if decide (vMode w = (-1)%Z) then onDownvote w f1
                      else f1) f0 (fresh page)) f pages in
  (Ok (foldl (λ m page, <[uRef page := uPageVotes page]> m) seen pages), f').

(** *** PackInstance *)

(** A nil store pointer is [None]. *)
#[local] Unset Elimination Schemes.
Inductive PackInstance := mkPackInstance {
  prev : option PackInstance;
  pack : Pack;
  changes : Changes;
  gotStore : option GotStore;
  tVotesStore : option ContentVotesStore;
  pVotesStore : option ContentVotesStore;
  uVotesStore : option UserVotesStore;
  followStore : FollowPageStore;
}.
#[local] Set Elimination Schemes.

Definition withPrev (p : PackInstance) (x : option PackInstance) :=
  mkPackInstance x (pack p) (changes p) (gotStore p) (tVotesStore p)
    (pVotesStore p) (uVotesStore p) (followStore p).
Definition withPack (p : PackInstance) (x : Pack) :=
  mkPackInstance (prev p) x (changes p) (gotStore p) (tVotesStore p)
    (pVotesStore p) (uVotesStore p) (followStore p).
Definition withChanges (p : PackInstance) (x : Changes) :=
  mkPackInstance (prev p) (pack p) x (gotStore p) (tVotesStore p)
    (pVotesStore p) (uVotesStore p) (followStore p).
Definition withGotStore (p : PackInstance) (x : option GotStore) :=
  mkPackInstance (prev p) (pack p) (changes p) x (tVotesStore p)
    (pVotesStore p) (uVotesStore p) (followStore p).
Definition withTVotesStore (p : PackInstance) (x : option ContentVotesStore) :=
  mkPackInstance (prev p) (pack p) (changes p) (gotStore p) x
    (pVotesStore p) (uVotesStore p) (followStore p).
Definition withPVotesStore (p : PackInstance) (x : option ContentVotesStore) :=
  mkPackInstance (prev p) (pack p) (changes p) (gotStore p) (tVotesStore p)
    x (uVotesStore p) (followStore p).
Definition withUVotesStore (p : PackInstance) (x : option UserVotesStore) :=
  mkPackInstance (prev p) (pack p) (changes p) (gotStore p) (tVotesStore p)
    (pVotesStore p) x (followStore p).
Definition withFollowStore (p : PackInstance) (x : FollowPageStore) :=
  mkPackInstance (prev p) (pack p) (changes p) (gotStore p) (tVotesStore p)
    (pVotesStore p) (uVotesStore p) x.

(** *** Helper functions *)

Definition extractRootChildren (pk : Pack) : result (list RootChild) :=
  match RootRefs pk with
  | Err e =>
      Err (boo.WrapType e boo.InvalidRead "failed to extract root children")
  | Ok rc =>
      if decide (length rc ≠ countRootRefs)
      then Err (boo.New boo.InvalidRead "root has invalid ref count")
      else Ok rc
  end.

(** [pack.Root().Refs[i].Object]; the index is in range once
    [extractRootChildren] has succeeded. *)
Definition getRootChildHash (pk : Pack) (n : nat) : SHA256 :=
  default zeroHash (fst <$> Refs pk !! n).

Definition upVoteAction (w : Vote) : FollowPageStore → FollowPageStore :=
  setYes (vCreator w) (Hex (vOfUser w)) {| Mode := "+1"; Text := vTag w |}.

Definition downVoteAction (w : Vote) : FollowPageStore → FollowPageStore :=
  setNo (vCreator w) (Hex (vOfUser w)) {| Mode := "-1"; Text := vTag w |}.

(** *** extract *)

Definition extract (p : PackInstance) : PackInstance * option boo.error :=
  match extractRootChildren (pack p) with
  | Err e => (p, Some e)
  | Ok children =>
  (* Get old stores from previous PackInstance (if any). *)
  let oldGS := prev p ≫= gotStore in
  let oldTVS := prev p ≫= tVotesStore in
  let oldPVS := prev p ≫= pVotesStore in
  let oldUPS := prev p ≫= uVotesStore in
  (* Initiate GotStore. *)
  match children !! indexContent with
  | Some (IsThreadPages tPages) =>
  match NewGotStore oldGS (getRootChildHash (pack p) indexContent)
          tPages (changes p) with
  | Err e => (withGotStore p None, Some e)
  | Ok gs =>
  let p1 := withGotStore p (Some gs) in
  (* Process Deleted. *)
  match children !! indexDeleted with
  | Some (IsDeleted deleted) =>
  let ch1 := foldl RecordDeleteThread (changes p1) (dThreads deleted) in
  let ch2 :=
    foldl (λ ch ref,
             let tRef := match oldGS with
                         | Some g => GetPostOrigin g ref
                         | None => zeroHash
                         end in
             RecordDeletePost ch tRef ref) ch1 (dPosts deleted) in
  let p2 := withChanges p1 ch2 in
  (* Initiate ThreadVotesStore. *)
  match children !! indexThreadVotes with
  | Some (IsThreadVotesPages tvPages) =>
  match NewContentVotesStore oldTVS nameThread
          (getRootChildHash (pack p2) indexThreadVotes)
          (Threads tvPages) (changes p2) with
  | Err e => (withTVotesStore p2 None, Some e)
  | Ok tvs =>
  let p3 := withTVotesStore p2 (Some tvs) in
  (* Initiate PostVotesStore. *)
  match children !! indexPostVotes with
  | Some (IsPostVotesPages pvPages) =>
  match NewContentVotesStore oldPVS namePost
          (getRootChildHash (pack p3) indexPostVotes)
          (Posts pvPages) (changes p3) with
  | Err e => (withTVotesStore p3 None, Some e)
  | Ok pvs =>
  (* the source assigns this result to p.tVotesStore *)
  let p4 := withTVotesStore p3 (Some pvs) in
  (* Initiate UserVotesStore. *)
  match children !! indexUserVotes with
  | Some (IsUserVotesPages uvPages) =>
  match NewUserVotesStore oldUPS
          (getRootChildHash (pack p4) indexUserVotes)
          (Users uvPages) upVoteAction downVoteAction
          (changes p4) (followStore p4) with
  | (Err e, f) => (withUVotesStore (withFollowStore p4 f) None, Some e)
  | (Ok uvs, f) => (withUVotesStore (withFollowStore p4 f) (Some uvs), None)
  end
  | _ => (p4, Some (boo.New boo.InvalidRead
                      "root child 'UserVotesPages' is invalid"))
  end
  end
  | _ => (p3, Some (boo.New boo.InvalidRead
                      "root child 'PostVotesPages' is invalid"))
  end
  end
  | _ => (p2, Some (boo.New boo.InvalidRead
                      "root child 'ThreadVotesPages' is invalid"))
  end
  | _ => (p1, Some (boo.New boo.InvalidRead
                      "root child 'Deleted' is invalid"))
  end
  end
  | _ => (p, Some (boo.New boo.InvalidRead
                     "root child 'ThreadPages' is invalid"))
  end
  end.

Definition NewPackInstance (oldInstance : option PackInstance) (pk : Pack)
  : result PackInstance :=
  let newInstance :=
    {| prev := oldInstance;
       pack := pk;
       changes := NewChanges (Pub pk) (bool_decide (is_Some oldInstance));
       gotStore := None; tVotesStore := None; pVotesStore := None;
       uVotesStore := None;
       followStore := NewFollowPageStore |} in
  match extract newInstance with
  | (_, Some e) => Err e
  | (p, None) => Ok (withPrev p None)
  end.

(** *** Reading and appending vote pages *)

Definition GetThreadVotesPages (p : PackInstance) : result ThreadVotesPages :=
  match RefByIndex (pack p) indexThreadVotes with
  | Err e =>
      Err (boo.WrapType e boo.InvalidRead
             "failed to obtain root child value of index")
  | Ok (IsThreadVotesPages tvPages) => Ok tvPages
  | Ok _ =>
      Err (boo.New boo.InvalidRead "root child 'ThreadVotesPages' is invalid")
  end.

Definition GetPostVotesPages (p : PackInstance) : result PostVotesPages :=
  match RefByIndex (pack p) indexPostVotes with
  | Err e =>
      Err (boo.WrapType e boo.InvalidRead
             "failed to obtain root child of index")
  | Ok (IsPostVotesPages pvPages) => Ok pvPages
  | Ok _ =>
      Err (boo.New boo.InvalidRead "root child 'PostVotesPages' is invalid")
  end.

(** The result is [None] when the call dereferences a nil store. *)
Definition AppendThreadVotesPage (p : PackInstance) (tHash : SHA256)
  : option (PackInstance * option boo.error) :=
  match tVotesStore p with
  | None => None
  | Some st =>
  (* Check its existence in compiled store. Return if already exists. *)
  match Get st tHash with
  | Some _ => Some (p, None)
  | None =>
  (* Append ThreadVotesPage to ThreadVotesPages. *)
  match GetThreadVotesPages p with
  | Err e => Some (p, Some e)
  | Ok tvPages =>
  let vPage := {| Ref := tHash; pageVotes := [] |} in
  let tvPages1 := {| Threads := Threads tvPages ++ [vPage] |} in
  (* Save to pack. *)
  match SetRefByIndex (pack p) indexThreadVotes
          (IsThreadVotesPages tvPages1) with
  | (_, Some e) => Some (p, Some e)
  | (pack1, None) =>
  (* Save to compiled store. *)
  let st1 := Set_ st tHash
               {| Index := length (Threads tvPages1) - 1;
                  OfContent := tHash;
                  Hash := hashPage vPage;
                  Votes := ∅ |} in
  Some (withTVotesStore (withPack p pack1) (Some st1), None)
  end end end end.

Definition AppendPostVotesPage (p : PackInstance) (pHash : SHA256)
  : option (PackInstance * option boo.error) :=
  match pVotesStore p with
  | None => None
  | Some st =>
  (* Check its existence in compiled store. Return if already exists. *)
  match Get st pHash with
  | Some _ => Some (p, None)
  | None =>
  (* Append PostVotesPage to PostVotesPages. *)
  match GetPostVotesPages p with
  | Err e => Some (p, Some e)
  | Ok pvPages =>
  let vPage := {| Ref := pHash; pageVotes := [] |} in
  let pvPages1 := {| Posts := Posts pvPages ++ [vPage] |} in
  (* Save to pack. *)
  match SetRefByIndex (pack p) indexPostVotes
          (IsPostVotesPages pvPages1) with
  | (_, Some e) => Some (p, Some e)
  | (pack1, None) =>
  (* Save to compiled store. *)
  let st1 := Set_ st pHash
               {| Index := length (Posts pvPages1) - 1;
                  OfContent := pHash;
                  Hash := hashPage vPage;
                  Votes := ∅ |} in
  Some (withPVotesStore (withPack p pack1) (Some st1), None)
  end end end end.

End Builders.

End v1.

(** ** Compiler shutdown (package state, compiler.go)

    [NewCompiler] starts [updateLoop] in a goroutine of its own; [Close] runs
    on the caller's goroutine.  The two are interleaved by the scheduler:
    the state holds one program point per goroutine, the counter of the
    wait group, and what has been observed so far.  [quit] is an unbuffered
    channel, so a send goes through only while the receiver is parked in
    its [select]; a [select] with a [default] case takes [default] when no
    communication can proceed. *)

Module compiler.

(** Program points of [updateLoop]. *)
Inductive LoopPoint :=
| LoopSpawned    (* [go compiler.updateLoop()] done, body not entered *)
| LoopSelect     (* after [c.wg.Add(1)] and [NewTicker]: parked in [select] *)
| LoopUpdating   (* [case <-ticker.C]: inside [c.doUpdate()] *)
| LoopQuit       (* [case <-c.quit]: returning, deferred calls pending *)
| LoopExited.    (* [ticker.Stop()] and [c.wg.Done()] have run *)

(** Program points of [Close]. *)
Inductive ClosePoint :=
| CloseNotCalled
| CloseSelect    (* at the [select] of the [for] loop *)
| CloseWait      (* [default]: inside [c.wg.Wait()] *)
| CloseReturned.

#[global] Instance LoopPoint_eq_dec : EqDecision LoopPoint.
Proof. solve_decision. Defined.
#[global] Instance ClosePoint_eq_dec : EqDecision ClosePoint.
Proof. solve_decision. Defined.

Record State := {
  loop : LoopPoint;
  close : ClosePoint;
  wg : nat;
  (* number of [doUpdate] calls started after [Close] returned *)
  lateUpdates : nat;
}.

(** The state in which [NewCompiler] returns. *)
Definition NewCompiler : State :=
  {| loop := LoopSpawned; close := CloseNotCalled; wg := 0;
     lateUpdates := 0 |}.

Inductive Event :=
| LoopEnter      (* updateLoop: [c.wg.Add(1)], ticker created *)
| Tick           (* updateLoop: [<-ticker.C] chosen, [doUpdate] starts *)
| UpdateDone     (* updateLoop: [doUpdate] returns, back to [select] *)
| SendQuit       (* Close sends on [quit], updateLoop receives *)
| LoopExit       (* updateLoop: deferred [ticker.Stop()], [c.wg.Done()] *)
| CloseCall      (* the caller enters [Close] *)
| CloseDefault   (* Close: no receiver ready, [default] taken *)
| CloseWaitOver. (* Close: [c.wg.Wait()] returns, [Close] returns *)

Definition step (e : Event) (s : State) : option State :=
  match e with
  | LoopEnter =>
      if decide (loop s = LoopSpawned)
      then Some {| loop := LoopSelect; close := close s; wg := S (wg s);
                   lateUpdates := lateUpdates s |}
      else None
  | Tick =>
      if decide (loop s = LoopSelect)
      then Some {| loop := LoopUpdating; close := close s; wg := wg s;
                   lateUpdates :=
                     if decide (close s = CloseReturned)
                     then S (lateUpdates s) else lateUpdates s |}
      else None
  | UpdateDone =>
      if decide (loop s = LoopUpdating)
      then Some {| loop := LoopSelect; close := close s; wg := wg s;
                   lateUpdates := lateUpdates s |}
      else None
  | SendQuit =>
      if decide (loop s = LoopSelect ∧ close s = CloseSelect)
      then Some {| loop := LoopQuit; close := CloseSelect; wg := wg s;
                   lateUpdates := lateUpdates s |}
      else None
  | LoopExit =>
      if decide (loop s = LoopQuit)
      then Some {| loop := LoopExited; close := close s; wg := pred (wg s);
                   lateUpdates := lateUpdates s |}
      else None
  | CloseCall =>
      if decide (close s = CloseNotCalled)
      then Some {| loop := loop s; close := CloseSelect; wg := wg s;
                   lateUpdates := lateUpdates s |}
      else None
  | CloseDefault =>
      if decide (close s = CloseSelect ∧ loop s ≠ LoopSelect)
      then Some {| loop := loop s; close := CloseWait; wg := wg s;
                   lateUpdates := lateUpdates s |}
      else None
  | CloseWaitOver =>
      if decide (close s = CloseWait ∧ wg s = 0)
      then Some {| loop := loop s; close := CloseReturned; wg := wg s;
                   lateUpdates := lateUpdates s |}
      else None
  end.

(** A schedule is the list of events in the order they happen. *)
Fixpoint run (es : list Event) (s : State) : option State :=
  match es with
  | [] => Some s
  | e :: rest =>
      match step e s with
      | Some s1 => run rest s1
      | None => None
      end
  end.

Definition reachable (s : State) : Prop :=
  ∃ es, run es NewCompiler = Some s.

(** The loop has been counted by the wait group: the counter is one while
    it runs and zero once it has exited, [Close] has returned only if the
    loop has exited, and no update has run after [Close] returned. *)
Definition loopCounted (s : State) : Prop :=
  match loop s with
  | LoopSpawned => False
  | LoopExited => wg s = 0
  | _ => wg s = 1
  end
  ∧ (close s = CloseReturned → loop s = LoopExited)
  ∧ lateUpdates s = 0.

End compiler.

(** ** Compiler board map (package state, compiler.go)

    [InitBoard], [GetBoard] and [doUpdate] work on the map from board
    public keys to board instances, under the compiler's mutex.  The board
    instance and the node are not among the source files: they are the
    parameters of this section. *)

Module boards.

Section Boards.
(** [node.Node] (with its container), [skyobject.Root], [cipher.SecKey],
    [views.Adder] and [BoardInstance]. *)
Variables Node Root SecKey Adder BoardInstance : Type.

Record BoardInstanceConfig := {
  Master : bool;
  PK : keys.PubKey;
  SK : option SecKey;
}.

(** [c.node.Container().LastFull(pk)]. *)
Variable LastFull : Node → keys.PubKey → result Root.
Variable NewBoardInstance :
  BoardInstanceConfig → Node → Root → list Adder → result BoardInstance.
(** [bi.c.Master], [bi.UpdateNeeded()] and [bi.Update(c.node, nil)]; the
    update works in place on the instance and on the node. *)
Variable isMaster : BoardInstance → bool.
Variable UpdateNeeded : Node → BoardInstance → bool.
Variable Update :
  Node → BoardInstance → Node * BoardInstance * option boo.error.

Record Compiler := {
  node : Node;
  boards : gmap keys.PubKey BoardInstance;
  adders : list Adder;
}.

Definition withBoards (cp : Compiler) (m : gmap keys.PubKey BoardInstance)
  : Compiler :=
  {| node := node cp; boards := m; adders := adders cp |}.

Definition InitBoard (cp : Compiler) (pk : keys.PubKey) (sk : list SecKey)
  : Compiler * option boo.error :=
  match LastFull (node cp) pk with
  | Err e => (cp, Some e)
  | Ok root =>
      match sk with
      | [] =>
          match NewBoardInstance {| Master := false; PK := pk; SK := None |}
                  (node cp) root (adders cp) with
          | Err e => (cp, Some e)
          | Ok bi => (withBoards cp (<[pk := bi]> (boards cp)), None)
          end
      | [sk0] =>
          match NewBoardInstance {| Master := true; PK := pk; SK := Some sk0 |}
                  (node cp) root (adders cp) with
          | Err e => (cp, Some e)
          | Ok bi => (withBoards cp (<[pk := bi]> (boards cp)), None)
          end
      | _ =>
          (cp, Some (boo.New boo.Internal "invalid secret key count provided"))
      end
  end.

Definition GetBoard (cp : Compiler) (pk : keys.PubKey) : result BoardInstance :=
  match boards cp !! pk with
  | Some bi => Ok bi
  | None =>
      Err (boo.New boo.NotFound
             ("board of public key '" +:+ keys.Hex pk
              +:+ "' is not found in compiler"))
  end.

(** The body of the [range] loop of [doUpdate] for the instance under [k];
    an error of [bi.Update] is logged and dropped. *)
Definition updateBoard (cp : Compiler) (k : keys.PubKey) : Compiler :=
  match boards cp !! k with
  | None => cp
  | Some bi =>
      if isMaster bi && UpdateNeeded (node cp) bi then
        match Update (node cp) bi with
        | (n1, bi1, _) =>
            {| node := n1; boards := <[k := bi1]> (boards cp);
               adders := adders cp |}
        end
      else cp
  end.

(** [doUpdate]: Go ranges over the map in an unspecified order; [order] is
    the order of one run. *)
Definition doUpdate (order : list keys.PubKey) (cp : Compiler) : Compiler :=
  foldl updateBoard cp order.

End Boards.

Arguments node {Node Adder BoardInstance} _.
Arguments boards {Node Adder BoardInstance} _.
Arguments adders {Node Adder BoardInstance} _.
Arguments withBoards {Node Adder BoardInstance} cp m.
Arguments InitBoard {Node Root SecKey Adder BoardInstance}
  LastFull NewBoardInstance cp pk sk.
Arguments GetBoard {Node Adder BoardInstance} cp pk.
Arguments updateBoard {Node Adder BoardInstance}
  isMaster UpdateNeeded Update cp k.
Arguments doUpdate {Node Adder BoardInstance}
  isMaster UpdateNeeded Update order cp.

End boards.

(** ** Key strings (package cxo, repreq.go)

    [GetPubKey] on the bytes that [encoding/hex] produces.  A byte is a
    number below 256. *)

Module cxo.

(** [encoding/hex]: the value of one hex digit. *)
Definition fromHexChar (a : ascii) : option N :=
  let n := N_of_ascii a in
  if ((48 <=? n) && (n <=? 57))%N then Some (n - 48)%N
  else if ((97 <=? n) && (n <=? 102))%N then Some (n - 97 + 10)%N
  else if ((65 <=? n) && (n <=? 70))%N then Some (n - 65 + 10)%N
  else None.

(** [hex.DecodeString]: an error ([None]) on an odd length or on a
    character that is no hex digit. *)
Fixpoint DecodeString (s : string) : option (list N) :=
  match s with
  | EmptyString => Some []
  | String a (String b rest) =>
      match fromHexChar a, fromHexChar b with
      | Some x, Some y => cons (16 * x + y)%N <$> DecodeString rest
      | _, _ => None
      end
  | String _ EmptyString => None
  end.

Definition hexDigit (x : N) : ascii :=
  if (x <? 10)%N then ascii_of_N (48 + x) else ascii_of_N (97 + x - 10).

(** [hex.EncodeToString], which [PubKey.Hex] applies to the key bytes. *)
Fixpoint EncodeToString (bs : list N) : string :=
  match bs with
  | [] => EmptyString
  | b :: rest =>
      String (hexDigit (b / 16)) (String (hexDigit (b mod 16))
                                    (EncodeToString rest))
  end.

(** [len(cipher.PubKey{})]. *)
Definition pubKeyLen : nat := 33.

(** [cipher.NewPubKey] panics ([None]) unless it is given 33 bytes. *)
Definition NewPubKey (b : list N) : option (list N) :=
  if decide (length b = pubKeyLen) then Some b else None.

Inductive keyResult :=
| Key (k : list N)
| Invalid
| Panics.

(** [GetPubKey]: [Invalid] is the error "invalid public key" next to the
    zero key. *)
Definition GetPubKey (s : string) : keyResult :=
  match DecodeString s with
  | None => Invalid
  | Some b =>
      if decide (length b ≠ pubKeyLen) then Invalid
      else match NewPubKey b with
           | Some k => Key k
           | None => Panics
           end
  end.

(** [RepReq.Prepare]: the request object of a reply. *)
Record ReqObj (E M : Type) := {
  Okay : bool;
  Error : option E;
  Message : option M;
}.

Definition Prepare {E M : Type} (e : option E) (s : M) : ReqObj E M :=
  match e with
  | None => {| Okay := true; Error := None; Message := Some s |}
  | Some err => {| Okay := false; Error := Some err; Message := None |}
  end.

End cxo.

(** ** Sample snapshots *)

Module samples.
Import object state.

(** A key made of one hex digit repeated. *)
Fixpoint rep (n : nat) (a : ascii) : string :=
  match n with
  | O => EmptyString
  | S n' => String a (rep n' a)
  end.

Definition hash (a : ascii) : string := rep 64 a.
Definition pubKey (a : ascii) : string := rep 66 a.

Definition PK1 : string := pubKey "1".
Definition U1 : string := pubKey "a".
Definition U2 : string := pubKey "b".
Definition B1 : string := hash "b".
Definition T1 : string := hash "1".
Definition P1 : string := hash "2".
Definition R1 : string := hash "3".

Definition mkBody (t : ContentType) (creator : string) : Body :=
  {| Type_ := t; Name := ""; Creator := creator; OfBoard := PK1;
     OfThread := ""; OfPost := ""; OfUser := ""; Value := 0; Tags := [] |}.

Definition boardC : Content :=
  {| Header := {| Hash := B1 |}; Body_ := mkBody V5BoardType U1 |}.

Definition threadC : Content :=
  {| Header := {| Hash := T1 |}; Body_ := mkBody V5ThreadType U1 |}.

(** A post of thread [T1], and a reply to it in the same thread. *)
Definition postC : Content :=
  {| Header := {| Hash := P1 |};
     Body_ := {| Type_ := V5PostType; Name := ""; Creator := U2;
                 OfBoard := PK1; OfThread := T1; OfPost := "";
                 OfUser := ""; Value := 0; Tags := [] |} |}.

Definition replyC : Content :=
  {| Header := {| Hash := R1 |};
     Body_ := {| Type_ := V5PostType; Name := ""; Creator := U1;
                 OfBoard := PK1; OfThread := T1; OfPost := P1;
                 OfUser := ""; Value := 0; Tags := [] |} |}.

Definition userVote (creator ofUser : string) (value : Z)
    (tags : list string) : Content :=
  {| Header := {| Hash := hash "9" |};
     Body_ := {| Type_ := V5UserVoteType; Name := ""; Creator := creator;
                 OfBoard := PK1; OfThread := ""; OfPost := "";
                 OfUser := ofUser; Value := value; Tags := tags |} |}.

Definition threadVote (creator target : string) (value : Z) : Content :=
  {| Header := {| Hash := hash "8" |};
     Body_ := {| Type_ := V5ThreadVoteType; Name := ""; Creator := creator;
                 OfBoard := PK1; OfThread := target; OfPost := "";
                 OfUser := ""; Value := value; Tags := [] |} |}.

(** Board [PK1] with thread [T1], post [P1] and its reply [R1]. *)
Definition boardPage1 : BoardPage :=
  {| GetBoardContent := Ok boardC;
     ThreadPages := [ {| GetThread := Ok threadC;
                         Posts := [postC; replyC] |} ] |}.

Definition pack1 : Pack :=
  {| Pub := PK1;
     packBoardPage := Ok boardPage1;
     packUsersPage := Ok {| UserProfiles := [] |} |}.

Definition emptyViewer : Viewer :=
  {| pk := PK1; i := NewIndexer; c := NewContainer |}.

Definition viewer1 : Viewer :=
  match NewViewer pack1 with
  | Ok v => v
  | Err _ => emptyViewer
  end.

(** Snapshot-instance side: thread-vote pages hold one page for [T1],
    post-vote pages are empty. *)
Definition hashPage0 (p : v1.ContentVotesPage) : keys.SHA256 := v1.Ref p.
Definition hashChild0 (x : v1.RootChild) : keys.SHA256 := keys.zeroHash.

Definition votePage (h : string) : v1.ContentVotesPage :=
  {| v1.Ref := h; v1.pageVotes := [] |}.

Definition snapshot1 : v1.Pack :=
  {| v1.Pub := PK1;
     v1.Refs :=
       [ (hash "c", v1.IsThreadPages {| v1.tpThreadPages := [] |});
         (hash "d", v1.IsDeleted {| v1.dThreads := []; v1.dPosts := [] |});
         (hash "e", v1.IsThreadVotesPages {| v1.Threads := [votePage T1] |});
         (hash "f", v1.IsPostVotesPages {| v1.Posts := [] |});
         (hash "0", v1.IsUserVotesPages {| v1.Users := [] |}) ];
     v1.unreadable := None |}.

Definition noInstance : v1.PackInstance :=
  v1.mkPackInstance None snapshot1 (v1.NewChanges PK1 false) None None None
    None v1.NewFollowPageStore.

(** The instance built from [snapshot1] without a predecessor. *)
Definition instance1 : v1.PackInstance :=
  match v1.NewPackInstance hashPage0 None snapshot1 with
  | Ok p => p
  | Err _ => noInstance
  end.

(** A compiler over a node that knows one board, [PK1]; a board instance
    is its configuration. *)
Definition toyLastFull (n : unit) (k : keys.PubKey) : result unit :=
  if decide (k = PK1) then Ok tt
  else Err (boo.New boo.NotFound "no root for this key").

Definition toyNewBoardInstance (cfg : boards.BoardInstanceConfig nat)
    (n : unit) (r : unit) (a : list unit)
  : result (boards.BoardInstanceConfig nat) := Ok cfg.

Definition toyCompiler
  : boards.Compiler unit unit (boards.BoardInstanceConfig nat) :=
  {| boards.node := tt; boards.boards := ∅; boards.adders := [] |}.

(** [pack1] with one submission: [U2] trusts [U1]. *)
Definition usersPage2 : UsersPage :=
  {| UserProfiles :=
       [ {| Submissions := [userVote U2 U1 1 [TrustTag]] |} ] |}.

Definition pack2 : Pack :=
  {| Pub := PK1; packBoardPage := Ok boardPage1;
     packUsersPage := Ok usersPage2 |}.

Definition viewer2 : Viewer :=
  match NewViewer pack2 with
  | Ok v => v
  | Err _ => emptyViewer
  end.



(** [instance1] with the stores a consistent instance would have: the
    thread store built from the thread vote pages, the post store from
    the post vote pages. *)
Definition storeOf (name : string) (pages : list v1.ContentVotesPage)
  : option v1.ContentVotesStore :=
  match v1.NewContentVotesStore hashPage0 None name keys.zeroHash pages
          (v1.NewChanges PK1 false) with
  | Ok s => Some s
  | Err _ => None
  end.

Definition instance2 : v1.PackInstance :=
  v1.withPVotesStore
    (v1.withTVotesStore instance1 (storeOf v1.nameThread [votePage T1]))
    (storeOf v1.namePost []).

(** The first page of the board, seen by [U1], and the viewer after the
    query. *)
Definition boardQuery1 : BoardPageIn :=
  {| bpPerspective := U1;
     bpPaginatedInput := {| paginated.StartIndex := 0;
                            paginated.PageSize := 5 |} |}.

Definition paged1 : Viewer :=
  match fst (GetBoardPage (Some viewer1) boardQuery1) with
  | Some v => v
  | None => viewer1
  end.

(** [Close] called while the first update runs: the state after
    [updateLoop] has entered, a tick has started [doUpdate], and [Close]
    has taken its [default] branch. *)
Definition closedDuringUpdate : compiler.State :=
  {| compiler.loop := compiler.LoopUpdating;
     compiler.close := compiler.CloseWait;
     compiler.wg := 1; compiler.lateUpdates := 0 |}.

(** A key string of 66 hex digits in both cases, and its 33 bytes:
    sixteen [0xaa], one [0xab], sixteen [0xbb]. *)
Definition keyString : string := rep 33 "A" +:+ rep 33 "b".
Definition keyBytes : list N :=
  replicate 16 170%N ++ [171%N] ++ replicate 16 187%N.

End samples.

(** ** Notions used to state the properties *)

Module props.
Import object state.

(** The viewer after two user-votes processed in order. *)
Definition afterTwoUserVotes (v : Viewer) (ct1 ct2 : Content) : Viewer :=
  let v1 := fst (processUserVote v ct1 (GetBody ct1) (GetHeader ct1)) in
  fst (processUserVote v1 ct2 (GetBody ct2) (GetHeader ct2)).

Definition profileOf (v : Viewer) (upk : string) : Profile :=
  default NewProfile (profiles (c v) !! upk).

(** How many of the three directional relations (trust, spam mark, block)
    [creator] holds on [target]. *)
Definition effectCount (v : Viewer) (creator target : string) : nat :=
  length (filter (λ x : bool, x = true)
            [ bool_decide (target ∈ Trusted (profileOf v creator));
              bool_decide (target ∈ MarkedAsSpam (profileOf v creator));
              bool_decide (target ∈ Blocked (profileOf v creator)) ]).

(** Every key of the user index has a profile record. *)
Definition usersHaveProfiles (v : Viewer) : Prop :=
  ∀ k, k ∈ paginated.keysOf (Users (i v)) → is_Some (profiles (c v) !! k).

(** Operations that touch neither the user index nor the profiles. *)
Definition sameUsers (v v' : Viewer) : Prop :=
  Users (i v') = Users (i v) ∧ profiles (c v') = profiles (c v).

(** The viewer states a caller can hold: the result of a successful
    [NewViewer], then whatever [Update] leaves behind (with or without an
    error) and whatever [GetThreadPage] writes into the representations. *)
Inductive reachable : Viewer → Prop :=
| reach_NewViewer (pack : Pack) (v : Viewer) :
    NewViewer pack = Ok v → reachable v
| reach_Update (v v' : Viewer) (pack : Pack) (hs : Headers)
    (e : option boo.error) :
    reachable v → Update (Some v) pack hs = (Some v', e) → reachable v'
| reach_GetThreadPage (v v' : Viewer) (q : ThreadPageIn)
    (r : outcome ThreadPageOut) :
    reachable v → GetThreadPage (Some v) q = (Some v', r) → reachable v'.

(** A content whose hash, as written in its header and as the key the
    viewer derives from it, differs from [bh]. *)
Definition freshFor (bh : string) (x : Content) : Prop :=
  Hash (GetHeader x) ≠ bh ∧ keys.Hex (GetHash (GetHeader x)) ≠ bh.

(** The thread (when it can be read) and the posts of a thread page. *)
Definition pageContents (tp : ThreadPage) : list Content :=
  match GetThread tp with
  | Ok thread => thread :: Posts tp
  | Err _ => Posts tp
  end.

(** Content addressing: the board's hash is the hash of no thread and of
    no post of the snapshot. *)
Definition boardHashFresh (bp : BoardPage) (board : Content) : Prop :=
  Forall (λ tp, Forall (freshFor (Hash (GetHeader board))) (pageContents tp))
    (ThreadPages bp).

(** The board entry is in place under [bh], and no other entry carries
    the hash [bh] in its header. *)
Definition boardInPlace (bh : string) (brep : ContentRep) (v : Viewer) : Prop :=
  Board (i v) = bh
  ∧ content (c v) !! bh = Some brep
  ∧ ∀ k r, content (c v) !! k = Some r → k ≠ bh → Hash (RepHeader r) ≠ bh.

(** Operations that leave the board key and the content map alone. *)
Definition sameContent (v v' : Viewer) : Prop :=
  Board (i v') = Board (i v) ∧ content (c v') = content (c v).

(** The representation stored under [h] as a page query returns it: with
    the vote view of [h] written into it when [h] has votes. *)
Definition annotated (v : Viewer) (perspective h : string)
  : option ContentRep :=
  match content (c v) !! h, votes (c v) !! h with
  | Some rep, Some vr => Some (setVotes rep (View vr perspective))
  | r, _ => r
  end.

(** The board pointer of a thread page: it sees the vote view only when the
    board key is one of the keys the query wrote to. *)
Definition boardView (v : Viewer) (perspective : string)
    (written : list string) : option ContentRep :=
  if decide (Board (i v) ∈ written)
  then annotated v perspective (Board (i v))
  else content (c v) !! Board (i v).

(** What the indexer and the container hold for the hash [h]: its
    representation, its vote aggregate, its post list, and whether it is
    in the thread index. *)
Definition entriesOf (v : Viewer) (h : string)
  : option ContentRep * option VotesRep * option paginated.Paginated * bool :=
  (content (c v) !! h, votes (c v) !! h, PostsOfThread (i v) !! h,
   paginated.Has (Threads (i v)) h).

(** The keys under which dispatching one new content item may write. *)
Definition touchedBy (ct : Content) : list string :=
  let b := GetBody ct in
  match Type_ b with
  | V5ThreadType => [keys.Hex (GetHash (GetHeader ct))]
  | V5PostType =>
      [Hash (GetHeader ct); keys.Hex (fst (GetOfThread b));
       keys.Hex (fst (GetOfPost b))]
  | V5ThreadVoteType => [OfThread b]
  | V5PostVoteType => [OfPost b]
  | _ => []
  end.

(** The keys under which [Update] may write: the previous and the new
    board key, and the keys touched by the new items. *)
Definition writtenByUpdate (v : Viewer) (pack : Pack) (new : list Content)
  : list string :=
  Board (i v)
  :: match packBoardPage pack with
     | Ok bp =>
         match GetBoardContent bp with
         | Ok board => [Hash (GetHeader board)]
         | Err _ => []
         end
     | Err _ => []
     end
  ++ (new ≫= touchedBy).

(** The viewer that [NewViewer] starts from. *)
Definition freshViewer (k : keys.PubKey) : Viewer :=
  {| pk := k; i := NewIndexer; c := NewContainer |}.

(** One elementary write of the indexing code.  Apart from [setBoard],
    bootstrap, update and the page queries are sequences of these. *)
Inductive prim : Viewer → Viewer → Prop :=
| prim_ensureUser (v : Viewer) (u : string) : prim v (ensureUser v u)
| prim_addThread (v : Viewer) (tc : Content) (b : Body)
    (h : ContentHeaderData) : prim v (fst (addThread v tc b h))
| prim_addPost (v : Viewer) (t : keys.SHA256) (pc : Content) (b : Body)
    (h : ContentHeaderData) : prim v (fst (addPost v t pc b h))
| prim_addVote (v : Viewer) (ct : Content) (ty : ContentType) (h : string) :
    prim v (fst (addVote v ct ty h))
| prim_processUserVote (v : Viewer) (ct : Content) (b : Body)
    (h : ContentHeaderData) : prim v (fst (processUserVote v ct b h))
| prim_annotate (v v' : Viewer) (p h : string) :
    annotate v p h = Some v' → prim v v'.

Definition steps : Viewer → Viewer → Prop := rtc prim.

(** Nothing that is indexed goes away: the board key and the public key
    stay, and every key of the thread index, of the user index, of the post
    lists, of the representations, of the vote aggregates and of the
    profiles is still there. *)
Definition grows (v v' : Viewer) : Prop :=
  pk v' = pk v ∧ Board (i v') = Board (i v)
  ∧ (∀ h, h ∈ paginated.keysOf (Threads (i v)) →
          h ∈ paginated.keysOf (Threads (i v')))
  ∧ (∀ u, u ∈ paginated.keysOf (Users (i v)) →
          u ∈ paginated.keysOf (Users (i v')))
  ∧ (∀ h, is_Some (PostsOfThread (i v) !! h) →
          is_Some (PostsOfThread (i v') !! h))
  ∧ (∀ h, is_Some (content (c v) !! h) → is_Some (content (c v') !! h))
  ∧ (∀ h, is_Some (votes (c v) !! h) → is_Some (votes (c v') !! h))
  ∧ (∀ u, is_Some (profiles (c v) !! u) → is_Some (profiles (c v') !! u)).

(** The outgoing and the incoming relation sets mirror each other. *)
Definition mirrored (v : Viewer) : Prop :=
  ∀ x y,
    (y ∈ Trusted (profileOf v x) ↔ x ∈ TrustedBy (profileOf v y))
    ∧ (y ∈ MarkedAsSpam (profileOf v x) ↔ x ∈ MarkedAsSpamBy (profileOf v y))
    ∧ (y ∈ Blocked (profileOf v x) ↔ x ∈ BlockedBy (profileOf v y)).

(** The contents of a snapshot in the order bootstrap walks them: each
    thread followed by its posts, then the submissions of each user. *)
Definition newOf (bp : BoardPage) (up : UsersPage) : list Content :=
  (ThreadPages bp ≫= pageContents) ++ (UserProfiles up ≫= Submissions).

Definition isVoteType (t : ContentType) : Prop :=
  t = V5ThreadVoteType ∨ t = V5PostVoteType ∨ t = V5UserVoteType.

(** Every content carries the type tag of the place it is stored at. *)
Definition wellTyped (bp : BoardPage) (up : UsersPage) : Prop :=
  Forall (λ tp,
            (∀ t, GetThread tp = Ok t → Type_ (GetBody t) = V5ThreadType)
            ∧ Forall (λ p, Type_ (GetBody p) = V5PostType) (Posts tp))
    (ThreadPages bp)
  ∧ Forall (λ uap, Forall (λ s, isVoteType (Type_ (GetBody s)))
                     (Submissions uap))
      (UserProfiles up).

(** A snapshot with the same board and nothing else. *)
Definition boardOnly (pack : Pack) : Pack :=
  {| Pub := Pub pack;
     packBoardPage :=
       match packBoardPage pack with
       | Ok bp => Ok {| GetBoardContent := GetBoardContent bp;
                        ThreadPages := [] |}
       | Err e => Err e
       end;
     packUsersPage := Ok {| UserProfiles := [] |} |}.

(** What bootstrap checks on a thread page: the thread can be read and
    names the board; each post names the board and the thread. *)
Definition refsMatch (bpk : keys.PubKey) (tp : ThreadPage) : Prop :=
  ∃ thread,
    GetThread tp = Ok thread
    ∧ GetOfBoard (GetBody thread) = (bpk, None)
    ∧ Forall (λ post,
                GetOfBoard (GetBody post) = (bpk, None)
                ∧ GetOfThread (GetBody post)
                  = (GetHash (GetHeader thread), None))
        (Posts tp).

(** A representation without its vote view. *)
Definition stripVotes (r : ContentRep) : ContentRep :=
  {| PubKey := PubKey r; RepHeader := RepHeader r; RepBody := RepBody r;
     Votes := None |}.

(** [Close] sits in [c.wg.Wait()] while the counted loop has not been told
    to quit. *)
Definition closeStuck (s : compiler.State) : Prop :=
  compiler.close s = compiler.CloseWait
  ∧ compiler.wg s = 1
  ∧ (compiler.loop s = compiler.LoopSelect
     ∨ compiler.loop s = compiler.LoopUpdating).

End props.

(** * Properties *)

Import object state.

(** ** Queries *)

(** C6. [GetVotes] on content hash [h]: the vote view of [h] when votes for
    [h] exist; the empty view with [Ref = h] when [h] has no votes but is
    in the container; a [NotFound] error when [h] is in neither map. *)
Theorem GetVotes_three_cases (v : Viewer) (p h : string) :
  let q := {| cvPerspective := p; ContentHash := h |} in
  (∀ vr, votes (c v) !! h = Some vr →
         GetVotes (Some v) q = Ok {| outVotes := View vr p |})
  ∧ (votes (c v) !! h = None → is_Some (content (c v) !! h) →
     GetVotes (Some v) q
     = Ok {| outVotes := {| Ref := h; UpCount := 0; DownCount := 0;
                            Voted := 0 |} |})
  ∧ (votes (c v) !! h = None → content (c v) !! h = None →
     ∃ e, GetVotes (Some v) q = Err e ∧ boo.kind e = boo.NotFound).
Proof.
  cbn zeta. unfold GetVotes. cbn [ContentHash cvPerspective].
  split; [|split].
  - intros vr ->. reflexivity.
  - intros -> [r ->]. reflexivity.
  - intros -> ->. eexists. split; reflexivity.
Qed.

Lemma GetVotes_three_cases_witness :
  GetVotes (Some samples.viewer1)
    {| cvPerspective := samples.U1; ContentHash := samples.T1 |}
  = Ok {| outVotes := {| Ref := samples.T1; UpCount := 0; DownCount := 0;
                         Voted := 0 |} |}.
Proof.
  apply (proj1 (proj2 (GetVotes_three_cases samples.viewer1 samples.U1
                         samples.T1))).
  - vm_compute. reflexivity.
  - vm_compute. eexists. reflexivity.
Defined.

(** ** Vote processing on an unindexed target *)

Lemma ensureUser_content (v : Viewer) (u : string) :
  content (c (ensureUser v u)) = content (c v).
Proof. unfold ensureUser. cbn. destruct (profiles (c v) !! u); reflexivity. Qed.

Lemma addVote_unindexed (v : Viewer) (ct : Content) (t : ContentType)
    (h : string) :
  content (c v) !! h = None → addVote v ct t h = (v, None).
Proof. intros H. unfold addVote. rewrite H. reflexivity. Qed.

(** C7. Processing a thread-vote or post-vote whose target hash has no entry
    in the container returns no error and returns the viewer as it was.
    Both callers run this same function: the bootstrap callback and the
    update loop first ensure the vote's creator, then the vote itself
    contributes nothing and no error stops the walk. *)
Theorem processVote_unindexed_target (v : Viewer) (ct : Content) :
  let b := GetBody ct in
  let h := GetHeader ct in
  (Type_ b = V5ThreadVoteType ∧ content (c v) !! OfThread b = None)
  ∨ (Type_ b = V5PostVoteType ∧ content (c v) !! OfPost b = None) →
  processVote v ct b h = (v, None)
  ∧ rangeSubmissions v [ct] = (ensureUser v (Creator b), None)
  ∧ updateItem v ct = (ensureUser v (Creator b), None).
Proof.
  intros b h Hcase.
  assert (Hgen : ∀ w, content (c w) = content (c v) →
                      processVote w ct b h = (w, None)).
  { intros w Hw. unfold processVote.
    destruct Hcase as [[-> Hn] | [-> Hn]];
      apply addVote_unindexed; rewrite Hw; exact Hn. }
  split; [apply Hgen; reflexivity | split].
  - cbn [rangeSubmissions]. fold b h.
    rewrite (Hgen _ (ensureUser_content v (Creator b))). reflexivity.
  - unfold updateItem. fold b h.
    rewrite (Hgen _ (ensureUser_content v (Creator b))).
    destruct Hcase as [[-> _] | [-> _]]; reflexivity.
Qed.

Lemma processVote_unindexed_target_witness :
  let ct := samples.threadVote samples.U2 samples.R1 1 in
  processVote samples.emptyViewer ct (GetBody ct) (GetHeader ct)
  = (samples.emptyViewer, None).
Proof.
  intros ct.
  apply (proj1 (processVote_unindexed_target samples.emptyViewer ct
                  (or_introl (conj eq_refl eq_refl)))).
Defined.

(** ** Compiler shutdown *)

(** When [updateLoop] has done its [c.wg.Add(1)] before [Close] is called,
    [Close] returns only after the loop has exited. *)
Lemma loopCounted_step (e : compiler.Event) (s s' : compiler.State) :
  compiler.loopCounted s → compiler.step e s = Some s' →
  compiler.loopCounted s'.
Proof.
  unfold compiler.loopCounted.
  intros (Hwg & Hret & Hlate) Hstep.
  destruct s as [l cl n k]. cbn in *.
  destruct e; cbn in Hstep; case_decide; simplify_eq; cbn in *;
    repeat match goal with H : _ ∧ _ |- _ => destruct H end; subst;
    (split; [|split]); try done; try lia;
    try (destruct l; cbn in *; try done; lia);
    try (intros HH; specialize (Hret HH); congruence).
  all: try (case_decide; [|done]; subst; specialize (Hret eq_refl); done).
  all: try (intros _; destruct l; cbn in *; try done; lia).
Qed.

Lemma loopCounted_run (es : list compiler.Event) (s s' : compiler.State) :
  compiler.loopCounted s → compiler.run es s = Some s' → compiler.loopCounted s'.
Proof.
  revert s. induction es as [|e es IH]; intros s Hs Hrun; cbn in Hrun.
  - by simplify_eq.
  - destruct (compiler.step e s) as [s1|] eqn:E; [|done].
    eapply IH; [eapply loopCounted_step|]; eauto.
Qed.

(** C8. The schedule in which [Close] runs before the goroutine of
    [updateLoop] has entered its body: the send on [quit] finds no receiver,
    [default] is taken, [c.wg.Wait()] finds the counter at zero and [Close]
    returns; the loop then starts and a tick runs [doUpdate]. *)
Theorem Close_returns_while_loop_starts :
  ∃ s, compiler.run [compiler.CloseCall; compiler.CloseDefault;
                     compiler.CloseWaitOver; compiler.LoopEnter;
                     compiler.Tick] compiler.NewCompiler = Some s
       ∧ compiler.reachable s
       ∧ compiler.close s = compiler.CloseReturned
       ∧ compiler.loop s = compiler.LoopUpdating
       ∧ compiler.lateUpdates s = 1.
Proof.
  set (es := [compiler.CloseCall; compiler.CloseDefault;
              compiler.CloseWaitOver; compiler.LoopEnter; compiler.Tick]).
  exists {| compiler.loop := compiler.LoopUpdating;
            compiler.close := compiler.CloseReturned;
            compiler.wg := 1; compiler.lateUpdates := 1 |}.
  split; [reflexivity|].
  split; [exists es; reflexivity|].
  repeat split.
Qed.

(** Once [updateLoop] has entered its body before [Close] is called, every
    schedule in which [Close] returns has the loop exited, and no update
    runs afterwards. *)
Lemma Close_waits_for_counted_loop (es : list compiler.Event)
    (s : compiler.State) :
  compiler.run (compiler.LoopEnter :: es) compiler.NewCompiler = Some s →
  compiler.close s = compiler.CloseReturned →
  compiler.loop s = compiler.LoopExited ∧ compiler.lateUpdates s = 0.
Proof.
  cbn. intros Hrun Hret.
  eapply loopCounted_run in Hrun.
  - destruct Hrun as (_ & H1 & H2). auto.
  - repeat split; done.
Qed.

(** ** Snapshot instance *)

(** [extract] never writes [pVotesStore]. *)
Lemma NewPackInstance_pVotesStore_nil
    (hashPage : v1.ContentVotesPage → keys.SHA256)
    (old : option (v1.PackInstance)) (pk : v1.Pack) (inst : v1.PackInstance) :
  v1.NewPackInstance hashPage old pk = Ok inst → v1.pVotesStore inst = None.
Proof.
  unfold v1.NewPackInstance, v1.extract. cbn.
  intros H. repeat (case_match; simplify_eq; cbn in * ); done.
Qed.

(** C1. Whenever [NewPackInstance] succeeds, the field [pVotesStore] of the
    new instance is nil, and [tVotesStore] holds the store built from the
    post vote-page list (slot 3), not the one built from the thread
    vote-page list: [extract] assigns both results to [tVotesStore]. *)
Theorem extract_assigns_post_votes_to_tVotesStore
    (hashPage : v1.ContentVotesPage → keys.SHA256)
    (old : option (v1.PackInstance)) (pk : v1.Pack) (inst : v1.PackInstance) :
  v1.NewPackInstance hashPage old pk = Ok inst →
  v1.pVotesStore inst = None
  ∧ ∃ pvPages ch pvs,
      (snd <$> v1.Refs pk) !! v1.indexPostVotes
      = Some (v1.IsPostVotesPages pvPages)
      ∧ v1.NewContentVotesStore hashPage (old ≫= v1.pVotesStore) v1.namePost
          (v1.getRootChildHash pk v1.indexPostVotes) (v1.Posts pvPages) ch
        = Ok pvs
      ∧ v1.tVotesStore inst = Some pvs.
Proof.
  unfold v1.NewPackInstance, v1.extract, v1.extractRootChildren, v1.RootRefs.
  cbn [v1.pack v1.prev v1.changes v1.followStore v1.withGotStore
       v1.withChanges v1.withTVotesStore].
  intros H.
  repeat (case_match; simplify_eq; cbn in * ); try done.
  all: split; [reflexivity|].
  all: match goal with
       | |- ∃ _ _ _, _ ∧ v1.NewContentVotesStore _ _ _ _ _ _ = _ ∧ _ =>
           eexists _, (v1.NewChanges (v1.Pub pk) false), _
       end.
  all: repeat split; try eassumption; try reflexivity.
Qed.

Lemma extract_assigns_post_votes_to_tVotesStore_witness :
  v1.pVotesStore samples.instance1 = None.
Proof.
  apply (proj1 (extract_assigns_post_votes_to_tVotesStore samples.hashPage0
                  None samples.snapshot1 samples.instance1 eq_refl)).
Defined.

(** Every instance that [NewPackInstance] returns has a nil [pVotesStore],
    so [AppendPostVotesPage] dereferences nil on it. *)
Lemma AppendPostVotesPage_on_new_instance
    (hashPage : v1.ContentVotesPage → keys.SHA256)
    (hashChild : v1.RootChild → keys.SHA256)
    (old : option v1.PackInstance) (pk : v1.Pack) (inst : v1.PackInstance)
    (h : keys.SHA256) :
  v1.NewPackInstance hashPage old pk = Ok inst →
  v1.AppendPostVotesPage hashPage hashChild inst h = None.
Proof.
  intros H.
  apply NewPackInstance_pVotesStore_nil in H.
  unfold v1.AppendPostVotesPage. rewrite H. reflexivity.
Qed.

(** What the two append operations do by themselves: a call that succeeded
    leaves a store in which the hash is found, so the next call with the
    same hash returns at the existence check and changes nothing. *)
Lemma AppendThreadVotesPage_again
    (hashPage : v1.ContentVotesPage → keys.SHA256)
    (hashChild : v1.RootChild → keys.SHA256)
    (p p1 : v1.PackInstance) (h : keys.SHA256) :
  v1.AppendThreadVotesPage hashPage hashChild p h = Some (p1, None) →
  v1.AppendThreadVotesPage hashPage hashChild p1 h = Some (p1, None).
Proof.
  unfold v1.AppendThreadVotesPage at 1. intros H.
  repeat (case_match; simplify_eq); try done.
  - unfold v1.AppendThreadVotesPage.
    repeat (case_match; simplify_eq); done.
  - unfold v1.AppendThreadVotesPage. cbn.
    unfold v1.Get. cbn. rewrite lookup_insert_eq. reflexivity.
Qed.

Lemma AppendPostVotesPage_again
    (hashPage : v1.ContentVotesPage → keys.SHA256)
    (hashChild : v1.RootChild → keys.SHA256)
    (p p1 : v1.PackInstance) (h : keys.SHA256) :
  v1.AppendPostVotesPage hashPage hashChild p h = Some (p1, None) →
  v1.AppendPostVotesPage hashPage hashChild p1 h = Some (p1, None).
Proof.
  unfold v1.AppendPostVotesPage at 1. intros H.
  repeat (case_match; simplify_eq); try done.
  - unfold v1.AppendPostVotesPage.
    repeat (case_match; simplify_eq); done.
  - unfold v1.AppendPostVotesPage. cbn.
    unfold v1.Get. cbn. rewrite lookup_insert_eq. reflexivity.
Qed.

(** C3. On the instance built from a snapshot whose thread vote-page list
    already holds a page for [T1] (and whose post vote-page list is empty):
    [AppendThreadVotesPage T1] looks [T1] up in the store that [extract]
    left in [tVotesStore], which was built from the post pages, does not
    find it and appends a second page for [T1]; the second call is a no-op,
    and the root ends with two pages for [T1].  [AppendPostVotesPage T1]
    dereferences the nil [pVotesStore]. *)
Theorem AppendVotesPage_after_extract :
  let append := v1.AppendThreadVotesPage samples.hashPage0 samples.hashChild0 in
  v1.NewPackInstance samples.hashPage0 None samples.snapshot1
  = Ok samples.instance1
  ∧ v1.GetThreadVotesPages samples.instance1
    = Ok {| v1.Threads := [samples.votePage samples.T1] |}
  ∧ ∃ inst1,
      append samples.instance1 samples.T1 = Some (inst1, None)
      ∧ append inst1 samples.T1 = Some (inst1, None)
      ∧ v1.GetThreadVotesPages inst1
        = Ok {| v1.Threads := [samples.votePage samples.T1;
                               samples.votePage samples.T1] |}
      ∧ v1.AppendPostVotesPage samples.hashPage0 samples.hashChild0
          samples.instance1 samples.T1 = None.
Proof.
  cbn zeta. split; [reflexivity|]. split; [reflexivity|].
  destruct (v1.AppendThreadVotesPage samples.hashPage0 samples.hashChild0
              samples.instance1 samples.T1) as [[inst1 [e|]]|] eqn:E;
    try (vm_compute in E; discriminate).
  exists inst1. split; [reflexivity|].
  split; [eapply AppendThreadVotesPage_again; exact E|].
  split; [|reflexivity].
  vm_compute in E. injection E as <-. reflexivity.
Qed.

(** ** User votes: the latest vote wins *)

Lemma GetProfile_lookup (d : Container) (k j : string) :
  profiles (GetProfile d k) !! j
  = if decide (k = j) then Some (default NewProfile (profiles d !! j))
    else profiles d !! j.
Proof.
  unfold GetProfile. destruct (profiles d !! k) eqn:E; cbn.
  - case_decide; subst; [rewrite E|]; done.
  - rewrite lookup_insert. case_decide; subst; [rewrite E|]; done.
Qed.

Lemma onProfile_lookup (d : Container) (f : Profile → Profile) (k j : string) :
  profiles (onProfile k f d) !! j
  = if decide (k = j) then f <$> profiles d !! j else profiles d !! j.
Proof. unfold onProfile. cbn. rewrite lookup_alter. case_decide; subst; done. Qed.

(** One user-vote, on any viewer: afterwards both profiles exist and the
    relations of the pair are those of this vote alone. *)
Lemma processUserVote_effects (w : Viewer) (ct : Content) (b : Body)
    (h : ContentHeaderData) :
  let v2 := fst (processUserVote w ct b h) in
  ∃ pc pt,
    profiles (c v2) !! Creator b = Some pc
    ∧ profiles (c v2) !! OfUser b = Some pt
    ∧ (OfUser b ∈ Trusted pc ↔ Value b = 1%Z ∧ HasTag b TrustTag = true)
    ∧ (Creator b ∈ TrustedBy pt ↔ Value b = 1%Z ∧ HasTag b TrustTag = true)
    ∧ (OfUser b ∈ MarkedAsSpam pc
       ↔ Value b = (-1)%Z ∧ HasTag b SpamTag = true)
    ∧ (Creator b ∈ MarkedAsSpamBy pt
       ↔ Value b = (-1)%Z ∧ HasTag b SpamTag = true)
    ∧ (OfUser b ∈ Blocked pc ↔ Value b = (-1)%Z ∧ HasTag b BlockTag = true)
    ∧ (Creator b ∈ BlockedBy pt
       ↔ Value b = (-1)%Z ∧ HasTag b BlockTag = true).
Proof.
  cbn zeta. unfold processUserVote. cbn [fst].
  set (cr := Creator b). set (tg := OfUser b).
  destruct (HasTag b TrustTag), (HasTag b SpamTag), (HasTag b BlockTag);
    destruct (decide (Value b = 1%Z)) as [E1|E1];
    destruct (decide (Value b = (-1)%Z)) as [E2|E2];
    destruct (decide (Value b = 0%Z)) as [E3|E3]; try lia;
    cbn [c withC withI i pk];
    rewrite ?onProfile_lookup, ?GetProfile_lookup;
    (destruct (decide (cr = tg)) as [->|Hne];
     [ rewrite ?(decide_True (P := tg = tg)) by reflexivity
     | rewrite ?(decide_True (P := tg = tg)) by reflexivity;
       rewrite ?(decide_True (P := cr = cr)) by reflexivity;
       rewrite ?(decide_False (P := cr = tg)) by assumption;
       rewrite ?(decide_False (P := tg = cr)) by (intros ?; apply Hne; done) ]);
    cbn;
    eexists _, _; (split; [reflexivity|]); (split; [reflexivity|]); cbn;
    repeat split; try congruence; try lia;
    try (set_unfold; intuition congruence).
Qed.

(** C2 (as amended). Two user-votes with the same creator and the same
    target, processed in order: afterwards both profiles exist, and the
    pair is related exactly as the second vote says - trusted/trustedBy iff
    its value is +1 and it has the trust tag, markedAsSpam/markedAsSpamBy
    iff its value is -1 and it has the spam tag, blocked/blockedBy iff its
    value is -1 and it has the block tag.  Whatever the first vote had set
    on the pair and the second does not set again is gone. *)
Theorem latest_user_vote_wins (v : Viewer) (ct1 ct2 : Content) :
  let b1 := GetBody ct1 in
  let b2 := GetBody ct2 in
  Creator b1 = Creator b2 →
  OfUser b1 = OfUser b2 →
  let v2 := props.afterTwoUserVotes v ct1 ct2 in
  ∃ pc pt,
    profiles (c v2) !! Creator b2 = Some pc
    ∧ profiles (c v2) !! OfUser b2 = Some pt
    ∧ (OfUser b2 ∈ Trusted pc ↔ Value b2 = 1%Z ∧ HasTag b2 TrustTag = true)
    ∧ (Creator b2 ∈ TrustedBy pt ↔ Value b2 = 1%Z ∧ HasTag b2 TrustTag = true)
    ∧ (OfUser b2 ∈ MarkedAsSpam pc
       ↔ Value b2 = (-1)%Z ∧ HasTag b2 SpamTag = true)
    ∧ (Creator b2 ∈ MarkedAsSpamBy pt
       ↔ Value b2 = (-1)%Z ∧ HasTag b2 SpamTag = true)
    ∧ (OfUser b2 ∈ Blocked pc ↔ Value b2 = (-1)%Z ∧ HasTag b2 BlockTag = true)
    ∧ (Creator b2 ∈ BlockedBy pt
       ↔ Value b2 = (-1)%Z ∧ HasTag b2 BlockTag = true).
Proof.
  intros b1 b2 _ _ v2. apply processUserVote_effects.
Qed.

Lemma latest_user_vote_wins_witness :
  let ct1 := samples.userVote samples.U1 samples.U2 1 [TrustTag] in
  let ct2 := samples.userVote samples.U1 samples.U2 (-1) [SpamTag] in
  let v2 := props.afterTwoUserVotes samples.emptyViewer ct1 ct2 in
  ∃ pc pt,
    profiles (c v2) !! samples.U1 = Some pc
    ∧ profiles (c v2) !! samples.U2 = Some pt
    ∧ (samples.U2 ∈ Trusted pc ↔ (-1)%Z = 1%Z ∧ false = true)
    ∧ (samples.U1 ∈ TrustedBy pt ↔ (-1)%Z = 1%Z ∧ false = true)
    ∧ (samples.U2 ∈ MarkedAsSpam pc ↔ (-1)%Z = (-1)%Z ∧ true = true)
    ∧ (samples.U1 ∈ MarkedAsSpamBy pt ↔ (-1)%Z = (-1)%Z ∧ true = true)
    ∧ (samples.U2 ∈ Blocked pc ↔ (-1)%Z = (-1)%Z ∧ false = true)
    ∧ (samples.U1 ∈ BlockedBy pt ↔ (-1)%Z = (-1)%Z ∧ false = true).
Proof.
  intros ct1 ct2.
  exact (latest_user_vote_wins samples.emptyViewer ct1 ct2 eq_refl eq_refl).
Defined.

(** C2 (as stated) fails: a second vote of value -1 that carries both the
    spam and the block tag sets two relations on the pair, not exactly
    one; and a second vote of value +1 without the trust tag sets none. *)
Lemma latest_user_vote_two_relations :
  let first := samples.userVote samples.U1 samples.U2 1 [TrustTag] in
  let both := samples.userVote samples.U1 samples.U2 (-1) [SpamTag; BlockTag] in
  let plain := samples.userVote samples.U1 samples.U2 1 [] in
  props.effectCount (props.afterTwoUserVotes samples.emptyViewer first both)
    samples.U1 samples.U2 = 2
  ∧ props.effectCount (props.afterTwoUserVotes samples.emptyViewer first plain)
      samples.U1 samples.U2 = 0.
Proof. split; vm_compute; reflexivity. Qed.

(** ** Indexed users have profiles *)

Lemma keysOf_Append (p : paginated.Paginated) (k j : string) :
  j ∈ paginated.keysOf (paginated.Append p k) ↔
  j ∈ paginated.keysOf p ∨ j = k.
Proof.
  destruct p as [l|l]; cbn.
  - rewrite elem_of_app, list_elem_of_singleton. done.
  - case_bool_decide; cbn.
    + split; [auto|]. intros [?| ->]; done.
    + rewrite elem_of_app, list_elem_of_singleton. done.
Qed.

Lemma ensureUser_usersHaveProfiles (v : Viewer) (u : string) :
  props.usersHaveProfiles v → props.usersHaveProfiles (ensureUser v u).
Proof.
  intros Hv k. unfold ensureUser. cbn. rewrite keysOf_Append.
  intros [Hk| ->].
  - apply Hv in Hk. destruct (profiles (c v) !! u); cbn; [done|].
    rewrite lookup_insert. case_decide; [done|exact Hk].
  - destruct (profiles (c v) !! u) eqn:E; cbn; [rewrite E; done|].
    rewrite lookup_insert_eq. done.
Qed.

Lemma is_Some_onProfile (d : Container) (f : Profile → Profile) (k j : string) :
  is_Some (profiles (onProfile k f d) !! j) ↔ is_Some (profiles d !! j).
Proof.
  rewrite onProfile_lookup. case_decide; [|done].
  rewrite fmap_is_Some. done.
Qed.

Lemma is_Some_GetProfile (d : Container) (k j : string) :
  is_Some (profiles (GetProfile d k) !! j)
  ↔ is_Some (profiles d !! j) ∨ j = k.
Proof.
  rewrite GetProfile_lookup. case_decide; subst.
  - split; [auto|done].
  - split; [auto|]. intros [?|?]; [done|congruence].
Qed.

Lemma processUserVote_profiles (v : Viewer) (ct : Content) (b : Body)
    (h : ContentHeaderData) (k : string) :
  is_Some (profiles (c (fst (processUserVote v ct b h))) !! k)
  ↔ is_Some (profiles (c v) !! k) ∨ k = Creator b ∨ k = OfUser b.
Proof.
  unfold processUserVote. cbn [fst].
  repeat case_match; cbn [c withC withI i pk];
    rewrite ?is_Some_onProfile, !is_Some_GetProfile; tauto.
Qed.

Lemma processUserVote_users (v : Viewer) (ct : Content) (b : Body)
    (h : ContentHeaderData) (k : string) :
  k ∈ paginated.keysOf (Users (i (fst (processUserVote v ct b h)))) →
  k ∈ paginated.keysOf (Users (i v)) ∨ k = Creator b ∨ k = OfUser b.
Proof.
  unfold processUserVote. cbn [fst].
  repeat case_match; cbn [c withC withI i pk EnsureUsersOfUserVoteBody Users];
    rewrite ?keysOf_Append; tauto.
Qed.

Lemma processUserVote_usersHaveProfiles (v : Viewer) (ct : Content) (b : Body)
    (h : ContentHeaderData) :
  props.usersHaveProfiles v → props.usersHaveProfiles (fst (processUserVote v ct b h)).
Proof.
  intros Hv k Hk. apply processUserVote_users in Hk.
  apply processUserVote_profiles. destruct Hk as [Hk|Hk]; [|auto].
  left. by apply Hv.
Qed.

Lemma sameUsers_usersHaveProfiles (v v' : Viewer) :
  props.sameUsers v v' → props.usersHaveProfiles v → props.usersHaveProfiles v'.
Proof. intros [HU HP] Hv k. rewrite HU, HP. apply Hv. Qed.

Lemma setBoard_sameUsers (v : Viewer) (bc : Content) :
  props.sameUsers v (setBoard v bc).
Proof. split; reflexivity. Qed.

Lemma addThread_sameUsers (v : Viewer) (tc : Content) (b : Body)
    (h : ContentHeaderData) :
  props.sameUsers v (fst (addThread v tc b h)).
Proof. unfold addThread. case_match; split; reflexivity. Qed.

Lemma linkReply_sameUsers (v : Viewer) (b : Body) (pHash : string) :
  props.sameUsers v (linkReply v b pHash).
Proof. unfold linkReply. case_match; split; reflexivity. Qed.

Lemma sameUsers_trans (v1 v2 v3 : Viewer) :
  props.sameUsers v1 v2 → props.sameUsers v2 v3 → props.sameUsers v1 v3.
Proof. intros [? ?] [? ?]. split; congruence. Qed.

Lemma addPost_sameUsers (v : Viewer) (t : keys.SHA256) (pc : Content)
    (b : Body) (h : ContentHeaderData) :
  props.sameUsers v (fst (addPost v t pc b h)).
Proof.
  unfold addPost. repeat case_match; try (split; reflexivity).
  cbn [fst]. eapply sameUsers_trans; [|apply linkReply_sameUsers].
  split; reflexivity.
Qed.

Lemma addVote_sameUsers (v : Viewer) (ct : Content) (t : ContentType)
    (h : string) :
  props.sameUsers v (fst (addVote v ct t h)).
Proof. unfold addVote. case_match; split; reflexivity. Qed.

Lemma processVote_usersHaveProfiles (v : Viewer) (ct : Content) (b : Body)
    (h : ContentHeaderData) :
  props.usersHaveProfiles v → props.usersHaveProfiles (fst (processVote v ct b h)).
Proof.
  intros Hv. unfold processVote.
  destruct (Type_ b); try exact Hv.
  - eapply sameUsers_usersHaveProfiles; [apply addVote_sameUsers|exact Hv].
  - eapply sameUsers_usersHaveProfiles; [apply addVote_sameUsers|exact Hv].
  - by apply processUserVote_usersHaveProfiles.
Qed.

Lemma rangePosts_usersHaveProfiles (posts : list Content) (v : Viewer)
    (t : keys.SHA256) :
  props.usersHaveProfiles v → props.usersHaveProfiles (fst (rangePosts v t posts)).
Proof.
  revert v. induction posts as [|post rest IH]; intros v Hv; cbn; [done|].
  pose proof (addPost_sameUsers (ensureUser v (Creator (GetBody post))) t post
                (GetBody post) (GetHeader post)) as Hs.
  destruct (addPost _ _ _ _ _) as [v2 [e|]]; cbn in *.
  - eapply sameUsers_usersHaveProfiles; [exact Hs|].
    by apply ensureUser_usersHaveProfiles.
  - apply IH. eapply sameUsers_usersHaveProfiles; [exact Hs|].
    by apply ensureUser_usersHaveProfiles.
Qed.

Lemma rangeThreadPages_usersHaveProfiles (tps : list ThreadPage) (v : Viewer) :
  props.usersHaveProfiles v → props.usersHaveProfiles (fst (rangeThreadPages v tps)).
Proof.
  revert v. induction tps as [|tp rest IH]; intros v Hv; cbn; [done|].
  destruct (GetThread tp) as [thread|e]; [|done].
  pose proof (addThread_sameUsers
                (ensureUser v (Creator (GetBody thread))) thread
                (GetBody thread) (GetHeader thread)) as Hs.
  destruct (addThread _ _ _ _) as [v2 [tHash [e|]]]; cbn in *.
  - eapply sameUsers_usersHaveProfiles; [exact Hs|].
    by apply ensureUser_usersHaveProfiles.
  - assert (props.usersHaveProfiles v2) as Hv2.
    { eapply sameUsers_usersHaveProfiles; [exact Hs|].
      by apply ensureUser_usersHaveProfiles. }
    pose proof (rangePosts_usersHaveProfiles (Posts tp) v2 tHash Hv2) as Hp.
    destruct (rangePosts v2 tHash (Posts tp)) as [v3 [e|]]; cbn in *;
      [done|by apply IH].
Qed.

Lemma rangeSubmissions_usersHaveProfiles (subs : list Content) (v : Viewer) :
  props.usersHaveProfiles v → props.usersHaveProfiles (fst (rangeSubmissions v subs)).
Proof.
  revert v. induction subs as [|ct rest IH]; intros v Hv; cbn; [done|].
  pose proof (processVote_usersHaveProfiles
                (ensureUser v (Creator (GetBody ct))) ct (GetBody ct)
                (GetHeader ct) (ensureUser_usersHaveProfiles _ _ Hv)) as Hs.
  destruct (processVote _ _ _ _) as [v2 [e|]]; cbn in *; [done|by apply IH].
Qed.

Lemma rangeUserProfiles_usersHaveProfiles (ups : list UserProfile)
    (v : Viewer) :
  props.usersHaveProfiles v → props.usersHaveProfiles (fst (rangeUserProfiles v ups)).
Proof.
  revert v. induction ups as [|uap rest IH]; intros v Hv; cbn; [done|].
  pose proof (rangeSubmissions_usersHaveProfiles (Submissions uap) v Hv) as Hs.
  destruct (rangeSubmissions v (Submissions uap)) as [v1 [e|]]; cbn in *;
    [done|by apply IH].
Qed.

Lemma NewViewer_usersHaveProfiles (pack : Pack) (v : Viewer) :
  NewViewer pack = Ok v → props.usersHaveProfiles v.
Proof.
  unfold NewViewer. intros H.
  destruct (GetPages pack _) as [pages|e]; [|done].
  destruct (GetBoardContent (pBoardPage pages)) as [board|e]; [|done].
  set (v0 := setBoard _ board) in H.
  assert (props.usersHaveProfiles v0) as H0.
  { intros k Hk. cbn in Hk. by apply elem_of_nil in Hk. }
  pose proof (rangeThreadPages_usersHaveProfiles
                (ThreadPages (pBoardPage pages)) v0 H0) as H1.
  destruct (rangeThreadPages v0 _) as [v2 [e|]]; [done|]. cbn in H1.
  pose proof (rangeUserProfiles_usersHaveProfiles
                (UserProfiles (pUsersPage pages)) v2 H1) as H2.
  destruct (rangeUserProfiles v2 _) as [v3 [e|]]; [done|]. cbn in H2.
  by simplify_eq.
Qed.

Lemma updateItem_usersHaveProfiles (v : Viewer) (ct : Content) :
  props.usersHaveProfiles v → props.usersHaveProfiles (fst (updateItem v ct)).
Proof.
  intros Hv. unfold updateItem.
  pose proof (ensureUser_usersHaveProfiles v (Creator (GetBody ct)) Hv) as H1.
  destruct (Type_ (GetBody ct)); cbn [fst]; try exact H1;
    try (by apply processVote_usersHaveProfiles).
  - pose proof (addThread_sameUsers (ensureUser v (Creator (GetBody ct))) ct
                  (GetBody ct) (GetHeader ct)) as Hs.
    destruct (addThread _ _ _ _) as [v2 [tHash e]]; cbn in *.
    eapply sameUsers_usersHaveProfiles; eauto.
  - eapply sameUsers_usersHaveProfiles; [apply addPost_sameUsers|exact H1].
Qed.

Lemma updateNew_usersHaveProfiles (new : list Content) (v : Viewer) :
  props.usersHaveProfiles v → props.usersHaveProfiles (fst (updateNew v new)).
Proof.
  revert v. induction new as [|ct rest IH]; intros v Hv; cbn; [done|].
  pose proof (updateItem_usersHaveProfiles v ct Hv) as H1.
  destruct (updateItem v ct) as [v1 [e|]]; cbn in *; [done|by apply IH].
Qed.

Lemma Update_usersHaveProfiles (v v' : Viewer) (pack : Pack) (hs : Headers)
    (e : option boo.error) :
  props.usersHaveProfiles v → Update (Some v) pack hs = (Some v', e) →
  props.usersHaveProfiles v'.
Proof.
  intros Hv. unfold Update.
  destruct (GetPages pack _) as [pages|e1]; [|by intros; simplify_eq].
  destruct (GetBoardContent (pBoardPage pages)) as [board|e1];
    [|by intros; simplify_eq].
  pose proof (updateNew_usersHaveProfiles (New (GetChanges hs))
                (setBoard v board)
                (sameUsers_usersHaveProfiles _ _ (setBoard_sameUsers v board) Hv))
    as H1.
  destruct (updateNew _ _) as [v2 e2]. cbn in H1. by intros; simplify_eq.
Qed.

Lemma annotate_sameUsers (v v' : Viewer) (p h : string) :
  annotate v p h = Some v' → props.sameUsers v v'.
Proof.
  unfold annotate. repeat case_match; intros; simplify_eq; split; reflexivity.
Qed.

Lemma annotateAll_sameUsers (hs : list string) (v v' : Viewer) (p : string) :
  annotateAll v p hs = Some v' → props.sameUsers v v'.
Proof.
  revert v. induction hs as [|h rest IH]; intros v; cbn.
  - intros; simplify_eq; split; reflexivity.
  - destruct (annotate v p h) as [v1|] eqn:E; [|done].
    intros H. apply IH in H. apply annotate_sameUsers in E.
    eapply sameUsers_trans; eauto.
Qed.

Lemma GetThreadPage_sameUsers (v v' : Viewer) (q : ThreadPageIn)
    (r : outcome ThreadPageOut) :
  GetThreadPage (Some v) q = (Some v', r) → props.sameUsers v v'.
Proof.
  unfold GetThreadPage.
  destruct (content (c v) !! ThreadHash q);
    [|by intros; simplify_eq; split].
  destruct (annotate v _ _) as [v1|] eqn:E1; [|by intros; simplify_eq; split].
  apply annotate_sameUsers in E1.
  destruct (PostsOfThread (i v1) !! ThreadHash q) as [plist|];
    [|by intros; simplify_eq].
  destruct (paginated.Get plist _) as [pHashes|e]; [|by intros; simplify_eq].
  destruct (annotateAll v1 _ _) as [v2|] eqn:E2; [|by intros; simplify_eq].
  apply annotateAll_sameUsers in E2. intros; simplify_eq.
  eapply sameUsers_trans; eauto.
Qed.

Lemma reachable_usersHaveProfiles (v : Viewer) :
  props.reachable v → props.usersHaveProfiles v.
Proof.
  induction 1 as [pack v H | v v' pack hs e _ IH H | v v' q r _ IH H].
  - by eapply NewViewer_usersHaveProfiles.
  - by eapply Update_usersHaveProfiles.
  - eapply sameUsers_usersHaveProfiles; [|exact IH].
    by eapply GetThreadPage_sameUsers.
Qed.

(** C10. In every reachable viewer state, each public key of the user
    index has a profile record in the container, and [GetUserProfile] can
    only fail with [NotFound]: its [Internal] branch is never taken. *)
Theorem indexed_users_have_profiles (v : Viewer) :
  props.reachable v →
  (∀ upk, HasUser (Some v) upk = true → is_Some (profiles (c v) !! upk))
  ∧ (∀ q e, GetUserProfile (Some v) q = Err e → boo.kind e = boo.NotFound).
Proof.
  intros Hr. apply reachable_usersHaveProfiles in Hr.
  assert (∀ upk, HasUser (Some v) upk = true →
                 is_Some (profiles (c v) !! upk)) as Hhas.
  { intros upk H. apply Hr. cbn in H. unfold paginated.Has in H.
    by apply bool_decide_eq_true in H. }
  split; [exact Hhas|].
  intros q e. unfold GetUserProfile.
  destruct (paginated.Has (Users (i v)) (UserPubKey q)) eqn:E; cbn.
  - destruct (Hhas (UserPubKey q) E) as [p ->]. done.
  - intros; simplify_eq. reflexivity.
Qed.

Lemma indexed_users_have_profiles_witness :
  HasUser (Some samples.viewer1) samples.U2 = true
  ∧ is_Some (profiles (c samples.viewer1) !! samples.U2).
Proof.
  assert (NewViewer samples.pack1 = Ok samples.viewer1) as Hnew
    by (vm_compute; reflexivity).
  assert (HasUser (Some samples.viewer1) samples.U2 = true) as Hhas
    by (vm_compute; reflexivity).
  split; [exact Hhas|].
  exact (proj1 (indexed_users_have_profiles samples.viewer1
                  (props.reach_NewViewer samples.pack1 samples.viewer1 Hnew))
           samples.U2 Hhas).
Defined.

(** ** The board entry *)

Lemma sameContent_boardInPlace (bh : string) (brep : ContentRep)
    (v v' : Viewer) :
  props.sameContent v v' → props.boardInPlace bh brep v →
  props.boardInPlace bh brep v'.
Proof. intros [HB HC]. unfold props.boardInPlace. rewrite HB, HC. done. Qed.

Lemma ensureUser_sameContent (v : Viewer) (u : string) :
  props.sameContent v (ensureUser v u).
Proof.
  unfold ensureUser. split; cbn; [done|].
  destruct (profiles (c v) !! u); done.
Qed.

Lemma GetProfile_content (d : Container) (k : string) :
  content (GetProfile d k) = content d ∧ votes (GetProfile d k) = votes d.
Proof. unfold GetProfile. case_match; split; reflexivity. Qed.

Lemma processUserVote_sameContent (v : Viewer) (ct : Content) (b : Body)
    (h : ContentHeaderData) :
  props.sameContent v (fst (processUserVote v ct b h)).
Proof.
  unfold processUserVote. cbn [fst].
  repeat case_match; split; cbn;
    rewrite ?(proj1 (GetProfile_content _ _)); reflexivity.
Qed.

Lemma addVote_sameContent (v : Viewer) (ct : Content) (t : ContentType)
    (h : string) :
  props.sameContent v (fst (addVote v ct t h)).
Proof. unfold addVote. case_match; split; reflexivity. Qed.

Lemma processVote_sameContent (v : Viewer) (ct : Content) (b : Body)
    (h : ContentHeaderData) :
  props.sameContent v (fst (processVote v ct b h)).
Proof.
  unfold processVote.
  destruct (Type_ b); try (split; reflexivity);
    auto using addVote_sameContent, processUserVote_sameContent.
Qed.

Lemma addThread_boardInPlace (bh : string) (brep : ContentRep) (v : Viewer)
    (tc : Content) :
  props.freshFor bh tc → props.boardInPlace bh brep v →
  props.boardInPlace bh brep (fst (addThread v tc (GetBody tc) (GetHeader tc))).
Proof.
  intros [Hh Hk] (HB & Hb & Hothers). unfold addThread.
  case_match; [done|]. unfold props.boardInPlace. cbn.
  split; [done|]. split.
  - rewrite lookup_insert_ne; done.
  - intros k r Hkr Hne. rewrite lookup_insert in Hkr.
    destruct (decide (keys.Hex (GetHash (GetHeader tc)) = k)); simplify_eq;
      [exact Hh|eapply Hothers; eauto].
Qed.

Lemma addPost_boardInPlace (bh : string) (brep : ContentRep) (v : Viewer)
    (t : keys.SHA256) (pc : Content) :
  props.freshFor bh pc → props.boardInPlace bh brep v →
  props.boardInPlace bh brep
    (fst (addPost v t pc (GetBody pc) (GetHeader pc))).
Proof.
  intros [Hh Hk] (HB & Hb & Hothers). unfold addPost.
  repeat case_match; try done. cbn [fst].
  unfold linkReply, props.boardInPlace. case_match; cbn.
  all: split; [done|]; split; [rewrite lookup_insert_ne; done|].
  all: intros k r Hkr Hne; rewrite lookup_insert in Hkr;
    destruct (decide (Hash (GetHeader pc) = k)); simplify_eq;
    [exact Hh|eapply Hothers; eauto].
Qed.

Lemma rangePosts_boardInPlace (bh : string) (brep : ContentRep)
    (posts : list Content) (v : Viewer) (t : keys.SHA256) :
  Forall (props.freshFor bh) posts → props.boardInPlace bh brep v →
  props.boardInPlace bh brep (fst (rangePosts v t posts)).
Proof.
  intros Hf. revert v. induction Hf as [|post rest Hp _ IH]; intros v Hv; cbn;
    [done|].
  pose proof (addPost_boardInPlace bh brep
                (ensureUser v (Creator (GetBody post))) t post Hp
                (sameContent_boardInPlace _ _ _ _
                   (ensureUser_sameContent v _) Hv)) as H1.
  destruct (addPost _ _ _ _ _) as [v2 [e|]]; cbn in *; [done|by apply IH].
Qed.

Lemma rangeThreadPages_boardInPlace (bh : string) (brep : ContentRep)
    (tps : list ThreadPage) (v : Viewer) :
  Forall (λ tp, Forall (props.freshFor bh) (props.pageContents tp)) tps →
  props.boardInPlace bh brep v →
  props.boardInPlace bh brep (fst (rangeThreadPages v tps)).
Proof.
  intros Hf. revert v. induction Hf as [|tp rest Hp _ IH]; intros v Hv; cbn;
    [done|].
  unfold props.pageContents in Hp.
  destruct (GetThread tp) as [thread|e]; [|done].
  apply Forall_cons in Hp as [Ht Hps].
  pose proof (addThread_boardInPlace bh brep
                (ensureUser v (Creator (GetBody thread))) thread Ht
                (sameContent_boardInPlace _ _ _ _
                   (ensureUser_sameContent v _) Hv)) as H1.
  destruct (addThread _ _ _ _) as [v2 [tHash [e|]]]; cbn in *; [done|].
  pose proof (rangePosts_boardInPlace bh brep (Posts tp) v2 tHash Hps H1) as H2.
  destruct (rangePosts v2 tHash (Posts tp)) as [v3 [e|]]; cbn in *;
    [done|by apply IH].
Qed.

Lemma rangeSubmissions_sameContent (subs : list Content) (v : Viewer) :
  props.sameContent v (fst (rangeSubmissions v subs)).
Proof.
  revert v. induction subs as [|ct rest IH]; intros v; cbn; [by split|].
  pose proof (processVote_sameContent (ensureUser v (Creator (GetBody ct))) ct
                (GetBody ct) (GetHeader ct)) as [H1 H2].
  pose proof (ensureUser_sameContent v (Creator (GetBody ct))) as [H3 H4].
  destruct (processVote _ _ _ _) as [v2 [e|]]; cbn in *.
  - split; congruence.
  - destruct (IH v2) as [H5 H6]. split; congruence.
Qed.

Lemma rangeUserProfiles_sameContent (ups : list UserProfile) (v : Viewer) :
  props.sameContent v (fst (rangeUserProfiles v ups)).
Proof.
  revert v. induction ups as [|uap rest IH]; intros v; cbn; [by split|].
  pose proof (rangeSubmissions_sameContent (Submissions uap) v) as [H1 H2].
  destruct (rangeSubmissions v (Submissions uap)) as [v1 [e|]]; cbn in *.
  - by split.
  - destruct (IH v1) as [H3 H4]. split; congruence.
Qed.

Lemma setBoard_entry (w : Viewer) (bc : Content) :
  Board (i (setBoard w bc)) = Hash (GetHeader bc)
  ∧ content (c (setBoard w bc)) !! Hash (GetHeader bc)
    = Some (setPubKey (ToRep bc) (keys.Hex (pk w)))
  ∧ (Board (i w) ≠ Hash (GetHeader bc) →
     content (c (setBoard w bc)) !! Board (i w) = None).
Proof.
  unfold setBoard. cbn. split; [done|]. split.
  - apply lookup_insert_eq.
  - intros Hne. rewrite lookup_insert_ne by done. apply lookup_delete_eq.
Qed.

(** C9. Bootstrap from a snapshot in which the board's hash is the hash of
    no thread or post: the board key of the indexer is the hash in the
    board's header, [GetBoard] returns the board's representation (with the
    public key of the root), and that representation is stored under this
    key and under no other.  Whenever [setBoard] installs a board with a
    new hash, the entry under the previous board key is gone. *)
Theorem bootstrap_board_entry (pack : Pack) (bp : BoardPage) (board : Content)
    (v : Viewer) :
  packBoardPage pack = Ok bp →
  GetBoardContent bp = Ok board →
  props.boardHashFresh bp board →
  NewViewer pack = Ok v →
  let rep := setPubKey (ToRep board) (keys.Hex (Pub pack)) in
  Board (i v) = Hash (GetHeader board)
  ∧ GetBoard (Some v) = Ok (Some rep)
  ∧ (∀ k, content (c v) !! k = Some rep ↔ k = Hash (GetHeader board))
  ∧ (∀ w bc, Board (i w) ≠ Hash (GetHeader bc) →
             content (c (setBoard w bc)) !! Board (i w) = None
             ∧ content (c (setBoard w bc)) !! Hash (GetHeader bc)
               = Some (setPubKey (ToRep bc) (keys.Hex (pk w)))).
Proof.
  intros Hbp Hboard Hfresh Hnew rep.
  assert (props.boardInPlace (Hash (GetHeader board)) rep v) as (HB & Hb & Ho).
  { unfold NewViewer, GetPages in Hnew. cbn in Hnew. rewrite Hbp in Hnew.
    destruct (packUsersPage pack) as [up|e]; [|done]. cbn in Hnew.
    rewrite Hboard in Hnew.
    set (v0 := setBoard _ board) in Hnew.
    assert (props.boardInPlace (Hash (GetHeader board)) rep v0) as H0.
    { split; [done|]. split; [apply lookup_insert_eq|].
      intros k r Hkr Hne. cbn in Hkr.
      rewrite lookup_insert_ne in Hkr by done.
      apply lookup_delete_Some in Hkr as [_ Hkr].
      by rewrite lookup_empty in Hkr. }
    pose proof (rangeThreadPages_boardInPlace _ _ _ v0 Hfresh H0) as H1.
    destruct (rangeThreadPages v0 _) as [v2 [e|]]; [done|]. cbn in H1.
    pose proof (rangeUserProfiles_sameContent (UserProfiles up) v2) as H2.
    destruct (rangeUserProfiles v2 _) as [v3 [e|]]; [done|]. cbn in H2.
    simplify_eq. eapply sameContent_boardInPlace; eauto. }
  split; [exact HB|]. split; [|split].
  - cbn. rewrite HB, Hb. done.
  - intros k. split; [|by intros ->].
    intros Hk. destruct (decide (k = Hash (GetHeader board))) as [|Hne];
      [done|].
    exfalso. by apply (Ho k rep Hk Hne).
  - intros w bc Hne. destruct (setBoard_entry w bc) as (_ & H1 & H2). auto.
Qed.

Lemma bootstrap_board_entry_witness :
  Board (i samples.viewer1) = samples.B1
  ∧ GetBoard (Some samples.viewer1)
    = Ok (Some (setPubKey (ToRep samples.boardC) samples.PK1)).
Proof.
  assert (props.boardHashFresh samples.boardPage1 samples.boardC) as Hfresh.
  { repeat constructor; vm_compute; discriminate. }
  assert (NewViewer samples.pack1 = Ok samples.viewer1) as Hnew
    by (vm_compute; reflexivity).
  pose proof (bootstrap_board_entry samples.pack1 samples.boardPage1
                samples.boardC samples.viewer1 eq_refl eq_refl Hfresh Hnew)
    as (H1 & H2 & _).
  split; [exact H1|exact H2].
Defined.

(** ** Thread pages *)

Lemma annotate_spec (v v1 : Viewer) (p h : string) :
  annotate v p h = Some v1 →
  pk v1 = pk v ∧ i v1 = i v ∧ votes (c v1) = votes (c v)
  ∧ ∀ k, content (c v1) !! k
         = if decide (k = h) then props.annotated v p k
           else content (c v) !! k.
Proof.
  unfold annotate, props.annotated.
  destruct (votes (c v) !! h) as [vr|] eqn:Ev.
  - destruct (content (c v) !! h) as [rep|] eqn:Ec; [|done].
    intros; simplify_eq. cbn. do 3 (split; [done|]). intros k.
    rewrite lookup_insert. destruct (decide (k = h)) as [->|Hne].
    + rewrite decide_True by done. rewrite Ec, Ev. done.
    + rewrite decide_False by done. done.
  - intros; simplify_eq. do 3 (split; [done|]). intros k.
    destruct (decide (k = h)) as [->|Hne]; [|done].
    rewrite Ev. destruct (content (c v1) !! h); done.
Qed.

Lemma annotated_twice (v v1 : Viewer) (p h k : string) :
  annotate v p h = Some v1 → props.annotated v1 p k = props.annotated v p k.
Proof.
  intros H. destruct (annotate_spec _ _ _ _ H) as (_ & _ & Hv & Hc).
  unfold props.annotated at 1. rewrite Hv, Hc.
  destruct (decide (k = h)) as [->|Hne]; [|done].
  unfold props.annotated.
  destruct (content (c v) !! h) as [rep|], (votes (c v) !! h) as [vr|]; done.
Qed.

Lemma annotateAll_spec (hs : list string) (v v2 : Viewer) (p : string) :
  annotateAll v p hs = Some v2 →
  pk v2 = pk v ∧ i v2 = i v ∧ votes (c v2) = votes (c v)
  ∧ ∀ k, content (c v2) !! k
         = if decide (k ∈ hs) then props.annotated v p k
           else content (c v) !! k.
Proof.
  revert v. induction hs as [|h rest IH]; intros v; cbn.
  - intros; simplify_eq. do 3 (split; [done|]). intros k.
    rewrite decide_False; [done|]. apply not_elem_of_nil.
  - destruct (annotate v p h) as [v1|] eqn:E; [|done].
    intros H. destruct (IH _ H) as (H1 & H2 & H3 & H4).
    destruct (annotate_spec _ _ _ _ E) as (G1 & G2 & G3 & G4).
    do 3 (split; [congruence|]).
    intros k. rewrite H4.
    destruct (decide (k ∈ rest)) as [Hin|Hnin].
    + rewrite decide_True by (by right).
      by eapply annotated_twice.
    + rewrite G4. destruct (decide (k = h)) as [->|Hne].
      * rewrite decide_True by left. done.
      * rewrite decide_False; [done|]. by intros [?|?]%elem_of_cons.
Qed.

Lemma annotate_defined (v : Viewer) (p h : string) :
  is_Some (content (c v) !! h) → is_Some (annotate v p h).
Proof.
  intros [rep Hr]. unfold annotate. rewrite Hr.
  destruct (votes (c v) !! h); done.
Qed.

Lemma annotateAll_defined (hs : list string) (v : Viewer) (p : string) :
  (∀ h, h ∈ hs → is_Some (content (c v) !! h)) →
  is_Some (annotateAll v p hs).
Proof.
  revert v. induction hs as [|h rest IH]; intros v Hall; cbn; [done|].
  destruct (annotate_defined v p h (Hall h (list_elem_of_here h rest))) as [v1 E].
  rewrite E. apply IH. intros k Hk.
  destruct (annotate_spec _ _ _ _ E) as (_ & _ & _ & Hc). rewrite Hc.
  destruct (decide (k = h)) as [->|Hne]; [|apply Hall; by right].
  destruct (Hall h (list_elem_of_here h rest)) as [rep Hr].
  unfold props.annotated. rewrite Hr. destruct (votes (c v) !! h); done.
Qed.

(** What [addThread] leaves for the thread it indexed. *)
Lemma addThread_indexed (w w' : Viewer) (tc : Content) (b : Body)
    (h : ContentHeaderData) (tHash : keys.SHA256) :
  addThread w tc b h = (w', (tHash, None)) →
  HasThread (Some w') (keys.Hex tHash) = true
  ∧ content (c w') !! keys.Hex tHash = Some (ToRep tc)
  ∧ PostsOfThread (i w') !! keys.Hex tHash = Some paginated.NewMapped.
Proof.
  unfold addThread. case_match; [done|]. intros; simplify_eq. cbn.
  split; [|split]; [|apply lookup_insert_eq..].
  unfold paginated.Has. apply bool_decide_eq_true.
  apply keysOf_Append. by right.
Qed.

(** C5 (as amended). [GetThreadPage] fails with [NotFound] exactly when the
    hash has no representation in the container (whatever its kind: the
    board, a thread or a post).  When the hash has a representation and a
    post list - as every thread has once [addThread] indexed it - and the
    pagination index accepts the start index, the call returns the board
    representation, the representation of the hash with its vote view
    when it has votes, and the representations of the requested page, each
    with its vote view when it has votes. *)
Theorem GetThreadPage_by_content (v : Viewer) (q : ThreadPageIn) :
  let t := ThreadHash q in
  let p := tpPerspective q in
  (content (c v) !! t = None →
   ∃ e, GetThreadPage (Some v) q = (Some v, Fail e)
        ∧ boo.kind e = boo.NotFound)
  ∧ (∀ e, snd (GetThreadPage (Some v) q) = Fail e →
          boo.kind e = boo.NotFound → content (c v) !! t = None)
  ∧ (∀ plist pHashes,
       is_Some (content (c v) !! t) →
       PostsOfThread (i v) !! t = Some plist →
       paginated.Get plist (tpPaginatedInput q) = Ok pHashes →
       (∀ h, h ∈ paginated.Data pHashes → is_Some (content (c v) !! h)) →
       ∃ v', GetThreadPage (Some v) q
             = (Some v',
                Return {| outBoard :=
                            props.boardView v p (t :: paginated.Data pHashes);
                          outThread := props.annotated v p t;
                          outPosts := props.annotated v p
                                        <$> paginated.Data pHashes |}))
  ∧ (∀ w w' tc b h tHash,
       addThread w tc b h = (w', (tHash, None)) →
       HasThread (Some w') (keys.Hex tHash) = true
       ∧ is_Some (content (c w') !! keys.Hex tHash)
       ∧ is_Some (PostsOfThread (i w') !! keys.Hex tHash)).
Proof.
  intros t p. split; [|split; [|split]].
  - intros Hnone. unfold GetThreadPage. fold t. rewrite Hnone.
    eexists. split; reflexivity.
  - intros e. unfold GetThreadPage. fold t p.
    destruct (content (c v) !! t) as [rep|]; [|done].
    destruct (annotate v p t) as [v1|]; [|by cbn].
    destruct (PostsOfThread (i v1) !! t) as [plist|]; [|by cbn].
    destruct (paginated.Get plist _) as [pHashes|e0] eqn:G.
    + destruct (annotateAll v1 p _); by cbn.
    + cbn. intros [= ->] Hk. unfold paginated.Get in G.
      case_match; simplify_eq.
  - intros plist pHashes Hc Hp Hget Hall.
    unfold GetThreadPage. fold t p. destruct Hc as [rep Hrep]. rewrite Hrep.
    destruct (annotate_defined v p t (ex_intro _ rep Hrep)) as [v1 E1].
    rewrite E1.
    destruct (annotate_spec _ _ _ _ E1) as (_ & Hi1 & Hv1 & Hc1).
    rewrite Hi1, Hp, Hget.
    destruct (annotateAll_defined (paginated.Data pHashes) v1 p) as [v2 E2].
    { intros h Hh. rewrite Hc1. destruct (decide (h = t)) as [->|Hne];
        [|by apply Hall].
      unfold props.annotated. rewrite Hrep.
      destruct (votes (c v) !! t); done. }
    rewrite E2. exists v2. f_equal. f_equal.
    destruct (annotateAll_spec _ _ _ _ E2) as (_ & Hi2 & Hv2 & Hc2).
    assert (∀ k, content (c v2) !! k
                 = if decide (k ∈ t :: paginated.Data pHashes)
                   then props.annotated v p k else content (c v) !! k) as Hfin.
    { intros k. rewrite Hc2.
      destruct (decide (k ∈ paginated.Data pHashes)) as [Hin|Hnin].
      - rewrite decide_True by (by right). by eapply annotated_twice.
      - rewrite Hc1. destruct (decide (k = t)) as [->|Hne].
        + rewrite decide_True by left. done.
        + rewrite decide_False; [done|]. by intros [?|?]%elem_of_cons. }
    f_equal.
    + unfold props.boardView. rewrite Hi2, Hi1. apply Hfin.
    + rewrite Hfin. rewrite decide_True by left. done.
    + apply list_fmap_ext. intros n h Hh. rewrite Hfin.
      rewrite decide_True; [done|]. right. by eapply list_elem_of_lookup_2.
  - intros w w' tc b h tHash H.
    destruct (addThread_indexed _ _ _ _ _ _ H) as (H1 & H2 & H3).
    rewrite H2, H3. auto.
Qed.

Lemma GetThreadPage_by_content_witness :
  ∃ e, GetThreadPage (Some samples.viewer1)
         {| tpPerspective := samples.U1; ThreadHash := samples.B1 +:+ "0";
            tpPaginatedInput := {| paginated.StartIndex := 0;
                                   paginated.PageSize := 10 |} |}
       = (Some samples.viewer1, Fail e)
       ∧ boo.kind e = boo.NotFound.
Proof.
  apply (proj1 (GetThreadPage_by_content samples.viewer1
    {| tpPerspective := samples.U1; ThreadHash := samples.B1 +:+ "0";
       tpPaginatedInput := {| paginated.StartIndex := 0;
                              paginated.PageSize := 10 |} |})).
  vm_compute. reflexivity.
Defined.

(** C5 (as stated) fails: [P1] is a post, not an indexed thread, yet
    [GetThreadPage] on [P1] does not fail with [NotFound]: it returns the
    post as the thread and the replies to it as the posts. *)
Lemma GetThreadPage_on_post_hash :
  let q := {| tpPerspective := samples.U1; ThreadHash := samples.P1;
              tpPaginatedInput := {| paginated.StartIndex := 0;
                                     paginated.PageSize := 10 |} |} in
  HasThread (Some samples.viewer1) samples.P1 = false
  ∧ snd (GetThreadPage (Some samples.viewer1) q)
    = Return {| outBoard := Some (setPubKey (ToRep samples.boardC) samples.PK1);
                outThread := Some (ToRep samples.postC);
                outPosts := [Some (ToRep samples.replyC)] |}.
Proof. split; vm_compute; reflexivity. Qed.

(** A post without replies has a representation but no post list: the
    call goes past the [NotFound] check and then calls [Get] on a nil
    pagination index. *)
Lemma GetThreadPage_on_post_without_replies :
  snd (GetThreadPage (Some samples.viewer1)
         {| tpPerspective := samples.U1; ThreadHash := samples.R1;
            tpPaginatedInput := {| paginated.StartIndex := 0;
                                   paginated.PageSize := 10 |} |})
  = Panic.
Proof. vm_compute. reflexivity. Qed.

(** ** Deletions are not applied *)

Lemma Has_Append (p : paginated.Paginated) (k h : string) :
  h ≠ k → paginated.Has (paginated.Append p k) h = paginated.Has p h.
Proof.
  intros Hne. unfold paginated.Has. apply bool_decide_ext.
  rewrite keysOf_Append. split; [intros [?|?]; [done|congruence]|auto].
Qed.

Lemma setBoard_entriesOf (v : Viewer) (bc : Content) (h : string) :
  h ≠ Board (i v) → h ≠ Hash (GetHeader bc) →
  props.entriesOf (setBoard v bc) h = props.entriesOf v h.
Proof.
  intros H1 H2. unfold props.entriesOf, setBoard. cbn.
  rewrite lookup_insert_ne, lookup_delete_ne by done. reflexivity.
Qed.

Lemma ensureUser_entriesOf (v : Viewer) (u h : string) :
  props.entriesOf (ensureUser v u) h = props.entriesOf v h.
Proof.
  unfold props.entriesOf, ensureUser. cbn.
  destruct (profiles (c v) !! u); reflexivity.
Qed.

Lemma addThread_entriesOf (v : Viewer) (tc : Content) (b : Body)
    (hd : ContentHeaderData) (h : string) :
  h ≠ keys.Hex (GetHash hd) →
  props.entriesOf (fst (addThread v tc b hd)) h = props.entriesOf v h.
Proof.
  intros Hne. unfold addThread. case_match; [done|].
  unfold props.entriesOf. cbn.
  rewrite !lookup_insert_ne, Has_Append by done. reflexivity.
Qed.

Lemma linkReply_entriesOf (v : Viewer) (b : Body) (pHash h : string) :
  h ≠ keys.Hex (fst (GetOfPost b)) →
  props.entriesOf (linkReply v b pHash) h = props.entriesOf v h.
Proof.
  intros Hne. unfold linkReply. case_match; [|done].
  unfold props.entriesOf. cbn. rewrite lookup_insert_ne by done. reflexivity.
Qed.

Lemma addPost_entriesOf (v : Viewer) (t : keys.SHA256) (pc : Content)
    (b : Body) (hd : ContentHeaderData) (h : string) :
  h ≠ Hash hd → h ≠ keys.Hex t → h ≠ keys.Hex (fst (GetOfPost b)) →
  props.entriesOf (fst (addPost v t pc b hd)) h = props.entriesOf v h.
Proof.
  intros H1 H2 H3. unfold addPost. repeat case_match; try done. cbn [fst].
  rewrite linkReply_entriesOf by done.
  unfold props.entriesOf. cbn. rewrite !lookup_insert_ne by done. reflexivity.
Qed.

Lemma addVote_entriesOf (v : Viewer) (ct : Content) (ty : ContentType)
    (target h : string) :
  h ≠ target →
  props.entriesOf (fst (addVote v ct ty target)) h = props.entriesOf v h.
Proof.
  intros Hne. unfold addVote. case_match; [|done].
  unfold props.entriesOf. cbn. rewrite lookup_insert_ne by done. reflexivity.
Qed.

Lemma processUserVote_entriesOf (v : Viewer) (ct : Content) (b : Body)
    (hd : ContentHeaderData) (h : string) :
  props.entriesOf (fst (processUserVote v ct b hd)) h = props.entriesOf v h.
Proof.
  unfold processUserVote, props.entriesOf. cbn [fst].
  repeat case_match; cbn;
    rewrite ?(proj1 (GetProfile_content _ _)),
            ?(proj2 (GetProfile_content _ _)); reflexivity.
Qed.

Lemma updateItem_entriesOf (v : Viewer) (ct : Content) (h : string) :
  h ∉ props.touchedBy ct →
  props.entriesOf (fst (updateItem v ct)) h = props.entriesOf v h.
Proof.
  unfold props.touchedBy, updateItem. intros Hh.
  destruct (Type_ (GetBody ct)) eqn:E; cbn [fst];
    rewrite ?not_elem_of_cons in Hh.
  - apply ensureUser_entriesOf.
  - destruct Hh as [Hh _].
    pose proof (addThread_entriesOf (ensureUser v (Creator (GetBody ct))) ct
                  (GetBody ct) (GetHeader ct) h Hh) as H.
    destruct (addThread _ _ _ _) as [v2 [tHash e]]. cbn in *.
    rewrite H. apply ensureUser_entriesOf.
  - destruct Hh as (H1 & H2 & H3 & _).
    rewrite addPost_entriesOf by done. apply ensureUser_entriesOf.
  - destruct Hh as [Hh _]. unfold processVote. rewrite E.
    rewrite addVote_entriesOf by done. apply ensureUser_entriesOf.
  - destruct Hh as [Hh _]. unfold processVote. rewrite E.
    rewrite addVote_entriesOf by done. apply ensureUser_entriesOf.
  - unfold processVote. rewrite E.
    rewrite processUserVote_entriesOf. apply ensureUser_entriesOf.
  - apply ensureUser_entriesOf.
Qed.

Lemma updateNew_entriesOf (new : list Content) (v : Viewer) (h : string) :
  h ∉ new ≫= props.touchedBy →
  props.entriesOf (fst (updateNew v new)) h = props.entriesOf v h.
Proof.
  revert v. induction new as [|ct rest IH]; intros v Hh; cbn; [done|].
  cbn in Hh. rewrite elem_of_app in Hh.
  pose proof (updateItem_entriesOf v ct h ltac:(tauto)) as H1.
  destruct (updateItem v ct) as [v1 [e|]]; cbn in *; [done|].
  rewrite IH by tauto. exact H1.
Qed.

(** C4. [Update] does not read the deletion lists of the change set: the
    result is the one obtained with both lists empty, that is, replacing
    the board entry and dispatching the new items is all it does.  So for
    every hash recorded as a deleted thread or post, the representation,
    the vote aggregate, the post list and the membership in the thread
    index are after [Update] what they were before, unless the hash is a
    key that the board replacement or one of the new items writes to. *)
Theorem Update_ignores_deletions (v : Viewer) (pack : Pack)
    (new : list Content) (dT : list keys.SHA256)
    (dP : list (keys.SHA256 * keys.SHA256)) :
  let hs := {| GetChanges := {| New := new; DeletedThreads := dT;
                                DeletedPosts := dP |} |} in
  Update (Some v) pack hs
  = Update (Some v) pack
      {| GetChanges := {| New := new; DeletedThreads := [];
                          DeletedPosts := [] |} |}
  ∧ ∀ v' e h,
      Update (Some v) pack hs = (Some v', e) →
      h ∈ dT ∨ h ∈ (snd <$> dP) →
      h ∉ props.writtenByUpdate v pack new →
      props.entriesOf v' h = props.entriesOf v h.
Proof.
  intros hs. split; [reflexivity|].
  intros v' e h Hup _ Hh. unfold Update, GetPages in Hup. cbn in Hup.
  unfold props.writtenByUpdate in Hh.
  destruct (packBoardPage pack) as [bp|e1]; [|by simplify_eq].
  cbn in Hup.
  destruct (GetBoardContent bp) as [board|e1]; [|by simplify_eq].
  rewrite not_elem_of_cons, not_elem_of_app, not_elem_of_cons in Hh.
  destruct Hh as (H1 & (H2 & _) & H3).
  destruct (updateNew _ _) as [v2 e2] eqn:E. simplify_eq.
  pose proof (updateNew_entriesOf new (setBoard v board) h H3) as H4.
  rewrite E in H4. cbn [fst] in H4.
  rewrite H4. by apply setBoard_entriesOf.
Qed.

Lemma Update_ignores_deletions_witness :
  let hs := {| GetChanges :=
                 {| New := [samples.threadVote samples.U2 samples.T1 1];
                    DeletedThreads := [];
                    DeletedPosts := [(samples.T1, samples.P1)] |} |} in
  props.entriesOf
    (default samples.viewer1
       (fst (Update (Some samples.viewer1) samples.pack1 hs))) samples.P1
  = props.entriesOf samples.viewer1 samples.P1.
Proof.
  intros hs.
  destruct (Update (Some samples.viewer1) samples.pack1 hs) as [[v'|] e] eqn:E;
    cbn [fst default]; [|reflexivity].
  apply (proj2 (Update_ignores_deletions samples.viewer1 samples.pack1
                  [samples.threadVote samples.U2 samples.T1 1]
                  [] [(samples.T1, samples.P1)]) v' e samples.P1 E).
  - right. cbn. left.
  - apply (bool_decide_unpack _). vm_compute. exact I.
Defined.

(** * Further properties *)

(** The sample viewers are the results of bootstrap. *)
Lemma NewViewer_pack1 : NewViewer samples.pack1 = Ok samples.viewer1.
Proof. vm_compute. reflexivity. Qed.

Lemma NewViewer_pack2 : NewViewer samples.pack2 = Ok samples.viewer2.
Proof. vm_compute. reflexivity. Qed.

Lemma boardHashFresh_pack1 :
  props.boardHashFresh samples.boardPage1 samples.boardC.
Proof. repeat constructor; vm_compute; discriminate. Qed.

(** ** Adding threads and posts *)

Lemma checkBoardRef_None (expected : keys.PubKey) (b : Body) (what : string) :
  checkBoardRef expected b what = None ↔ GetOfBoard b = (expected, None).
Proof.
  unfold checkBoardRef. destruct (GetOfBoard b) as [got [e|]].
  - split; [done|]. intros; simplify_eq.
  - case_decide as H.
    + split; [done|]. intros; simplify_eq.
    + subst. done.
Qed.

Lemma checkThreadRef_None (expected : keys.SHA256) (b : Body) (what : string) :
  checkThreadRef expected b what = None ↔ GetOfThread b = (expected, None).
Proof.
  unfold checkThreadRef. destruct (GetOfThread b) as [got [e|]].
  - split; [done|]. intros; simplify_eq.
  - case_decide as H.
    + split; [done|]. intros; simplify_eq.
    + subst. done.
Qed.

Lemma checkBoardRef_kind (expected : keys.PubKey) (b : Body) (what : string)
    (e : boo.error) :
  checkBoardRef expected b what = Some e → boo.kind e = boo.InvalidRead.
Proof.
  unfold checkBoardRef. repeat case_match; intros; simplify_eq; done.
Qed.


(** X1. [addThread] succeeds exactly when the board reference of the body
    decodes to the public key of the viewer.  Then it returns the hash of
    the header.  Otherwise it returns an [InvalidRead] error with the zero
    hash and leaves the viewer as it was. *)
Theorem addThread_checks_board (v : Viewer) (tc : Content) (b : Body)
    (h : ContentHeaderData) :
  (snd (snd (addThread v tc b h)) = None ↔ GetOfBoard b = (pk v, None))
  ∧ (snd (snd (addThread v tc b h)) = None →
     fst (snd (addThread v tc b h)) = GetHash h)
  ∧ (∀ e, snd (snd (addThread v tc b h)) = Some e →
          boo.kind e = boo.InvalidRead
          ∧ fst (snd (addThread v tc b h)) = keys.zeroHash
          ∧ fst (addThread v tc b h) = v).
Proof.
  unfold addThread.
  destruct (checkBoardRef (pk v) b "thread") as [e0|] eqn:E; cbn.
  - split; [|split]; [|done|].
    + split; [done|]. intros H.
      apply (proj2 (checkBoardRef_None _ _ "thread")) in H. congruence.
    + intros e [= <-]. split; [|done]. by eapply checkBoardRef_kind.
  - split; [|split]; [|done..].
    split; [|done]. intros _. by apply checkBoardRef_None in E.
Qed.

Lemma addThread_checks_board_witness :
  fst (snd (addThread samples.emptyViewer samples.threadC
              (GetBody samples.threadC) (GetHeader samples.threadC)))
  = samples.T1.
Proof.
  apply (proj1 (proj2 (addThread_checks_board samples.emptyViewer
                         samples.threadC (GetBody samples.threadC)
                         (GetHeader samples.threadC)))).
  vm_compute. reflexivity.
Defined.



(** X3. A successful [addPost] stores the representation of the post under
    the hash of its header and lists that hash in the post list of the
    thread and, when the body names a parent post, in the post list of the
    parent, which is created if need be.  The board key, the thread index,
    the user index, the vote aggregates and the profiles are not touched. *)
Theorem addPost_indexes_post (v : Viewer) (t : keys.SHA256) (pc : Content)
    (b : Body) (h : ContentHeaderData) :
  snd (addPost v t pc b h) = None →
  let v' := fst (addPost v t pc b h) in
  content (c v') !! Hash h = Some (ToRep pc)
  ∧ (∃ l, PostsOfThread (i v') !! keys.Hex t = Some l
          ∧ Hash h ∈ paginated.keysOf l)
  ∧ (fst (GetOfPost b) ≠ keys.zeroHash →
     ∃ l, PostsOfThread (i v') !! keys.Hex (fst (GetOfPost b)) = Some l
          ∧ Hash h ∈ paginated.keysOf l)
  ∧ Board (i v') = Board (i v) ∧ Threads (i v') = Threads (i v)
  ∧ Users (i v') = Users (i v) ∧ votes (c v') = votes (c v)
  ∧ profiles (c v') = profiles (c v).
Proof.
  unfold addPost.
  destruct (checkBoardRef (pk v) b "post"); [done|].
  destruct (checkThreadRef t b "post"); [done|].
  destruct (PostsOfThread (i v) !! keys.Hex t) as [posts|] eqn:E; [|done].
  intros _. cbn [fst]. unfold linkReply.
  destruct (decide ((GetOfPost b).1 ≠ keys.zeroHash)) as [Hp|Hp]; cbn.
  - split; [apply lookup_insert_eq|]. split; [|split; [|done]].
    + rewrite lookup_insert.
      destruct (decide (keys.Hex (GetOfPost b).1 = keys.Hex t)) as [Heq|Hne].
      * eexists. split; [reflexivity|]. apply keysOf_Append. by right.
      * rewrite lookup_insert_eq. eexists. split; [reflexivity|].
        apply keysOf_Append. by right.
    + intros _. rewrite lookup_insert_eq. eexists. split; [reflexivity|].
      apply keysOf_Append. by right.
  - split; [apply lookup_insert_eq|]. split; [|split; [done|done]].
    rewrite lookup_insert_eq. eexists. split; [reflexivity|].
    apply keysOf_Append. by right.
Qed.

Lemma addPost_indexes_post_witness :
  let v := fst (addThread samples.emptyViewer samples.threadC
                  (GetBody samples.threadC) (GetHeader samples.threadC)) in
  content (c (fst (addPost v samples.T1 samples.postC
                     (GetBody samples.postC) (GetHeader samples.postC))))
    !! samples.P1
  = Some (ToRep samples.postC).
Proof.
  intros v.
  apply (addPost_indexes_post v samples.T1 samples.postC
           (GetBody samples.postC) (GetHeader samples.postC)).
  vm_compute. reflexivity.
Defined.

(** X4. Dispatching a thread item in [Update] always installs an empty
    post list under the hash of the thread: when the thread was indexed
    before, the posts listed for it are no longer listed. *)
Theorem updateItem_thread_resets_posts (v : Viewer) (ct : Content) :
  Type_ (GetBody ct) = V5ThreadType →
  snd (updateItem v ct) = None →
  let key := keys.Hex (GetHash (GetHeader ct)) in
  PostsOfThread (i (fst (updateItem v ct))) !! key = Some (paginated.Mapped [])
  ∧ content (c (fst (updateItem v ct))) !! key = Some (ToRep ct)
  ∧ key ∈ paginated.keysOf (Threads (i (fst (updateItem v ct)))).
Proof.
  intros Hty. unfold updateItem. rewrite Hty.
  destruct (addThread _ ct _ _) as [v2 [tHash e]] eqn:E. cbn.
  intros ->.
  assert (tHash = GetHash (GetHeader ct)) as Ht.
  { unfold addThread in E. case_match; by simplify_eq. }
  apply addThread_indexed in E as (H1 & H2 & H3). subst tHash.
  split; [exact H3|]. split; [exact H2|].
  cbn in H1. unfold paginated.Has in H1. by apply bool_decide_eq_true in H1.
Qed.

Lemma updateItem_thread_resets_posts_witness :
  PostsOfThread (i samples.viewer1) !! samples.T1
  = Some (paginated.Mapped [samples.P1; samples.R1])
  ∧ PostsOfThread (i (fst (updateItem samples.viewer1 samples.threadC)))
      !! samples.T1
    = Some (paginated.Mapped []).
Proof.
  split; [vm_compute; reflexivity|].
  apply (updateItem_thread_resets_posts samples.viewer1 samples.threadC).
  - reflexivity.
  - vm_compute. reflexivity.
Defined.

(** ** Users and profiles *)

(** X5. [ensureUser] indexes the user and never replaces a profile: the
    profile of the user is the one it had, or an empty one if it had none,
    every other profile is untouched, and [GetUserProfile] succeeds for
    the user afterwards. *)
Theorem ensureUser_keeps_profile (v : Viewer) (u : string) :
  let v' := ensureUser v u in
  HasUser (Some v') u = true
  ∧ profiles (c v') !! u = Some (props.profileOf v u)
  ∧ (∀ k, k ≠ u → profiles (c v') !! k = profiles (c v) !! k)
  ∧ GetUserProfile (Some v') {| UserPubKey := u |}
    = Ok {| outUserPubKey := u; outProfile := props.profileOf v u |}.
Proof.
  cbn zeta.
  assert (paginated.Has (Users (i (ensureUser v u))) u = true) as Hhas.
  { unfold paginated.Has. apply bool_decide_eq_true. cbn.
    apply keysOf_Append. by right. }
  assert (profiles (c (ensureUser v u)) !! u = Some (props.profileOf v u))
    as Hprof.
  { unfold ensureUser, props.profileOf. cbn.
    destruct (profiles (c v) !! u) eqn:E; cbn; [done|].
    apply lookup_insert_eq. }
  split; [exact Hhas|]. split; [exact Hprof|]. split.
  - intros k Hk. unfold ensureUser. cbn.
    destruct (profiles (c v) !! u); cbn; [done|].
    by rewrite lookup_insert_ne.
  - unfold GetUserProfile. cbn [UserPubKey]. rewrite Hhas, Hprof. done.
Qed.

Lemma ensureUser_keeps_profile_witness :
  profiles (c (ensureUser samples.viewer1 samples.U2)) !! samples.U1
  = profiles (c samples.viewer1) !! samples.U1.
Proof.
  refine (proj1 (proj2 (proj2 (ensureUser_keeps_profile samples.viewer1
                                 samples.U2))) samples.U1 _).
  vm_compute. discriminate.
Defined.

(** ** Bootstrap and update as sequences of elementary writes *)

Lemma steps_once (v v' : Viewer) : props.prim v v' → props.steps v v'.
Proof. apply rtc_once. Qed.

Lemma steps_trans (v1 v2 v3 : Viewer) :
  props.steps v1 v2 → props.steps v2 v3 → props.steps v1 v3.
Proof. apply rtc_trans. Qed.

Lemma steps_refl (v : Viewer) : props.steps v v.
Proof. apply rtc_refl. Qed.

Lemma processVote_steps (v : Viewer) (ct : Content) (b : Body)
    (h : ContentHeaderData) :
  props.steps v (fst (processVote v ct b h)).
Proof.
  unfold processVote. destruct (Type_ b); try apply steps_refl;
    apply steps_once; constructor.
Qed.

Lemma rangePosts_steps (posts : list Content) (v : Viewer) (t : keys.SHA256) :
  props.steps v (fst (rangePosts v t posts)).
Proof.
  revert v. induction posts as [|post rest IH]; intros v; cbn;
    [apply steps_refl|].
  eapply steps_trans; [apply steps_once, (props.prim_ensureUser v)|].
  pose proof (props.prim_addPost (ensureUser v (Creator (GetBody post))) t
                post (GetBody post) (GetHeader post)) as H.
  destruct (addPost _ t post _ _) as [v2 [e|]]; cbn in *;
    [by apply steps_once|].
  eapply steps_trans; [apply steps_once, H|apply IH].
Qed.

Lemma rangeThreadPages_steps (tps : list ThreadPage) (v : Viewer) :
  props.steps v (fst (rangeThreadPages v tps)).
Proof.
  revert v. induction tps as [|tp rest IH]; intros v; cbn;
    [apply steps_refl|].
  destruct (GetThread tp) as [thread|e]; [|apply steps_refl].
  eapply steps_trans; [apply steps_once, (props.prim_ensureUser v)|].
  pose proof (props.prim_addThread (ensureUser v (Creator (GetBody thread)))
                thread (GetBody thread) (GetHeader thread)) as H.
  destruct (addThread _ thread _ _) as [v2 [tHash [e|]]]; cbn in *;
    [by apply steps_once|].
  eapply steps_trans; [apply steps_once, H|].
  pose proof (rangePosts_steps (Posts tp) v2 tHash) as H2.
  destruct (rangePosts v2 tHash (Posts tp)) as [v3 [e|]]; cbn in *;
    [done|].
  eapply steps_trans; [exact H2|apply IH].
Qed.

Lemma rangeSubmissions_steps (subs : list Content) (v : Viewer) :
  props.steps v (fst (rangeSubmissions v subs)).
Proof.
  revert v. induction subs as [|ct rest IH]; intros v; cbn;
    [apply steps_refl|].
  eapply steps_trans; [apply steps_once, (props.prim_ensureUser v)|].
  pose proof (processVote_steps (ensureUser v (Creator (GetBody ct))) ct
                (GetBody ct) (GetHeader ct)) as H.
  destruct (processVote _ ct _ _) as [v2 [e|]]; cbn in *; [done|].
  eapply steps_trans; [exact H|apply IH].
Qed.

Lemma rangeUserProfiles_steps (ups : list UserProfile) (v : Viewer) :
  props.steps v (fst (rangeUserProfiles v ups)).
Proof.
  revert v. induction ups as [|uap rest IH]; intros v; cbn;
    [apply steps_refl|].
  pose proof (rangeSubmissions_steps (Submissions uap) v) as H.
  destruct (rangeSubmissions v (Submissions uap)) as [v1 [e|]]; cbn in *;
    [done|].
  eapply steps_trans; [exact H|apply IH].
Qed.

Lemma updateItem_steps (v : Viewer) (ct : Content) :
  props.steps v (fst (updateItem v ct)).
Proof.
  unfold updateItem.
  eapply steps_trans; [apply steps_once, (props.prim_ensureUser v)|].
  destruct (Type_ (GetBody ct)); cbn [fst]; try apply steps_refl.
  - pose proof (props.prim_addThread
                  (ensureUser v (Creator (GetBody ct))) ct (GetBody ct)
                  (GetHeader ct)) as H.
    destruct (addThread _ ct _ _) as [v2 [tHash e]]. by apply steps_once.
  - apply steps_once. constructor.
  - apply processVote_steps.
  - apply processVote_steps.
  - apply processVote_steps.
Qed.

Lemma updateNew_steps (new : list Content) (v : Viewer) :
  props.steps v (fst (updateNew v new)).
Proof.
  revert v. induction new as [|ct rest IH]; intros v; cbn;
    [apply steps_refl|].
  pose proof (updateItem_steps v ct) as H.
  destruct (updateItem v ct) as [v1 [e|]]; cbn in *; [done|].
  eapply steps_trans; [exact H|apply IH].
Qed.

Lemma NewViewer_steps (pack : Pack) (v : Viewer) :
  NewViewer pack = Ok v →
  ∃ board, props.steps (setBoard (props.freshViewer (Pub pack)) board) v.
Proof.
  unfold NewViewer. intros H.
  destruct (GetPages pack _) as [pages|e]; [|done].
  destruct (GetBoardContent (pBoardPage pages)) as [board|e]; [|done].
  exists board.
  pose proof (rangeThreadPages_steps (ThreadPages (pBoardPage pages))
                (setBoard (props.freshViewer (Pub pack)) board)) as H1.
  change (setBoard {| pk := Pub pack; i := NewIndexer; c := NewContainer |}
            board)
    with (setBoard (props.freshViewer (Pub pack)) board) in H.
  destruct (rangeThreadPages _ _) as [v2 [e|]]; [done|]. cbn [fst] in H1.
  pose proof (rangeUserProfiles_steps (UserProfiles (pUsersPage pages)) v2)
    as H2.
  destruct (rangeUserProfiles v2 _) as [v3 [e|]]; [done|]. simplify_eq.
  by eapply steps_trans.
Qed.

Lemma Update_steps (v v' : Viewer) (pack : Pack) (hs : Headers)
    (e : option boo.error) :
  Update (Some v) pack hs = (Some v', e) →
  v' = v ∨ ∃ board, props.steps (setBoard v board) v'.
Proof.
  unfold Update.
  destruct (GetPages pack _) as [pages|e1]; [|intros; simplify_eq; by left].
  destruct (GetBoardContent (pBoardPage pages)) as [board|e1];
    [|intros; simplify_eq; by left].
  pose proof (updateNew_steps (New (GetChanges hs)) (setBoard v board)) as H.
  destruct (updateNew _ _) as [v2 e2]. intros; simplify_eq. right. eauto.
Qed.

Lemma annotateAll_steps (hs : list string) (v v' : Viewer) (p : string) :
  annotateAll v p hs = Some v' → props.steps v v'.
Proof.
  revert v. induction hs as [|h rest IH]; intros v; cbn.
  - intros; simplify_eq. apply steps_refl.
  - destruct (annotate v p h) as [v1|] eqn:E; [|done]. intros H.
    eapply steps_trans; [apply steps_once; econstructor; exact E|by apply IH].
Qed.

Lemma GetThreadPage_steps (v v' : Viewer) (q : ThreadPageIn)
    (r : outcome ThreadPageOut) :
  GetThreadPage (Some v) q = (Some v', r) → props.steps v v'.
Proof.
  unfold GetThreadPage.
  destruct (content (c v) !! ThreadHash q);
    [|intros; simplify_eq; apply steps_refl].
  destruct (annotate v _ _) as [v1|] eqn:E1;
    [|intros; simplify_eq; apply steps_refl].
  assert (props.steps v v1) as H1 by (apply steps_once; econstructor; exact E1).
  destruct (PostsOfThread (i v1) !! ThreadHash q) as [plist|];
    [|by intros; simplify_eq].
  destruct (paginated.Get plist _) as [pHashes|e]; [|by intros; simplify_eq].
  destruct (annotateAll v1 _ _) as [v2|] eqn:E2; [|by intros; simplify_eq].
  apply annotateAll_steps in E2. intros; simplify_eq.
  by eapply steps_trans.
Qed.

Lemma GetBoardPage_steps (v v' : Viewer) (q : BoardPageIn)
    (r : outcome BoardPageOut) :
  GetBoardPage (Some v) q = (Some v', r) → props.steps v v'.
Proof.
  unfold GetBoardPage.
  destruct (paginated.Get _ _) as [tHashes|e];
    [|intros; simplify_eq; apply steps_refl].
  destruct (annotateAll v _ _) as [v1|] eqn:E;
    [|intros; simplify_eq; apply steps_refl].
  apply annotateAll_steps in E. by intros; simplify_eq.
Qed.

Lemma steps_invariant (P : Viewer → Prop) :
  (∀ v v', props.prim v v' → P v → P v') →
  ∀ v v', props.steps v v' → P v → P v'.
Proof. intros Hp v v' Hs. induction Hs; eauto. Qed.

Lemma reachable_invariant (P : Viewer → Prop) :
  (∀ k, P (props.freshViewer k)) →
  (∀ v bc, P v → P (setBoard v bc)) →
  (∀ v v', props.prim v v' → P v → P v') →
  ∀ v, props.reachable v → P v.
Proof.
  intros H0 Hb Hp v Hr.
  induction Hr as [pack v H | v v' pack hs e _ IH H | v v' q r _ IH H].
  - apply NewViewer_steps in H as [board H].
    eapply steps_invariant; eauto.
  - apply Update_steps in H as [->|[board H]]; [done|].
    eapply steps_invariant; eauto.
  - apply GetThreadPage_steps in H. eapply steps_invariant; eauto.
Qed.

(** ** What an update never removes *)

Lemma grows_refl (v : Viewer) : props.grows v v.
Proof. unfold props.grows. repeat split; auto. Qed.

Lemma grows_trans (v1 v2 v3 : Viewer) :
  props.grows v1 v2 → props.grows v2 v3 → props.grows v1 v3.
Proof.
  intros (A1 & A2 & A3 & A4 & A5 & A6 & A7 & A8)
         (B1 & B2 & B3 & B4 & B5 & B6 & B7 & B8).
  unfold props.grows. repeat split; try congruence; auto.
Qed.

Lemma is_Some_insert {A} (m : gmap string A) (k j : string) (x : A) :
  is_Some (m !! j) → is_Some (<[k := x]> m !! j).
Proof. intros H. apply lookup_insert_is_Some'. by right. Qed.

Lemma prim_grows (v v' : Viewer) : props.prim v v' → props.grows v v'.
Proof.
  destruct 1 as [v u|v tc b h|v t pc b h|v ct ty h|v ct b h|v v' p h Ha].
  - unfold ensureUser, props.grows. cbn.
    repeat split; try done.
    + intros k Hk. apply keysOf_Append. by left.
    + destruct (profiles (c v) !! u); done.
    + destruct (profiles (c v) !! u); done.
    + intros k Hk. destruct (profiles (c v) !! u); cbn; [done|].
      by apply is_Some_insert.
  - unfold addThread. case_match; [apply grows_refl|].
    unfold props.grows. cbn. repeat split; try done.
    + intros k Hk. apply keysOf_Append. by left.
    + intros k Hk. by apply is_Some_insert.
    + intros k Hk. by apply is_Some_insert.
  - unfold addPost. repeat case_match; try apply grows_refl.
    cbn [fst]. unfold linkReply, props.grows. case_match; cbn;
      repeat split; try done; intros k Hk; repeat apply is_Some_insert; done.
  - unfold addVote. case_match; [|apply grows_refl].
    unfold props.grows. cbn. repeat split; try done.
    intros k Hk. by apply is_Some_insert.
  - pose proof (processUserVote_sameContent v ct b h) as [HB HC].
    assert (pk (fst (processUserVote v ct b h)) = pk v
            ∧ Threads (i (fst (processUserVote v ct b h))) = Threads (i v)
            ∧ PostsOfThread (i (fst (processUserVote v ct b h)))
              = PostsOfThread (i v)
            ∧ votes (c (fst (processUserVote v ct b h))) = votes (c v)
            ∧ ∀ k, k ∈ paginated.keysOf (Users (i v)) →
                   k ∈ paginated.keysOf
                         (Users (i (fst (processUserVote v ct b h)))))
      as (H1 & H2 & H3 & H4 & H5).
    { unfold processUserVote. cbn [fst].
      repeat case_match; cbn;
        rewrite ?(proj2 (GetProfile_content _ _));
        repeat split; try done;
        intros k Hk; rewrite ?keysOf_Append; auto. }
    unfold props.grows. rewrite H1, HB, H2, H3, HC, H4.
    repeat split; try done.
    intros k Hk. apply processUserVote_profiles. by left.
  - destruct (annotate_spec _ _ _ _ Ha) as (H1 & H2 & H3 & H4).
    unfold props.grows. rewrite H1, H2, H3.
    repeat split; try done.
    + intros k Hk. rewrite H4. case_decide; [|done]. subst.
      unfold props.annotated. destruct Hk as [r ->].
      destruct (votes (c v) !! h); done.
    + unfold annotate in Ha. repeat case_match; by simplify_eq.
Qed.

Lemma steps_grows (v v' : Viewer) : props.steps v v' → props.grows v v'.
Proof.
  induction 1 as [|v1 v2 v3 H _ IH]; [apply grows_refl|].
  eapply grows_trans; [by apply prim_grows|exact IH].
Qed.



(** ** User votes touch one pair *)

Lemma profileOf_GetProfile (d : Container) (k x : string) :
  default NewProfile (profiles (GetProfile d k) !! x)
  = default NewProfile (profiles d !! x).
Proof.
  rewrite GetProfile_lookup. case_decide; [|done]. subst. done.
Qed.

Lemma profileOf_onProfile (d : Container) (f : Profile → Profile)
    (k x : string) :
  is_Some (profiles d !! k) →
  default NewProfile (profiles (onProfile k f d) !! x)
  = if decide (x = k) then f (default NewProfile (profiles d !! x))
    else default NewProfile (profiles d !! x).
Proof.
  intros [p Hp]. rewrite onProfile_lookup.
  destruct (decide (x = k)) as [->|Hne].
  - rewrite decide_True by done. rewrite Hp. done.
  - rewrite decide_False by done. done.
Qed.

Lemma is_Some_onProfile2 (d : Container) (f : Profile → Profile) (k j : string) :
  is_Some (profiles d !! j) → is_Some (profiles (onProfile k f d) !! j).
Proof.
  intros H. rewrite onProfile_lookup. case_decide; [|done].
  by apply fmap_is_Some.
Qed.

Lemma is_Some_GetProfile_here (d : Container) (k : string) :
  is_Some (profiles (GetProfile d k) !! k).
Proof. rewrite GetProfile_lookup. rewrite decide_True by done. done. Qed.

Lemma is_Some_GetProfile_mono (d : Container) (k j : string) :
  is_Some (profiles d !! j) → is_Some (profiles (GetProfile d k) !! j).
Proof. intros H. rewrite GetProfile_lookup. case_decide; done. Qed.

Create HintDb profs.
#[local] Hint Resolve is_Some_onProfile2 is_Some_GetProfile_here
  is_Some_GetProfile_mono : profs.

(** ** User votes touch one pair *)

(** The six relation sets of any profile after one user-vote. *)
Lemma processUserVote_sets (v : Viewer) (ct : Content) (b : Body)
    (h : ContentHeaderData) (x : string) :
  let v' := fst (processUserVote v ct b h) in
  let P := props.profileOf v x in
  let P' := props.profileOf v' x in
  let add (on : bool) (k : string) (S : gset string) :=
    if on then {[k]} ∪ S else S in
  let trust := bool_decide (Value b = 1%Z) && HasTag b TrustTag in
  let spam := bool_decide (Value b = (-1)%Z) && HasTag b SpamTag in
  let block := bool_decide (Value b = (-1)%Z) && HasTag b BlockTag in
  (Trusted P' = if decide (x = Creator b)
                then add trust (OfUser b) (Trusted P ∖ {[OfUser b]})
                else Trusted P)
  ∧ (MarkedAsSpam P' = if decide (x = Creator b)
                       then add spam (OfUser b)
                              (MarkedAsSpam P ∖ {[OfUser b]})
                       else MarkedAsSpam P)
  ∧ (Blocked P' = if decide (x = Creator b)
                  then add block (OfUser b) (Blocked P ∖ {[OfUser b]})
                  else Blocked P)
  ∧ (TrustedBy P' = if decide (x = OfUser b)
                    then add trust (Creator b)
                           (TrustedBy P ∖ {[Creator b]})
                    else TrustedBy P)
  ∧ (MarkedAsSpamBy P' = if decide (x = OfUser b)
                         then add spam (Creator b)
                                (MarkedAsSpamBy P ∖ {[Creator b]})
                         else MarkedAsSpamBy P)
  ∧ (BlockedBy P' = if decide (x = OfUser b)
                    then add block (Creator b)
                           (BlockedBy P ∖ {[Creator b]})
                    else BlockedBy P).
Proof.
  cbn zeta. unfold processUserVote, props.profileOf. cbn [fst].
  destruct (HasTag b TrustTag), (HasTag b SpamTag), (HasTag b BlockTag);
    destruct (decide (Value b = 1%Z)) as [E1|E1];
    destruct (decide (Value b = (-1)%Z)) as [E2|E2];
    destruct (decide (Value b = 0%Z)) as [E3|E3]; try lia;
    rewrite ?(bool_decide_eq_true_2 _ E1), ?(bool_decide_eq_false_2 _ E1),
            ?(bool_decide_eq_true_2 _ E2), ?(bool_decide_eq_false_2 _ E2);
    generalize (Creator b) as cr, (OfUser b) as tg; intros cr tg;
    cbn [c withC withI i pk andb];
    rewrite !profileOf_onProfile by auto 10 with profs;
    rewrite !profileOf_GetProfile;
    destruct (decide (x = cr)) as [H1|H1];
    destruct (decide (x = tg)) as [H3|H3];
    cbn; repeat split; reflexivity.
Qed.

(** X7. A user-vote changes the relations of its own (creator, target)
    pair only: for every other pair of users, each of the six relation
    sets says after the vote what it said before. *)
Theorem processUserVote_other_pairs (v : Viewer) (ct : Content) (b : Body)
    (h : ContentHeaderData) (x y : string) :
  x ≠ Creator b ∨ y ≠ OfUser b →
  let v' := fst (processUserVote v ct b h) in
  (y ∈ Trusted (props.profileOf v' x) ↔ y ∈ Trusted (props.profileOf v x))
  ∧ (y ∈ MarkedAsSpam (props.profileOf v' x)
     ↔ y ∈ MarkedAsSpam (props.profileOf v x))
  ∧ (y ∈ Blocked (props.profileOf v' x) ↔ y ∈ Blocked (props.profileOf v x))
  ∧ (x ∈ TrustedBy (props.profileOf v' y)
     ↔ x ∈ TrustedBy (props.profileOf v y))
  ∧ (x ∈ MarkedAsSpamBy (props.profileOf v' y)
     ↔ x ∈ MarkedAsSpamBy (props.profileOf v y))
  ∧ (x ∈ BlockedBy (props.profileOf v' y)
     ↔ x ∈ BlockedBy (props.profileOf v y)).
Proof.
  intros Hne. cbn zeta.
  destruct (processUserVote_sets v ct b h x) as (A1 & A2 & A3 & _).
  destruct (processUserVote_sets v ct b h y) as (_ & _ & _ & B1 & B2 & B3).
  rewrite A1, A2, A3, B1, B2, B3. clear A1 A2 A3 B1 B2 B3.
  destruct (decide (x = Creator b)) as [Hx|Hx];
    destruct (decide (y = OfUser b)) as [Hy|Hy];
    try (exfalso; destruct Hne; done);
    repeat match goal with
           | |- context [if ?t then _ else _] => destruct t
           end;
    repeat split; intros; set_unfold; intuition congruence.
Qed.

Lemma processUserVote_other_pairs_witness :
  let vote := samples.userVote samples.U1 samples.U2 (-1) [SpamTag] in
  samples.U1 ∈ Trusted (props.profileOf
                          (fst (processUserVote samples.viewer2 vote
                                  (GetBody vote) (GetHeader vote)))
                          samples.U2)
  ↔ samples.U1 ∈ Trusted (props.profileOf samples.viewer2 samples.U2).
Proof.
  intros vote.
  apply (processUserVote_other_pairs samples.viewer2 vote (GetBody vote)
           (GetHeader vote) samples.U2 samples.U1).
  left. vm_compute. discriminate.
Defined.

Lemma profileOf_ensureUser (v : Viewer) (u x : string) :
  props.profileOf (ensureUser v u) x = props.profileOf v x.
Proof.
  unfold props.profileOf, ensureUser. cbn.
  destruct (profiles (c v) !! u) eqn:E; cbn; [done|].
  rewrite lookup_insert. case_decide; [|done]. subst. by rewrite E.
Qed.

Lemma mirrored_sameUsers (v v' : Viewer) :
  props.sameUsers v v' → props.mirrored v → props.mirrored v'.
Proof.
  intros [_ HP] Hm x y. unfold props.profileOf. rewrite HP. apply Hm.
Qed.

Lemma mirrored_prim (v v' : Viewer) :
  props.prim v v' → props.mirrored v → props.mirrored v'.
Proof.
  destruct 1 as [v u|v tc b h|v t pc b h|v ct ty h|v ct b h|v v' p h Ha];
    intros Hm.
  - intros x y. rewrite !profileOf_ensureUser. apply Hm.
  - eapply mirrored_sameUsers; [apply addThread_sameUsers|done].
  - eapply mirrored_sameUsers; [apply addPost_sameUsers|done].
  - eapply mirrored_sameUsers; [apply addVote_sameUsers|done].
  - intros x y. destruct (Hm x y) as (M1 & M2 & M3).
    destruct (processUserVote_sets v ct b h x) as (A1 & A2 & A3 & _).
    destruct (processUserVote_sets v ct b h y) as (_ & _ & _ & B1 & B2 & B3).
    rewrite A1, A2, A3, B1, B2, B3. clear A1 A2 A3 B1 B2 B3.
    destruct (decide (x = Creator b)) as [Hx|Hx];
      destruct (decide (y = OfUser b)) as [Hy|Hy];
      repeat match goal with
             | |- context [if ?t then _ else _] => destruct t
             end;
      repeat split; intros; set_unfold; intuition congruence.
  - eapply mirrored_sameUsers; [by eapply annotate_sameUsers|done].
Qed.

(** X8. In every reachable viewer state the outgoing and the incoming
    relation sets agree: a user is in another's trusted (spam-marked,
    blocked) set exactly when the other is in its trusted-by (spam-marked-
    by, blocked-by) set. *)
Theorem relations_are_mirrored (v : Viewer) :
  props.reachable v → props.mirrored v.
Proof.
  apply reachable_invariant.
  - intros k x y. unfold props.profileOf. cbn. rewrite lookup_empty. cbn.
    repeat split; intros H; by apply not_elem_of_empty in H.
  - intros w bc. apply mirrored_sameUsers, setBoard_sameUsers.
  - apply mirrored_prim.
Qed.

Lemma relations_are_mirrored_witness :
  samples.U1 ∈ Trusted (props.profileOf samples.viewer2 samples.U2)
  ↔ samples.U2 ∈ TrustedBy (props.profileOf samples.viewer2 samples.U1).
Proof.
  pose proof (relations_are_mirrored samples.viewer2
                (props.reach_NewViewer samples.pack2 samples.viewer2
                   NewViewer_pack2)
                samples.U2 samples.U1) as (H & _ & _).
  exact H.
Defined.

(** ** Incremental update and bootstrap *)

Lemma updateNew_app (l1 l2 : list Content) (v : Viewer) :
  updateNew v (l1 ++ l2)
  = match updateNew v l1 with
    | (v1, None) => updateNew v1 l2
    | r => r
    end.
Proof.
  revert v. induction l1 as [|ct rest IH]; intros v; cbn; [done|].
  destruct (updateItem v ct) as [v1 [e|]]; [done|apply IH].
Qed.

Lemma addPost_success_refs (v : Viewer) (t : keys.SHA256) (pc : Content)
    (b : Body) (h : ContentHeaderData) :
  snd (addPost v t pc b h) = None →
  GetOfBoard b = (pk v, None) ∧ GetOfThread b = (t, None).
Proof.
  unfold addPost.
  destruct (checkBoardRef (pk v) b "post") eqn:E1; [done|].
  destruct (checkThreadRef t b "post") eqn:E2; [done|].
  intros _. split.
  - by apply checkBoardRef_None in E1.
  - by apply checkThreadRef_None in E2.
Qed.

Lemma rangePosts_as_update (posts : list Content) (v v' : Viewer)
    (t : keys.SHA256) :
  Forall (λ p, Type_ (GetBody p) = V5PostType) posts →
  rangePosts v t posts = (v', None) → updateNew v posts = (v', None).
Proof.
  intros Hty. revert v. induction Hty as [|post rest Hp _ IH]; intros v; cbn;
    [done|].
  unfold updateItem. rewrite Hp.
  destruct (addPost (ensureUser v (Creator (GetBody post))) t post
              (GetBody post) (GetHeader post)) as [v2 [e|]] eqn:E; [done|].
  pose proof (addPost_success_refs _ _ _ _ _ (f_equal snd E)) as [_ Ht].
  rewrite Ht. cbn [fst]. rewrite E. apply IH.
Qed.

Lemma rangeThreadPages_as_update (tps : list ThreadPage) (v v' : Viewer) :
  Forall (λ tp,
            (∀ t, GetThread tp = Ok t → Type_ (GetBody t) = V5ThreadType)
            ∧ Forall (λ p, Type_ (GetBody p) = V5PostType) (Posts tp)) tps →
  rangeThreadPages v tps = (v', None) →
  updateNew v (tps ≫= props.pageContents) = (v', None).
Proof.
  intros Hty. revert v.
  induction Hty as [|tp rest [Ht Hps] _ IH]; intros v; cbn; [done|].
  unfold props.pageContents at 1.
  destruct (GetThread tp) as [thread|e]; [|done].
  cbn. unfold updateItem. rewrite (Ht thread eq_refl).
  destruct (addThread (ensureUser v (Creator (GetBody thread))) thread
              (GetBody thread) (GetHeader thread)) as [v2 [tHash [e|]]];
    [done|].
  destruct (rangePosts v2 tHash (Posts tp)) as [v3 [e|]] eqn:E; [done|].
  intros H. rewrite updateNew_app.
  rewrite (rangePosts_as_update _ _ _ _ Hps E). by apply IH.
Qed.

Lemma rangeSubmissions_as_update (subs : list Content) (v v' : Viewer) :
  Forall (λ s, props.isVoteType (Type_ (GetBody s))) subs →
  rangeSubmissions v subs = (v', None) → updateNew v subs = (v', None).
Proof.
  intros Hty. revert v. induction Hty as [|ct rest Hp _ IH]; intros v; cbn;
    [done|].
  unfold updateItem.
  destruct (processVote (ensureUser v (Creator (GetBody ct))) ct (GetBody ct)
              (GetHeader ct)) as [v2 [e|]] eqn:E; [done|].
  destruct Hp as [-> | [-> | ->]]; cbn [fst]; apply IH.
Qed.

Lemma rangeUserProfiles_as_update (ups : list UserProfile) (v v' : Viewer) :
  Forall (λ uap, Forall (λ s, props.isVoteType (Type_ (GetBody s)))
                   (Submissions uap)) ups →
  rangeUserProfiles v ups = (v', None) →
  updateNew v (ups ≫= Submissions) = (v', None).
Proof.
  intros Hty. revert v. induction Hty as [|uap rest Hp _ IH]; intros v; cbn;
    [done|].
  destruct (rangeSubmissions v (Submissions uap)) as [v1 [e|]] eqn:E; [done|].
  intros H. rewrite updateNew_app.
  rewrite (rangeSubmissions_as_update _ _ _ Hp E). by apply IH.
Qed.

Lemma setBoard_again (v : Viewer) (bc : Content) :
  setBoard (setBoard v bc) bc = setBoard v bc.
Proof.
  unfold setBoard. cbn. f_equal. f_equal.
  rewrite insert_delete_eq, insert_insert_eq. done.
Qed.

(** X9. Incremental update rebuilds what bootstrap builds.  Take a
    snapshot whose contents carry the type tag of their place and from
    which [NewViewer] succeeds.  Bootstrapping from the board alone and
    then updating with the change set that lists, as new, every thread
    followed by its posts and then every submission, succeeds and yields
    exactly the viewer of the full bootstrap - whatever the deletion
    lists say. *)
Theorem Update_rebuilds_bootstrap (pack : Pack) (bp : BoardPage)
    (up : UsersPage) (v : Viewer) :
  packBoardPage pack = Ok bp →
  packUsersPage pack = Ok up →
  props.wellTyped bp up →
  NewViewer pack = Ok v →
  ∃ v0,
    NewViewer (props.boardOnly pack) = Ok v0
    ∧ ∀ dT dP,
        Update (Some v0) pack
          {| GetChanges := {| New := props.newOf bp up; DeletedThreads := dT;
                              DeletedPosts := dP |} |}
        = (Some v, None).
Proof.
  intros Hbp Hup [Hty1 Hty2] Hnew.
  unfold NewViewer, GetPages in Hnew. cbn in Hnew.
  rewrite Hbp, Hup in Hnew. cbn in Hnew.
  destruct (GetBoardContent bp) as [board|e] eqn:Hboard; [|done].
  set (v0 := setBoard _ board) in Hnew.
  exists v0. split.
  - unfold NewViewer, GetPages, props.boardOnly. cbn. rewrite Hbp. cbn.
    rewrite Hboard. done.
  - intros dT dP. unfold Update, GetPages. cbn. rewrite Hbp. cbn.
    rewrite Hboard. unfold v0. rewrite setBoard_again. fold v0.
    unfold props.newOf. rewrite updateNew_app.
    destruct (rangeThreadPages v0 (ThreadPages bp)) as [v2 [e|]] eqn:E1;
      [done|].
    rewrite (rangeThreadPages_as_update _ _ _ Hty1 E1).
    destruct (rangeUserProfiles v2 (UserProfiles up)) as [v3 [e|]] eqn:E2;
      [done|].
    rewrite (rangeUserProfiles_as_update _ _ _ Hty2 E2). by simplify_eq.
Qed.

Lemma Update_rebuilds_bootstrap_witness :
  ∃ v0,
    NewViewer (props.boardOnly samples.pack2) = Ok v0
    ∧ ∀ dT dP,
        Update (Some v0) samples.pack2
          {| GetChanges :=
               {| New := props.newOf samples.boardPage1 samples.usersPage2;
                  DeletedThreads := dT; DeletedPosts := dP |} |}
        = (Some samples.viewer2, None).
Proof.
  assert (props.wellTyped samples.boardPage1 samples.usersPage2) as Hty.
  { split.
    - constructor; [|constructor].
      split; [intros t [= <-]; reflexivity|repeat constructor].
    - constructor; [|constructor]. constructor; [|constructor].
      right. right. reflexivity. }
  exact (Update_rebuilds_bootstrap samples.pack2 samples.boardPage1
           samples.usersPage2 samples.viewer2 eq_refl eq_refl Hty
           NewViewer_pack2).
Defined.

Lemma NewViewer_boardInPlace (pack : Pack) (bp : BoardPage) (board : Content)
    (v : Viewer) :
  packBoardPage pack = Ok bp →
  GetBoardContent bp = Ok board →
  props.boardHashFresh bp board →
  NewViewer pack = Ok v →
  pk v = Pub pack
  ∧ props.boardInPlace (Hash (GetHeader board))
      (setPubKey (ToRep board) (keys.Hex (Pub pack))) v.
Proof.
  intros Hbp Hboard Hfresh Hnew.
  pose proof (NewViewer_steps _ _ Hnew) as [b0 Hs].
  apply steps_grows in Hs as (Hpk & _). cbn in Hpk. split; [exact Hpk|].
  unfold NewViewer, GetPages in Hnew. cbn in Hnew. rewrite Hbp in Hnew.
  destruct (packUsersPage pack) as [up|e]; [|done]. cbn in Hnew.
  rewrite Hboard in Hnew.
  set (v0 := setBoard _ board) in Hnew.
  assert (props.boardInPlace (Hash (GetHeader board))
            (setPubKey (ToRep board) (keys.Hex (Pub pack))) v0) as H0.
  { split; [done|]. split; [apply lookup_insert_eq|].
    intros k r Hkr Hne. cbn in Hkr.
    rewrite lookup_insert_ne in Hkr by done.
    apply lookup_delete_Some in Hkr as [_ Hkr].
    by rewrite lookup_empty in Hkr. }
  pose proof (rangeThreadPages_boardInPlace _ _ _ v0 Hfresh H0) as H1.
  destruct (rangeThreadPages v0 _) as [v2 [e|]]; [done|]. cbn in H1.
  pose proof (rangeUserProfiles_sameContent (UserProfiles up) v2) as H2.
  destruct (rangeUserProfiles v2 _) as [v3 [e|]]; [done|]. cbn in H2.
  simplify_eq. eapply sameContent_boardInPlace; eauto.
Qed.

(** X10. Refreshing with nothing new changes nothing: on the viewer
    bootstrapped from a snapshot (in which the board's hash is the hash of
    no thread or post), [Update] with the same snapshot and an empty list
    of new contents succeeds and returns the viewer unchanged. *)
Theorem Update_same_snapshot_is_identity (pack : Pack) (bp : BoardPage)
    (board : Content) (v : Viewer) (dT : list keys.SHA256)
    (dP : list (keys.SHA256 * keys.SHA256)) :
  packBoardPage pack = Ok bp →
  GetBoardContent bp = Ok board →
  props.boardHashFresh bp board →
  NewViewer pack = Ok v →
  Update (Some v) pack
    {| GetChanges := {| New := []; DeletedThreads := dT;
                        DeletedPosts := dP |} |}
  = (Some v, None).
Proof.
  intros Hbp Hboard Hfresh Hnew.
  destruct (NewViewer_boardInPlace _ _ _ _ Hbp Hboard Hfresh Hnew)
    as (Hpk & HB & Hb & _).
  unfold Update, GetPages. cbn. rewrite Hbp. cbn. rewrite Hboard. cbn.
  f_equal. f_equal. unfold setBoard.
  destruct v as [k [B T PT U] [ct vt pf]]. cbn in *. subst.
  f_equal. unfold withContent. cbn. f_equal.
  rewrite insert_delete_eq. by apply insert_id.
Qed.

Lemma Update_same_snapshot_is_identity_witness :
  Update (Some samples.viewer1) samples.pack1
    {| GetChanges := {| New := []; DeletedThreads := [samples.T1];
                        DeletedPosts := [] |} |}
  = (Some samples.viewer1, None).
Proof.
  exact (Update_same_snapshot_is_identity samples.pack1 samples.boardPage1
           samples.boardC samples.viewer1 [samples.T1] [] eq_refl eq_refl
           boardHashFresh_pack1 NewViewer_pack1).
Defined.

Lemma rangePosts_checked (posts : list Content) (v v' : Viewer)
    (t : keys.SHA256) :
  rangePosts v t posts = (v', None) →
  Forall (λ post, GetOfBoard (GetBody post) = (pk v, None)
                  ∧ GetOfThread (GetBody post) = (t, None)) posts.
Proof.
  revert v. induction posts as [|post rest IH]; intros v; cbn; [done|].
  destruct (addPost (ensureUser v (Creator (GetBody post))) t post
              (GetBody post) (GetHeader post)) as [v2 [e|]] eqn:E; [done|].
  intros H. constructor.
  - exact (addPost_success_refs _ _ _ _ _ (f_equal snd E)).
  - assert (pk v2 = pk v) as <-.
    { pose proof (prim_grows _ _ (props.prim_addPost
                    (ensureUser v (Creator (GetBody post))) t post
                    (GetBody post) (GetHeader post))) as (Hpk & _).
      rewrite E in Hpk. exact Hpk. }
    by apply IH.
Qed.

Lemma rangeThreadPages_checked (tps : list ThreadPage) (v v' : Viewer) :
  rangeThreadPages v tps = (v', None) →
  Forall (props.refsMatch (pk v)) tps.
Proof.
  revert v. induction tps as [|tp rest IH]; intros v; cbn; [done|].
  destruct (GetThread tp) as [thread|e] eqn:Et; [|done].
  destruct (addThread (ensureUser v (Creator (GetBody thread))) thread
              (GetBody thread) (GetHeader thread)) as [v2 [tHash [e|]]] eqn:E;
    [done|].
  destruct (rangePosts v2 tHash (Posts tp)) as [v3 [e|]] eqn:E2; [done|].
  intros H.
  assert (checkBoardRef (pk v) (GetBody thread) "thread" = None
          ∧ tHash = GetHash (GetHeader thread) ∧ pk v2 = pk v)
    as (Hc & -> & Hpk2).
  { unfold addThread in E. cbn in E.
    destruct (checkBoardRef (pk v) (GetBody thread) "thread"); by simplify_eq. }
  assert (pk v3 = pk v) as Hpk3.
  { pose proof (steps_grows _ _ (rangePosts_steps (Posts tp) v2
                                   (GetHash (GetHeader thread)))) as (Hp & _).
    rewrite E2 in Hp. cbn in Hp. congruence. }
  constructor.
  - exists thread. split; [exact Et|]. split.
    + by apply checkBoardRef_None in Hc.
    + rewrite <- Hpk2. by eapply rangePosts_checked.
  - rewrite <- Hpk3. by apply IH.
Qed.

(** X11. Bootstrap validates every reference: when [NewViewer] succeeds,
    every thread page of the snapshot could be read, every thread names
    the board of the snapshot, and every post names that board and the
    thread it is stored under.  One mismatch makes [NewViewer] fail. *)
Theorem NewViewer_validates_references (pack : Pack) (bp : BoardPage)
    (v : Viewer) :
  packBoardPage pack = Ok bp →
  NewViewer pack = Ok v →
  pk v = Pub pack ∧ Forall (props.refsMatch (Pub pack)) (ThreadPages bp).
Proof.
  intros Hbp Hnew.
  pose proof (NewViewer_steps _ _ Hnew) as [b0 Hs].
  apply steps_grows in Hs as (Hpk & _). cbn in Hpk. split; [exact Hpk|].
  unfold NewViewer, GetPages in Hnew. cbn in Hnew. rewrite Hbp in Hnew.
  destruct (packUsersPage pack) as [up|e]; [|done]. cbn in Hnew.
  destruct (GetBoardContent bp) as [board|e]; [|done].
  destruct (rangeThreadPages _ (ThreadPages bp)) as [v2 [e|]] eqn:E; [done|].
  apply rangeThreadPages_checked in E. exact E.
Qed.

Lemma NewViewer_validates_references_witness :
  Forall (props.refsMatch samples.PK1) (ThreadPages samples.boardPage1).
Proof.
  exact (proj2 (NewViewer_validates_references samples.pack1
                  samples.boardPage1 samples.viewer1 eq_refl
                  NewViewer_pack1)).
Defined.

Lemma addPost_success_content (v : Viewer) (t : keys.SHA256) (pc : Content)
    (b : Body) (h : ContentHeaderData) :
  snd (addPost v t pc b h) = None →
  is_Some (content (c (fst (addPost v t pc b h))) !! Hash h).
Proof.
  unfold addPost. repeat case_match; try done. intros _. cbn [fst].
  unfold linkReply. case_match; cbn; rewrite lookup_insert_eq; done.
Qed.

Lemma ensureUser_indexed (v : Viewer) (u : string) :
  u ∈ paginated.keysOf (Users (i (ensureUser v u))).
Proof. cbn. apply keysOf_Append. by right. Qed.

Lemma rangePosts_indexes (posts : list Content) (v v' : Viewer)
    (t : keys.SHA256) :
  rangePosts v t posts = (v', None) →
  ∀ post, post ∈ posts →
    is_Some (content (c v') !! Hash (GetHeader post))
    ∧ Creator (GetBody post) ∈ paginated.keysOf (Users (i v')).
Proof.
  revert v. induction posts as [|p0 rest IH]; intros v; cbn.
  { intros _ post Hin. by apply elem_of_nil in Hin. }
  pose proof (prim_grows _ _ (props.prim_addPost
                (ensureUser v (Creator (GetBody p0))) t p0 (GetBody p0)
                (GetHeader p0))) as Hg.
  pose proof (addPost_success_content
                (ensureUser v (Creator (GetBody p0))) t p0 (GetBody p0)
                (GetHeader p0)) as Hc.
  destruct (addPost _ t p0 _ _) as [v2 [e|]]; [done|]. cbn in Hg, Hc.
  intros H post Hin.
  pose proof (steps_grows _ _ (rangePosts_steps rest v2 t)) as Hg2.
  rewrite H in Hg2. cbn in Hg2.
  apply elem_of_cons in Hin as [->|Hin]; [|by eapply IH].
  destruct Hg as (_ & _ & _ & GU & _).
  destruct Hg2 as (_ & _ & _ & GU2 & _ & GC2 & _).
  split; [apply GC2, Hc; done|].
  apply GU2, GU, ensureUser_indexed.
Qed.

Lemma rangeThreadPages_indexes (tps : list ThreadPage) (v v' : Viewer) :
  rangeThreadPages v tps = (v', None) →
  ∀ tp thread, tp ∈ tps → GetThread tp = Ok thread →
    (keys.Hex (GetHash (GetHeader thread))
       ∈ paginated.keysOf (Threads (i v'))
     ∧ is_Some (content (c v') !! keys.Hex (GetHash (GetHeader thread)))
     ∧ Creator (GetBody thread) ∈ paginated.keysOf (Users (i v')))
    ∧ ∀ post, post ∈ Posts tp →
        is_Some (content (c v') !! Hash (GetHeader post))
        ∧ Creator (GetBody post) ∈ paginated.keysOf (Users (i v')).
Proof.
  revert v. induction tps as [|tp0 rest IH]; intros v; cbn.
  { intros _ tp thread Hin. by apply elem_of_nil in Hin. }
  destruct (GetThread tp0) as [th0|e] eqn:Et; [|done].
  pose proof (prim_grows _ _ (props.prim_addThread
                (ensureUser v (Creator (GetBody th0))) th0 (GetBody th0)
                (GetHeader th0))) as Hg.
  destruct (addThread _ th0 _ _) as [v2 [tHash [e|]]] eqn:E; [done|].
  cbn in Hg.
  assert (tHash = GetHash (GetHeader th0)) as ->.
  { unfold addThread in E. case_match; by simplify_eq. }
  apply addThread_indexed in E as (H1 & H2 & _).
  pose proof (steps_grows _ _ (rangePosts_steps (Posts tp0) v2
                                 (GetHash (GetHeader th0)))) as Hg3.
  destruct (rangePosts v2 _ (Posts tp0)) as [v3 [e|]] eqn:Ep; [done|].
  cbn in Hg3.
  pose proof (rangePosts_indexes _ _ _ _ Ep) as Hposts.
  intros H tp thread Hin Hth.
  pose proof (steps_grows _ _ (rangeThreadPages_steps rest v3)) as Hg4.
  rewrite H in Hg4. cbn in Hg4.
  apply elem_of_cons in Hin as [->|Hin]; [|by eapply IH].
  rewrite Et in Hth. simplify_eq.
  destruct Hg as (_ & _ & _ & GU & _).
  destruct Hg3 as (_ & _ & GT3 & GU3 & _ & GC3 & _).
  destruct Hg4 as (_ & _ & GT4 & GU4 & _ & GC4 & _).
  cbn in H1. unfold paginated.Has in H1. apply bool_decide_eq_true in H1.
  split; [split; [|split]|].
  - by apply GT4, GT3.
  - apply GC4, GC3. rewrite H2. done.
  - apply GU4, GU3, GU, ensureUser_indexed.
  - intros post Hp. destruct (Hposts post Hp) as [Hc Hu].
    split; [by apply GC4|by apply GU4].
Qed.

(** X12. Bootstrap indexes everything it walks: after a successful
    [NewViewer], every thread of the snapshot is in the thread index and
    has a representation, every post has a representation, and the creator
    of each of them is an indexed user whose profile [GetUserProfile]
    returns. *)
Theorem NewViewer_indexes_snapshot (pack : Pack) (bp : BoardPage)
    (v : Viewer) :
  packBoardPage pack = Ok bp →
  NewViewer pack = Ok v →
  ∀ tp thread, tp ∈ ThreadPages bp → GetThread tp = Ok thread →
    let tKey := keys.Hex (GetHash (GetHeader thread)) in
    HasThread (Some v) tKey = true
    ∧ HasContent (Some v) tKey = true
    ∧ HasUser (Some v) (Creator (GetBody thread)) = true
    ∧ (∃ out, GetUserProfile (Some v)
                {| UserPubKey := Creator (GetBody thread) |} = Ok out)
    ∧ ∀ post, post ∈ Posts tp →
        HasContent (Some v) (Hash (GetHeader post)) = true
        ∧ HasUser (Some v) (Creator (GetBody post)) = true
        ∧ ∃ out, GetUserProfile (Some v)
                   {| UserPubKey := Creator (GetBody post) |} = Ok out.
Proof.
  intros Hbp Hnew tp thread Hin Hth tKey.
  pose proof (NewViewer_usersHaveProfiles _ _ Hnew) as Hprof.
  unfold NewViewer, GetPages in Hnew. cbn in Hnew. rewrite Hbp in Hnew.
  destruct (packUsersPage pack) as [up|e]; [|done]. cbn in Hnew.
  destruct (GetBoardContent bp) as [board|e]; [|done].
  destruct (rangeThreadPages _ (ThreadPages bp)) as [v2 [e|]] eqn:E; [done|].
  pose proof (steps_grows _ _ (rangeUserProfiles_steps (UserProfiles up) v2))
    as (_ & _ & GT & GU & _ & GC & _).
  destruct (rangeUserProfiles v2 _) as [v3 [e|]]; [done|]. simplify_eq.
  cbn in GT, GU, GC.
  destruct (rangeThreadPages_indexes _ _ _ E tp thread Hin Hth)
    as ((T1 & T2 & T3) & Hposts).
  assert (∀ u, u ∈ paginated.keysOf (Users (i v)) →
               HasUser (Some v) u = true
               ∧ ∃ out, GetUserProfile (Some v) {| UserPubKey := u |} = Ok out)
    as Huser.
  { intros u Hu.
    assert (paginated.Has (Users (i v)) u = true) as Hhas
      by (by apply bool_decide_eq_true).
    split; [exact Hhas|].
    unfold GetUserProfile. cbn [UserPubKey]. rewrite Hhas. cbn.
    destruct (Hprof u Hu) as [p ->]. eauto. }
  cbn. split; [apply bool_decide_eq_true; by apply GT|].
  split; [apply bool_decide_eq_true; by apply GC|].
  destruct (Huser _ (GU _ T3)) as [U1 U2].
  split; [exact U1|]. split; [exact U2|].
  intros post Hp. destruct (Hposts post Hp) as [P1 P2].
  split; [apply bool_decide_eq_true; by apply GC|].
  apply Huser. by apply GU.
Qed.

Lemma NewViewer_indexes_snapshot_witness :
  HasThread (Some samples.viewer1) samples.T1 = true.
Proof.
  refine (proj1 (NewViewer_indexes_snapshot samples.pack1 samples.boardPage1
                   samples.viewer1 eq_refl NewViewer_pack1
                   {| GetThread := Ok samples.threadC;
                      Posts := [samples.postC; samples.replyC] |}
                   samples.threadC _ eq_refl)).
  left.
Defined.

Lemma stripVotes_annotated (v : Viewer) (p k : string) :
  props.stripVotes <$> props.annotated v p k
  = props.stripVotes <$> content (c v) !! k.
Proof.
  unfold props.annotated.
  destruct (content (c v) !! k) as [r|], (votes (c v) !! k) as [vr|]; done.
Qed.

Lemma annotateAll_only_votes (hs : list string) (v v' : Viewer) (p : string) :
  annotateAll v p hs = Some v' →
  pk v' = pk v ∧ i v' = i v ∧ votes (c v') = votes (c v)
  ∧ profiles (c v') = profiles (c v)
  ∧ ∀ k, props.stripVotes <$> content (c v') !! k
         = props.stripVotes <$> content (c v) !! k.
Proof.
  intros H. destruct (annotateAll_spec _ _ _ _ H) as (H1 & H2 & H3 & H4).
  destruct (annotateAll_sameUsers _ _ _ _ H) as [_ H5].
  do 4 (split; [done|]). intros k. rewrite H4.
  case_decide; [apply stripVotes_annotated|done].
Qed.

(** X13. The two page queries write nothing but vote views: after
    [GetBoardPage] or [GetThreadPage], whatever they return, the indexer,
    the vote aggregates and the profiles are what they were, and every
    stored representation has the public key, the header and the body it
    had - only its [Votes] field may differ. *)
Theorem page_queries_write_only_votes (v v' : Viewer) :
  (∃ q r, GetBoardPage (Some v) q = (Some v', r))
  ∨ (∃ q r, GetThreadPage (Some v) q = (Some v', r)) →
  pk v' = pk v ∧ i v' = i v ∧ votes (c v') = votes (c v)
  ∧ profiles (c v') = profiles (c v)
  ∧ ∀ k, props.stripVotes <$> content (c v') !! k
         = props.stripVotes <$> content (c v) !! k.
Proof.
  intros [(q & r & H)|(q & r & H)].
  - unfold GetBoardPage in H.
    destruct (paginated.Get _ _) as [tHashes|e]; [|by simplify_eq].
    destruct (annotateAll v _ _) as [v1|] eqn:E; [|by simplify_eq].
    simplify_eq. by eapply annotateAll_only_votes.
  - unfold GetThreadPage in H.
    destruct (content (c v) !! ThreadHash q); [|by simplify_eq].
    destruct (annotate v _ _) as [v1|] eqn:E1; [|by simplify_eq].
    assert (annotateAll v (tpPerspective q) [ThreadHash q] = Some v1) as E1'
      by (cbn; by rewrite E1).
    apply annotateAll_only_votes in E1' as (A1 & A2 & A3 & A4 & A5).
    destruct (PostsOfThread (i v1) !! ThreadHash q) as [plist|];
      [|by simplify_eq].
    destruct (paginated.Get plist _) as [pHashes|e]; [|by simplify_eq].
    destruct (annotateAll v1 _ _) as [v2|] eqn:E2; [|by simplify_eq].
    apply annotateAll_only_votes in E2 as (B1 & B2 & B3 & B4 & B5).
    simplify_eq. do 4 (split; [congruence|]).
    intros k. rewrite B5. apply A5.
Qed.

Lemma page_queries_write_only_votes_witness :
  i samples.paged1 = i samples.viewer1
  ∧ votes (c samples.paged1) = votes (c samples.viewer1).
Proof.
  assert (fst (GetBoardPage (Some samples.viewer1) samples.boardQuery1)
          = Some samples.paged1) as E by (vm_compute; reflexivity).
  destruct (GetBoardPage (Some samples.viewer1) samples.boardQuery1)
    as [ov r] eqn:E1.
  cbn in E. subst ov.
  pose proof (page_queries_write_only_votes samples.viewer1 samples.paged1
                (or_introl (ex_intro _ _ (ex_intro _ _ E1))))
    as (_ & H1 & H2 & _).
  exact (conj H1 H2).
Defined.

(** X14. A user-vote that carries no matching tag - [+1] without the
    trust tag, [-1] with neither the spam nor the block tag, or a value
    other than [+1], [-1] and [0] - leaves the indexer alone but still
    creates the profiles of its creator and of its target: a user who was
    not indexed before has a profile afterwards that [GetUserProfile]
    refuses with [NotFound]. *)
Theorem untagged_user_vote_indexes_nobody (v : Viewer) (ct : Content)
    (b : Body) (h : ContentHeaderData) :
  (Value b = 1%Z ∧ HasTag b TrustTag = false)
  ∨ (Value b = (-1)%Z ∧ HasTag b SpamTag = false
     ∧ HasTag b BlockTag = false)
  ∨ (Value b ≠ 1%Z ∧ Value b ≠ (-1)%Z ∧ Value b ≠ 0%Z) →
  let v' := fst (processUserVote v ct b h) in
  i v' = i v
  ∧ is_Some (profiles (c v') !! Creator b)
  ∧ is_Some (profiles (c v') !! OfUser b)
  ∧ ∀ u, HasUser (Some v) u = false →
         ∃ e, GetUserProfile (Some v') {| UserPubKey := u |} = Err e
              ∧ boo.kind e = boo.NotFound.
Proof.
  intros Hb v'.
  assert (i v' = i v) as Hi.
  { subst v'. unfold processUserVote. cbn [fst].
    destruct Hb as [[H1 H2]|[(H1 & H2 & H3)|(H1 & H2 & H3)]].
    - rewrite decide_True, H2 by done. reflexivity.
    - rewrite decide_False, decide_True, H2, H3 by (done || lia).
      reflexivity.
    - rewrite !decide_False by done. reflexivity. }
  split; [exact Hi|].
  split; [subst v'; apply processUserVote_profiles; auto|].
  split; [subst v'; apply processUserVote_profiles; auto|].
  intros u Hu. unfold GetUserProfile. cbn [UserPubKey]. rewrite Hi.
  cbn in Hu. rewrite Hu. cbn. eauto.
Qed.

Lemma untagged_user_vote_indexes_nobody_witness :
  let ct := samples.userVote samples.U2 samples.U1 1 [] in
  ∃ e, GetUserProfile
         (Some (fst (processUserVote samples.emptyViewer ct (GetBody ct)
                       (GetHeader ct))))
         {| UserPubKey := samples.U2 |} = Err e
       ∧ boo.kind e = boo.NotFound.
Proof.
  intros ct.
  refine (proj2 (proj2 (proj2 (untagged_user_vote_indexes_nobody
                                 samples.emptyViewer ct (GetBody ct)
                                 (GetHeader ct) _))) samples.U2 _).
  - left. split; reflexivity.
  - reflexivity.
Defined.

(** ** Snapshot instance: shape and appended pages *)

Lemma RefByIndex_Refs (pk : v1.Pack) (n : nat) (x : v1.RootChild) :
  v1.unreadable pk = None →
  (snd <$> v1.Refs pk) !! n = Some x →
  v1.RefByIndex pk n = Ok x.
Proof.
  intros Hu Hx. unfold v1.RefByIndex. rewrite Hu.
  rewrite list_lookup_fmap in Hx.
  destruct (v1.Refs pk !! n) as [[h y]|]; cbn in Hx; by simplify_eq.
Qed.

Lemma extract_pack
    (hashPage : v1.ContentVotesPage → keys.SHA256) (p : v1.PackInstance) :
  v1.pack (fst (v1.extract hashPage p)) = v1.pack p
  ∧ v1.prev (fst (v1.extract hashPage p)) = v1.prev p.
Proof.
  unfold v1.extract. repeat case_match; done.
Qed.

(** X15. Shape of a built instance: when [NewPackInstance] succeeds, the
    root is readable and has exactly five children, of the types
    [ThreadPages], [Deleted], [ThreadVotesPages], [PostVotesPages] and
    [UserVotesPages] in this order; the instance keeps the pack it was
    given, has dropped the previous instance, carries a got-store and a
    user-votes store, and [GetThreadVotesPages] and [GetPostVotesPages]
    return the third and fourth child. *)
Theorem NewPackInstance_shape
    (hashPage : v1.ContentVotesPage → keys.SHA256)
    (old : option v1.PackInstance) (pk : v1.Pack) (p : v1.PackInstance) :
  v1.NewPackInstance hashPage old pk = Ok p →
  v1.prev p = None ∧ v1.pack p = pk ∧ v1.unreadable pk = None
  ∧ is_Some (v1.gotStore p) ∧ is_Some (v1.uVotesStore p)
  ∧ ∃ tp d tv pv uv,
      snd <$> v1.Refs pk
      = [v1.IsThreadPages tp; v1.IsDeleted d; v1.IsThreadVotesPages tv;
         v1.IsPostVotesPages pv; v1.IsUserVotesPages uv]
      ∧ v1.GetThreadVotesPages p = Ok tv
      ∧ v1.GetPostVotesPages p = Ok pv.
Proof.
  unfold v1.NewPackInstance. intros H.
  match type of H with context [v1.extract _ ?q] => set (p0 := q) in * end.
  destruct (v1.extract hashPage p0) as [p1 [e|]] eqn:E; [done|].
  injection H as <-.
  unfold v1.extract, v1.extractRootChildren, v1.RootRefs in E. cbn in E.
  destruct (v1.unreadable pk) eqn:Hu; [done|].
  case_decide as Hlen; [done|].
  destruct (snd <$> v1.Refs pk) as [|c0 [|c1 [|c2 [|c3 [|c4 [|c5 rest]]]]]]
    eqn:Hrefs; try (cbn in Hlen; done).
  cbn in E.
  destruct c0 as [tp| | | | |]; try done.
  destruct c1 as [|d| | | |]; try done.
  destruct c2 as [| |tv| | |]; try done.
  destruct c3 as [| | |pv| |]; try done.
  destruct c4 as [| | | |uv|]; try done.
  cbn in E. injection E as <-. cbn.
  do 5 (split; [done|]).
  exists tp, d, tv, pv, uv. split; [done|].
  unfold v1.GetThreadVotesPages, v1.GetPostVotesPages. cbn.
  rewrite (RefByIndex_Refs pk v1.indexThreadVotes (v1.IsThreadVotesPages tv) Hu)
    by (by rewrite Hrefs).
  rewrite (RefByIndex_Refs pk v1.indexPostVotes (v1.IsPostVotesPages pv) Hu)
    by (by rewrite Hrefs).
  done.
Qed.

Lemma NewPackInstance_shape_witness :
  v1.prev samples.instance1 = None
  ∧ v1.pack samples.instance1 = samples.snapshot1.
Proof.
  pose proof (NewPackInstance_shape samples.hashPage0 None samples.snapshot1
                samples.instance1 eq_refl) as (H1 & H2 & _).
  exact (conj H1 H2).
Defined.

Lemma GetThreadVotesPages_Refs (p : v1.PackInstance)
    (tv : v1.ThreadVotesPages) :
  v1.GetThreadVotesPages p = Ok tv →
  v1.unreadable (v1.pack p) = None
  ∧ ∃ h, v1.Refs (v1.pack p) !! v1.indexThreadVotes
         = Some (h, v1.IsThreadVotesPages tv).
Proof.
  unfold v1.GetThreadVotesPages, v1.RefByIndex.
  destruct (v1.unreadable (v1.pack p)); [done|].
  destruct (v1.Refs (v1.pack p) !! v1.indexThreadVotes) as [[h x]|]; [|done].
  destruct x; try done. cbn. intros ?; simplify_eq. eauto.
Qed.

Lemma GetPostVotesPages_Refs (p : v1.PackInstance) (pv : v1.PostVotesPages) :
  v1.GetPostVotesPages p = Ok pv →
  v1.unreadable (v1.pack p) = None
  ∧ ∃ h, v1.Refs (v1.pack p) !! v1.indexPostVotes
         = Some (h, v1.IsPostVotesPages pv).
Proof.
  unfold v1.GetPostVotesPages, v1.RefByIndex.
  destruct (v1.unreadable (v1.pack p)); [done|].
  destruct (v1.Refs (v1.pack p) !! v1.indexPostVotes) as [[h x]|]; [|done].
  destruct x; try done. cbn. intros ?; simplify_eq. eauto.
Qed.

Lemma last_index {A} (l : list A) (x : A) :
  (l ++ [x])%list !! (length (l ++ [x])%list - 1) = Some x.
Proof.
  rewrite length_app. cbn. rewrite lookup_app_r by lia.
  by replace (length l + 1 - 1 - length l) with 0 by lia.
Qed.

(** X16. Appending a thread-votes page for a hash the thread store does
    not know: the call succeeds; the new page, with no votes, is the last
    of the root's thread-votes pages; the store now has a summary for the
    hash whose index is the position of that page; the other summaries of
    the store, the post-votes pages and the post store are as before. *)
Theorem AppendThreadVotesPage_fresh
    (hashPage : v1.ContentVotesPage → keys.SHA256)
    (hashChild : v1.RootChild → keys.SHA256)
    (p : v1.PackInstance) (st : v1.ContentVotesStore)
    (tv : v1.ThreadVotesPages) (h : keys.SHA256) :
  v1.tVotesStore p = Some st →
  v1.Get st h = None →
  v1.GetThreadVotesPages p = Ok tv →
  ∃ p' st' sm,
    v1.AppendThreadVotesPage hashPage hashChild p h = Some (p', None)
    ∧ v1.GetThreadVotesPages p'
      = Ok {| v1.Threads :=
                (v1.Threads tv ++ [{| v1.Ref := h; v1.pageVotes := [] |}])%list |}
    ∧ v1.tVotesStore p' = Some st'
    ∧ v1.Get st' h = Some sm
    ∧ (v1.Threads tv ++ [{| v1.Ref := h; v1.pageVotes := [] |}])%list
        !! v1.Index sm = Some {| v1.Ref := h; v1.pageVotes := [] |}
    ∧ v1.OfContent sm = h ∧ v1.Votes sm = ∅
    ∧ (∀ h', h' ≠ h → v1.Get st' h' = v1.Get st h')
    ∧ v1.GetPostVotesPages p' = v1.GetPostVotesPages p
    ∧ v1.pVotesStore p' = v1.pVotesStore p.
Proof.
  intros Hst Hget Htv.
  destruct (GetThreadVotesPages_Refs _ _ Htv) as (Hu & h0 & Hrefs).
  assert (v1.indexThreadVotes < length (v1.Refs (v1.pack p))) as Hlt
    by (eapply lookup_lt_Some; exact Hrefs).
  unfold v1.AppendThreadVotesPage. rewrite Hst, Hget, Htv.
  unfold v1.SetRefByIndex. rewrite Hu. rewrite decide_True by done.
  eexists _, _, _. split; [reflexivity|].
  split.
  { unfold v1.GetThreadVotesPages, v1.RefByIndex. cbn.
    by rewrite list_lookup_insert_eq by done. }
  split; [reflexivity|].
  split; [unfold v1.Get; cbn; by rewrite lookup_insert_eq|].
  split; [cbn [v1.Index v1.Threads]; apply last_index|].
  do 2 (split; [reflexivity|]).
  split; [intros h' Hne; unfold v1.Get; cbn; by rewrite lookup_insert_ne|].
  split; [|reflexivity].
  unfold v1.GetPostVotesPages, v1.RefByIndex. cbn. rewrite Hu.
  by rewrite list_lookup_insert_ne by done.
Qed.

Lemma AppendThreadVotesPage_fresh_witness :
  ∃ p',
    v1.AppendThreadVotesPage samples.hashPage0 samples.hashChild0
      samples.instance2 samples.P1 = Some (p', None)
    ∧ v1.GetThreadVotesPages p'
      = Ok {| v1.Threads := [samples.votePage samples.T1;
                             samples.votePage samples.P1] |}.
Proof.
  destruct (v1.tVotesStore samples.instance2) as [st|] eqn:E1;
    [|vm_compute in E1; discriminate].
  assert (v1.tVotesStore samples.instance2
            ≫= (λ s, v1.Get s samples.P1) = None) as E2
    by (vm_compute; reflexivity).
  rewrite E1 in E2. cbn in E2.
  destruct (AppendThreadVotesPage_fresh samples.hashPage0 samples.hashChild0
              samples.instance2 st
              {| v1.Threads := [samples.votePage samples.T1] |} samples.P1
              E1 E2 eq_refl) as (p' & _ & _ & H1 & H2 & _).
  exists p'. exact (conj H1 H2).
Defined.

(** X17. Appending a post-votes page for a hash the post store does not
    know, on an instance whose post store is set: the call succeeds; the
    new page is the last of the root's post-votes pages and the store's
    summary for the hash points at it; the other summaries, the
    thread-votes pages and the thread store are as before. *)
Theorem AppendPostVotesPage_fresh
    (hashPage : v1.ContentVotesPage → keys.SHA256)
    (hashChild : v1.RootChild → keys.SHA256)
    (p : v1.PackInstance) (st : v1.ContentVotesStore)
    (pv : v1.PostVotesPages) (h : keys.SHA256) :
  v1.pVotesStore p = Some st →
  v1.Get st h = None →
  v1.GetPostVotesPages p = Ok pv →
  ∃ p' st' sm,
    v1.AppendPostVotesPage hashPage hashChild p h = Some (p', None)
    ∧ v1.GetPostVotesPages p'
      = Ok {| v1.Posts :=
                (v1.Posts pv ++ [{| v1.Ref := h; v1.pageVotes := [] |}])%list |}
    ∧ v1.pVotesStore p' = Some st'
    ∧ v1.Get st' h = Some sm
    ∧ (v1.Posts pv ++ [{| v1.Ref := h; v1.pageVotes := [] |}])%list
        !! v1.Index sm = Some {| v1.Ref := h; v1.pageVotes := [] |}
    ∧ v1.OfContent sm = h ∧ v1.Votes sm = ∅
    ∧ (∀ h', h' ≠ h → v1.Get st' h' = v1.Get st h')
    ∧ v1.GetThreadVotesPages p' = v1.GetThreadVotesPages p
    ∧ v1.tVotesStore p' = v1.tVotesStore p.
Proof.
  intros Hst Hget Hpv.
  destruct (GetPostVotesPages_Refs _ _ Hpv) as (Hu & h0 & Hrefs).
  assert (v1.indexPostVotes < length (v1.Refs (v1.pack p))) as Hlt
    by (eapply lookup_lt_Some; exact Hrefs).
  unfold v1.AppendPostVotesPage. rewrite Hst, Hget, Hpv.
  unfold v1.SetRefByIndex. rewrite Hu. rewrite decide_True by done.
  eexists _, _, _. split; [reflexivity|].
  split.
  { unfold v1.GetPostVotesPages, v1.RefByIndex. cbn.
    by rewrite list_lookup_insert_eq by done. }
  split; [reflexivity|].
  split; [unfold v1.Get; cbn; by rewrite lookup_insert_eq|].
  split; [cbn [v1.Index v1.Posts]; apply last_index|].
  do 2 (split; [reflexivity|]).
  split; [intros h' Hne; unfold v1.Get; cbn; by rewrite lookup_insert_ne|].
  split; [|reflexivity].
  unfold v1.GetThreadVotesPages, v1.RefByIndex. cbn. rewrite Hu.
  by rewrite list_lookup_insert_ne by done.
Qed.

Lemma AppendPostVotesPage_fresh_witness :
  ∃ p',
    v1.AppendPostVotesPage samples.hashPage0 samples.hashChild0
      samples.instance2 samples.P1 = Some (p', None)
    ∧ v1.GetPostVotesPages p'
      = Ok {| v1.Posts := [samples.votePage samples.P1] |}.
Proof.
  destruct (v1.pVotesStore samples.instance2) as [st|] eqn:E1;
    [|vm_compute in E1; discriminate].
  assert (v1.pVotesStore samples.instance2
            ≫= (λ s, v1.Get s samples.P1) = None) as E2
    by (vm_compute; reflexivity).
  rewrite E1 in E2. cbn in E2.
  destruct (AppendPostVotesPage_fresh samples.hashPage0 samples.hashChild0
              samples.instance2 st {| v1.Posts := [] |} samples.P1
              E1 E2 eq_refl) as (p' & _ & _ & H1 & H2 & _).
  exists p'. exact (conj H1 H2).
Defined.

(** ** Compiler: shutdown during an update, and the board map *)

Lemma closeStuck_step (e : compiler.Event) (s s' : compiler.State) :
  props.closeStuck s → compiler.step e s = Some s' → props.closeStuck s'.
Proof.
  unfold props.closeStuck. intros (Hc & Hwg & Hl) Hstep.
  destruct s as [l cl n k]. cbn in *. subst cl n.
  destruct e; cbn in Hstep; case_decide; simplify_eq; cbn;
    repeat match goal with H : _ ∧ _ |- _ => destruct H end;
    try done; try (destruct Hl; congruence); auto.
Qed.

(** X18. [Close] called while an update runs never returns: once [Close]
    has taken its [default] branch and sits in [c.wg.Wait()] while the
    counted loop is inside [doUpdate] or back in its [select], every
    further schedule leaves it there - nobody sends on [quit] any more, so
    the loop keeps running and the counter stays at one. *)
Theorem Close_blocks_forever (es : list compiler.Event)
    (s s' : compiler.State) :
  props.closeStuck s →
  compiler.run es s = Some s' →
  props.closeStuck s'
  ∧ compiler.close s' ≠ compiler.CloseReturned
  ∧ compiler.loop s' ≠ compiler.LoopExited.
Proof.
  intros Hs Hrun.
  assert (props.closeStuck s') as H.
  { revert s Hs Hrun. induction es as [|e es IH]; intros s Hs Hrun;
      cbn in Hrun.
    - by simplify_eq.
    - destruct (compiler.step e s) as [s1|] eqn:E; [|done].
      eapply IH; [eapply closeStuck_step|]; eauto. }
  split; [done|]. destruct H as (H1 & _ & H3).
  split; [congruence|]. destruct H3; congruence.
Qed.

Lemma Close_blocks_forever_witness :
  compiler.run [compiler.LoopEnter; compiler.Tick; compiler.CloseCall;
                compiler.CloseDefault] compiler.NewCompiler
  = Some samples.closedDuringUpdate
  ∧ ∃ s', compiler.run [compiler.UpdateDone; compiler.Tick;
                        compiler.UpdateDone] samples.closedDuringUpdate
          = Some s'
          ∧ compiler.close s' ≠ compiler.CloseReturned.
Proof.
  split; [reflexivity|].
  eexists. split; [reflexivity|].
  refine (proj1 (proj2 (Close_blocks_forever
                          [compiler.UpdateDone; compiler.Tick;
                           compiler.UpdateDone]
                          samples.closedDuringUpdate _ _ eq_refl))).
  repeat split. by right.
Defined.

Section BoardMap.
Variables Node Root SecKey Adder BoardInstance : Type.
Variable LastFull : Node → keys.PubKey → result Root.
Variable NewBoardInstance :
  boards.BoardInstanceConfig SecKey → Node → Root → list Adder
  → result BoardInstance.
Variable isMaster : BoardInstance → bool.
Variable UpdateNeeded : Node → BoardInstance → bool.
Variable Update :
  Node → BoardInstance → Node * BoardInstance * option boo.error.

(** X19. [InitBoard] and [GetBoard]: a failed [InitBoard] leaves the
    compiler as it was; after a successful one at most one secret key was
    given, [GetBoard] returns for the key the instance that
    [NewBoardInstance] built for the node's last full root - a master
    exactly when a secret key was given - and answers for every other key
    as before. *)
Theorem InitBoard_then_GetBoard
    (cp cp' : boards.Compiler Node Adder BoardInstance)
    (pk : keys.PubKey) (sk : list SecKey) (err : option boo.error) :
  boards.InitBoard LastFull NewBoardInstance cp pk sk = (cp', err) →
  match err with
  | Some _ => cp' = cp
  | None =>
      (length sk ≤ 1)%nat
      ∧ boards.node cp' = boards.node cp
      ∧ (∃ root bi,
           LastFull (boards.node cp) pk = Ok root
           ∧ NewBoardInstance
               {| boards.Master := bool_decide (length sk = 1);
                  boards.PK := pk; boards.SK := head sk |}
               (boards.node cp) root (boards.adders cp) = Ok bi
           ∧ boards.GetBoard cp' pk = Ok bi)
      ∧ ∀ pk', pk' ≠ pk → boards.GetBoard cp' pk' = boards.GetBoard cp pk'
  end.
Proof.
  unfold boards.InitBoard. intros H.
  destruct (LastFull (boards.node cp) pk) as [root|e] eqn:E1;
    [|by simplify_eq].
  destruct sk as [|sk0 [|sk1 rest]]; [| |by simplify_eq].
  all: destruct (NewBoardInstance _ _ _ _) as [bi|e] eqn:E2;
    [|by simplify_eq].
  all: simplify_eq; cbn.
  all: split; [lia|]; split; [done|]; split.
  all: try (intros pk' Hne; unfold boards.GetBoard; cbn;
            by rewrite lookup_insert_ne).
  all: exists root, bi; split; [done|]; split; [exact E2|].
  all: unfold boards.GetBoard; cbn; by rewrite lookup_insert_eq.
Qed.

Lemma updateBoard_frame (cp : boards.Compiler Node Adder BoardInstance)
    (k : keys.PubKey) :
  let cp' := boards.updateBoard isMaster UpdateNeeded Update cp k in
  boards.adders cp' = boards.adders cp
  ∧ (∀ j, is_Some (boards.boards cp' !! j) ↔ is_Some (boards.boards cp !! j))
  ∧ ∀ j bi, boards.boards cp !! j = Some bi → isMaster bi = false →
            boards.boards cp' !! j = Some bi.
Proof.
  unfold boards.updateBoard.
  destruct (boards.boards cp !! k) as [bk|] eqn:Ek; [|done].
  destruct (isMaster bk) eqn:Em; cbn; [|done].
  destruct (UpdateNeeded (boards.node cp) bk); cbn; [|done].
  destruct (Update (boards.node cp) bk) as [[n1 b1] e]. cbn.
  split; [done|]. split.
  - intros j. rewrite lookup_insert_is_Some'.
    split; [intros [->|?]; [by rewrite Ek|done]|auto].
  - intros j bi Hj Hm. destruct (decide (j = k)) as [->|Hne].
    + rewrite Ek in Hj. simplify_eq. congruence.
    + by rewrite lookup_insert_ne.
Qed.

(** X20. One round of [doUpdate], whatever the order in which the map is
    ranged over: no board is added or removed, the adders stay, and the
    instance of a board that is not a master is left as it is. *)
Theorem doUpdate_keeps_subscribers (order : list keys.PubKey)
    (cp : boards.Compiler Node Adder BoardInstance) :
  let cp' := boards.doUpdate isMaster UpdateNeeded Update order cp in
  boards.adders cp' = boards.adders cp
  ∧ (∀ j, is_Some (boards.boards cp' !! j) ↔ is_Some (boards.boards cp !! j))
  ∧ ∀ j bi, boards.boards cp !! j = Some bi → isMaster bi = false →
            boards.boards cp' !! j = Some bi.
Proof.
  unfold boards.doUpdate. revert cp.
  induction order as [|k rest IH]; intros cp; cbn; [done|].
  destruct (updateBoard_frame cp k) as (A1 & A2 & A3).
  destruct (IH (boards.updateBoard isMaster UpdateNeeded Update cp k))
    as (B1 & B2 & B3).
  split; [congruence|]. split.
  - intros j. rewrite B2. apply A2.
  - intros j bi Hj Hm. apply B3; [by apply A3|done].
Qed.

End BoardMap.

Lemma InitBoard_then_GetBoard_witness :
  ∃ cp',
    boards.InitBoard samples.toyLastFull samples.toyNewBoardInstance
      samples.toyCompiler samples.PK1 [7] = (cp', None)
    ∧ boards.node cp' = boards.node samples.toyCompiler.
Proof.
  eexists. split; [reflexivity|].
  refine (proj1 (proj2 (InitBoard_then_GetBoard _ _ _ _ _
                          samples.toyLastFull samples.toyNewBoardInstance
                          samples.toyCompiler _ samples.PK1 [7] None
                          eq_refl))).
Defined.

Lemma doUpdate_keeps_subscribers_witness :
  let cp :=
    boards.withBoards samples.toyCompiler
      (<[samples.PK1 := {| boards.Master := false; boards.PK := samples.PK1;
                           boards.SK := None |}]> ∅) in
  boards.boards
    (boards.doUpdate (boards.Master nat) (λ _ _, true)
       (λ n b, (n, b, None))
       [samples.PK1] cp) !! samples.PK1
  = Some {| boards.Master := false; boards.PK := samples.PK1;
            boards.SK := None |}.
Proof.
  intros cp.
  refine (proj2 (proj2 (doUpdate_keeps_subscribers _ _ _
                          (boards.Master nat) (λ _ _, true)
                          (λ n b, (n, b, None))
                          [samples.PK1] cp)) samples.PK1
            {| boards.Master := false; boards.PK := samples.PK1;
               boards.SK := None |} _ eq_refl).
  subst cp. cbn. by rewrite lookup_insert_eq.
Defined.

(** ** Key strings *)

Lemma fromHexChar_Some (a : ascii) (x : N) :
  cxo.fromHexChar a = Some x →
  (x < 16)%N ∧ cxo.hexDigit x = keys.lower_digit a.
Proof.
  destruct a as [[] [] [] [] [] [] [] []]; vm_compute;
    intros H; by simplify_eq.
Qed.

Lemma hexDigit_fromHexChar (x : N) :
  (x < 16)%N → cxo.fromHexChar (cxo.hexDigit x) = Some x.
Proof.
  intros H.
  assert (x ∈ (N.of_nat <$> seq 0 16)) as Hx.
  { apply list_elem_of_fmap. exists (N.to_nat x).
    split; [lia|]. apply elem_of_seq. lia. }
  cbn in Hx. repeat (apply elem_of_cons in Hx as [->|Hx]; [reflexivity|]).
  by apply elem_of_nil in Hx.
Qed.

Lemma DecodeString_pairs (n : nat) (s : string) (b : list N) :
  (String.length s ≤ n)%nat →
  cxo.DecodeString s = Some b →
  String.length s = (2 * length b)%nat
  ∧ Forall (λ x, (x < 256)%N) b
  ∧ cxo.EncodeToString b = keys.lower s.
Proof.
  revert s b. induction n as [|n IH]; intros s b Hn H.
  - destruct s; [|cbn in Hn; lia]. cbn in H. by simplify_eq.
  - destruct s as [|a [|a' rest]]; cbn in H; [by simplify_eq|done|].
    destruct (cxo.fromHexChar a) as [x|] eqn:Ex; [|done].
    destruct (cxo.fromHexChar a') as [y|] eqn:Ey; [|done].
    destruct (cxo.DecodeString rest) as [b'|] eqn:Er; [|done].
    cbn in H. simplify_eq.
    destruct (IH rest b') as (H1 & H2 & H3); [cbn in Hn; lia|done|].
    destruct (fromHexChar_Some _ _ Ex) as [Hx Dx].
    destruct (fromHexChar_Some _ _ Ey) as [Hy Dy].
    split; [cbn; lia|]. split; [constructor; [lia|done]|].
    cbn [cxo.EncodeToString keys.lower].
    replace ((16 * x + y) / 16)%N with x
      by (apply N.div_unique with y; lia).
    replace ((16 * x + y) mod 16)%N with y
      by (apply N.mod_unique with x; lia).
    by rewrite Dx, Dy, H3.
Qed.

Lemma DecodeString_EncodeToString (b : list N) :
  Forall (λ x, (x < 256)%N) b →
  cxo.DecodeString (cxo.EncodeToString b) = Some b.
Proof.
  induction 1 as [|x b Hx _ IH]; [done|].
  cbn [cxo.EncodeToString cxo.DecodeString].
  rewrite !hexDigit_fromHexChar, IH; cbn.
  - f_equal. f_equal. symmetry. rewrite N.add_comm, N.mul_comm.
    rewrite N.mul_comm, N.add_comm. apply N.div_mod. lia.
  - apply N.mod_lt. lia.
  - apply N.Div0.div_lt_upper_bound. lia.
Qed.

(** X21. [GetPubKey] avoids the panic of [cipher.NewPubKey]: on every
    string it either reports an invalid key or returns a key, and it
    returns a key exactly when the string decodes as hex to 33 bytes;
    the string then has 66 characters, and the hex form of the key is the
    string in lower case. *)
Theorem GetPubKey_never_panics (s : string) :
  cxo.GetPubKey s ≠ cxo.Panics
  ∧ (∀ k, cxo.GetPubKey s = cxo.Key k
          ↔ cxo.DecodeString s = Some k ∧ length k = cxo.pubKeyLen)
  ∧ (∀ k, cxo.GetPubKey s = cxo.Key k →
          String.length s = 66%nat
          ∧ cxo.EncodeToString k = keys.lower s).
Proof.
  assert (∀ k, cxo.GetPubKey s = cxo.Key k
               ↔ cxo.DecodeString s = Some k ∧ length k = cxo.pubKeyLen)
    as Hiff.
  { intros k. unfold cxo.GetPubKey, cxo.NewPubKey.
    destruct (cxo.DecodeString s) as [b|]; [|split; [done|by intros []]].
    repeat case_decide; try done; split; try done.
    - intros [? ?]. by simplify_eq.
    - intros ?. by simplify_eq.
    - intros [? ?]. by simplify_eq. }
  split; [|split; [exact Hiff|]].
  - unfold cxo.GetPubKey, cxo.NewPubKey.
    destruct (cxo.DecodeString s); [|done]. by repeat case_decide.
  - intros k [Hd Hl]%Hiff.
    destruct (DecodeString_pairs _ s k (le_n _) Hd) as (H1 & _ & H3).
    split; [|done]. rewrite H1, Hl. reflexivity.
Qed.

Lemma GetPubKey_never_panics_witness :
  cxo.EncodeToString samples.keyBytes = keys.lower samples.keyString.
Proof.
  refine (proj2 (proj2 (proj2 (GetPubKey_never_panics samples.keyString))
                   samples.keyBytes _)).
  vm_compute. reflexivity.
Defined.

(** X22. Round trip: the hex form of any 33 bytes reads back as the same
    key. *)
Theorem GetPubKey_of_hex (k : list N) :
  length k = cxo.pubKeyLen →
  Forall (λ x, (x < 256)%N) k →
  cxo.GetPubKey (cxo.EncodeToString k) = cxo.Key k.
Proof.
  intros Hl Hk. unfold cxo.GetPubKey, cxo.NewPubKey.
  rewrite (DecodeString_EncodeToString k Hk).
  by rewrite decide_False, decide_True by (by rewrite ?Hl; auto).
Qed.

Lemma GetPubKey_of_hex_witness :
  cxo.GetPubKey (cxo.EncodeToString samples.keyBytes)
  = cxo.Key samples.keyBytes.
Proof.
  apply (GetPubKey_of_hex samples.keyBytes); [reflexivity|].
  unfold samples.keyBytes. cbn.
  repeat (constructor; [reflexivity|]). constructor.
Defined.
